(** * FocusFlow: the job pipeline engine of [main/main.py]

    A shallow embedding of the pipeline helpers ([resolve_plaud_audio_url],
    [download_audio_file], [summarize_with_gpt], [extract_title_from_summary],
    [_guess_ext]) and of the job store of [AppState] ([run_job], the two
    retries, the two summary regenerations, [clear], deletion).

    Conventions of the embedding.
    - A Python [str] is a [string]; each [ascii] stands for one character
      (code points 0..255).  A character beyond this range, be it written
      in the source file (three log lines have one), denoted by an escape
      of a JSON text or received in a line of a stream, is spelled by its
      UTF-8 bytes: a text with such characters is carried, compared and
      concatenated as Python does, while its length, [isspace], [lower] and
      the patterns see the bytes.
    - A value of any type (what [json.loads] returns, what a field of a
      response or of a job holds) is a [JSON]; an operation that Python
      defines on some types only ([len], [+] with a [str]) raises the
      [TypeError] of Python on the others.
    - An exception is a value of [PyExn]; a computation that may raise
      returns [PyExn + A].
    - A generator that logs through its [log] callback and finally returns
      (or raises) is a [Stage]: the lines it logged, in order, and its
      outcome.  The [yield None] after each line only hands control back to
      the caller and has no counterpart here.
    - Everything the process receives from outside (HTTP responses, clock
      readings, a fresh job id) is an explicit argument. *)

From Stdlib Require Import String Ascii List ZArith QArith Bool Arith Lia Sorted.
Import ListNotations.

Set Warnings "-comment-terminator-in-string".

Close Scope Q_scope.
Open Scope nat_scope.
Open Scope list_scope.
Open Scope string_scope.

(** ** Python strings *)

Module Py.

(** [str.isspace] on one character of the range 0..255. *)
Definition isspace (c : ascii) : bool :=
  let n := nat_of_ascii c in
  (Nat.leb 9 n && Nat.leb n 13) || (Nat.leb 28 n && Nat.leb n 32)
  || Nat.eqb n 133 || Nat.eqb n 160.

(** [str.lower] on one character of the range 0..255. *)
Definition lower_char (c : ascii) : ascii :=
  let n := nat_of_ascii c in
  if (Nat.leb 65 n && Nat.leb n 90)
     || (Nat.leb 192 n && Nat.leb n 222 && negb (Nat.eqb n 215))
  then ascii_of_nat (n + 32) else c.

Fixpoint lower (s : string) : string :=
  match s with
  | EmptyString => EmptyString
  | String c s' => String (lower_char c) (lower s')
  end.

(** [sub in s] *)
Fixpoint contains (sub s : string) : bool :=
  String.prefix sub s ||
  match s with
  | EmptyString => false
  | String _ s' => contains sub s'
  end.

(** [s.startswith(p)] *)
Definition startswith (p s : string) : bool := String.prefix p s.

(** Stripping the characters that satisfy [p] from the left, from the
    right, from both ends. *)
Fixpoint lstrip_by (p : ascii -> bool) (s : string) : string :=
  match s with
  | EmptyString => EmptyString
  | String c s' => if p c then lstrip_by p s' else s
  end.

Fixpoint rstrip_by (p : ascii -> bool) (s : string) : string :=
  match s with
  | EmptyString => EmptyString
  | String c s' =>
      match rstrip_by p s' with
      | EmptyString => if p c then EmptyString else String c EmptyString
      | r => String c r
      end
  end.

Definition strip_by (p : ascii -> bool) (s : string) : string := rstrip_by p (lstrip_by p s).

(** [s.strip()] *)
Definition strip (s : string) : string := strip_by isspace s.

(** [s[:n]] for [n >= 0] *)
Definition take (n : nat) (s : string) : string := String.substring 0 n s.

(** [s[n:]] for [n >= 0] *)
Fixpoint drop (n : nat) (s : string) : string :=
  match n, s with
  | O, _ => s
  | S n', String _ s' => drop n' s'
  | S _, EmptyString => EmptyString
  end.

(** [s.endswith(p)] *)
Definition endswith (p s : string) : bool :=
  Nat.leb (String.length p) (String.length s)
  && String.eqb (drop (String.length s - String.length p) s) p.

(** [s.split(sep)] for a one-character separator: never the empty list. *)
Fixpoint split (sep : ascii) (s : string) : list string :=
  match s with
  | EmptyString => [EmptyString]
  | String c s' =>
      if Ascii.eqb c sep then EmptyString :: split sep s'
      else match split sep s' with
           | [] => [String c EmptyString]
           | w :: ws => String c w :: ws
           end
  end.

(** Truth value of a [str]: non-empty. *)
Definition truthy (s : string) : bool :=
  match s with EmptyString => false | _ => true end.

(** Truth value of an [Optional[str]]: neither [None] nor empty. *)
Definition truthy_opt (o : option string) : bool :=
  match o with Some s => truthy s | None => false end.

(** [o or ""] for an [Optional[str]]. *)
Definition or_empty (o : option string) : string :=
  match o with Some s => s | None => EmptyString end.

(** The decimal text of a natural number, as [str(n)] prints it. *)
Fixpoint digits_fuel (fuel n : nat) (acc : string) : string :=
  match fuel with
  | O => acc
  | S fuel' =>
      let acc' := String (ascii_of_nat (48 + n mod 10)) acc in
      if Nat.eqb (n / 10) 0 then acc' else digits_fuel fuel' (n / 10) acc'
  end.

Definition str_nat (n : nat) : string := digits_fuel (S n) n EmptyString.

End Py.

(** The double quote, and a text with each apostrophe read as a double
    quote (for spelling JSON texts). *)
Definition dq : ascii := "034"%char.

Fixpoint dquoted (s : string) : string :=
  match s with
  | EmptyString => EmptyString
  | String c s' => String (if Ascii.eqb c "'" then dq else c) (dquoted s')
  end.

(** The three characters the source file spells between the two halves of
    some log lines, as their UTF-8 bytes (two of them lie outside the range
    0..255). *)
Definition arrow : string := "â†’".

(** An exception: [type(e).__name__] and [str(e)]. *)
Record PyExn := mkExn { exn_type : string; exn_msg : string }.

(** A generator driven to its end: the lines passed to [log], in order, and
    the value returned or the exception raised. *)
Record Stage (A : Type) := mkStage { emitted : list string; outcome : PyExn + A }.
Arguments mkStage {A} _ _.
Arguments emitted {A} _.
Arguments outcome {A} _.


(** ** Python values *)

(** A decoded JSON value; the values the helpers take from the answers of
    the services are of this kind.  A number without fraction and exponent
    is an [int]; any other number is a [float], kept as its literal. *)
#[warnings="-register-all"]
Inductive JSON : Type :=
| JNull
| JBool (b : bool)
| JInt (n : Z)
| JFloat (lit : string)
| JStr (s : string)
| JList (l : list JSON)
| JDict (kv : list (string * JSON)).

(** [d.get(key)]; [None] when the key is absent. *)
Fixpoint dict_get (kv : list (string * JSON)) (key : string) : option JSON :=
  match kv with
  | [] => None
  | (k, v) :: kv' => if String.eqb k key then Some v else dict_get kv' key
  end.

(** [d[key] = v]: a key already present keeps its place. *)
Fixpoint dict_set (kv : list (string * JSON)) (key : string) (v : JSON) : list (string * JSON) :=
  match kv with
  | [] => [(key, v)]
  | (k, x) :: kv' =>
      if String.eqb k key then (k, v) :: kv' else (k, x) :: dict_set kv' key v
  end.

(** [v.get(key)] guarded by [isinstance(v, dict)]. *)
Definition get (v : JSON) (key : string) : option JSON :=
  match v with
  | JDict kv => dict_get kv key
  | _ => None
  end.

(** [bool(v)]; whether the [float] of a literal is non-zero is left to
    [float_nonzero]. *)
Definition json_truthy (float_nonzero : string -> bool) (v : JSON) : bool :=
  match v with
  | JNull => false
  | JBool b => b
  | JInt n => negb (Z.eqb n 0)
  | JFloat lit => float_nonzero lit
  | JStr s => Py.truthy s
  | JList l => match l with [] => false | _ => true end
  | JDict kv => match kv with [] => false | _ => true end
  end.

(** [type(v).__name__] *)
Definition type_name (v : JSON) : string :=
  match v with
  | JNull => "NoneType" | JBool _ => "bool" | JInt _ => "int" | JFloat _ => "float"
  | JStr _ => "str" | JList _ => "list" | JDict _ => "dict"
  end.

(** [len(v)] *)
Definition py_len (v : JSON) : PyExn + nat :=
  match v with
  | JStr s => inr (String.length s)
  | JList l => inr (List.length l)
  | JDict kv => inr (List.length kv)
  | _ => inl (mkExn "TypeError" ("object of type '" ++ type_name v ++ "' has no len()"))
  end.

(** What [text + v] raises for a text [text] and a value [v] that is no
    text. *)
Definition concat_error (v : JSON) : PyExn :=
  mkExn "TypeError"
        (dquoted "can only concatenate str (not '" ++ type_name v ++ dquoted "') to str").

(** Every float taken as non-zero (sample data). *)
Definition nonzero_all : string -> bool := fun _ => true.


(** ** Jobs and the job store ([class AppState]) *)

(** The values the code gives to a job's ["status"]. *)
Inductive Status :=
  Queued | Running | Downloading | Transcribing | Summarizing | Completed | Error.

Definition status_str (s : Status) : string :=
  match s with
  | Queued => "queued" | Running => "running" | Downloading => "downloading"
  | Transcribing => "transcribing" | Summarizing => "summarizing"
  | Completed => "completed" | Error => "error"
  end.

Definition status_eqb (a b : Status) : bool := String.eqb (status_str a) (status_str b).

(** A job: the dict built by [add_job], plus ["resolved_url"], a key that is
    absent until [run_job] sets it.  ["transcript"] holds what the
    transcriber returned, which need not be a text. *)
Record Job := mkJob {
  id : string;
  url : string;
  status : Status;
  created_at : Z;
  created_label : string;
  meeting_date : string;
  title : string;
  path : string;
  error : string;
  file_path : string;
  transcript : JSON;
  summary : string;
  logs : list string;
  resolved_url : option string
}.

(** [j[key] = v] for the keys the operations assign. *)
Definition with_status (v : Status) (j : Job) : Job :=
  mkJob (id j) (url j) v (created_at j) (created_label j) (meeting_date j)
        (title j) (path j) (error j) (file_path j) (transcript j) (summary j)
        (logs j) (resolved_url j).

Definition with_title (v : string) (j : Job) : Job :=
  mkJob (id j) (url j) (status j) (created_at j) (created_label j) (meeting_date j)
        v (path j) (error j) (file_path j) (transcript j) (summary j)
        (logs j) (resolved_url j).

Definition with_error (v : string) (j : Job) : Job :=
  mkJob (id j) (url j) (status j) (created_at j) (created_label j) (meeting_date j)
        (title j) (path j) v (file_path j) (transcript j) (summary j)
        (logs j) (resolved_url j).

Definition with_file_path (v : string) (j : Job) : Job :=
  mkJob (id j) (url j) (status j) (created_at j) (created_label j) (meeting_date j)
        (title j) (path j) (error j) v (transcript j) (summary j)
        (logs j) (resolved_url j).

Definition with_transcript (v : JSON) (j : Job) : Job :=
  mkJob (id j) (url j) (status j) (created_at j) (created_label j) (meeting_date j)
        (title j) (path j) (error j) (file_path j) v (summary j)
        (logs j) (resolved_url j).

Definition with_summary (v : string) (j : Job) : Job :=
  mkJob (id j) (url j) (status j) (created_at j) (created_label j) (meeting_date j)
        (title j) (path j) (error j) (file_path j) (transcript j) v
        (logs j) (resolved_url j).

Definition with_logs (v : list string) (j : Job) : Job :=
  mkJob (id j) (url j) (status j) (created_at j) (created_label j) (meeting_date j)
        (title j) (path j) (error j) (file_path j) (transcript j) (summary j)
        v (resolved_url j).

Definition with_resolved_url (v : string) (j : Job) : Job :=
  mkJob (id j) (url j) (status j) (created_at j) (created_label j) (meeting_date j)
        (title j) (path j) (error j) (file_path j) (transcript j) (summary j)
        (logs j) (Some v).

(** One assignment to a job's ["status"]: which job, the value it had, the
    value it gets. *)
Record Transition := mkTransition { t_id : string; t_from : Status; t_to : Status }.

(** The state of the application.  [audio_url], [jobs] and [current_job_id]
    are the fields of the class.  [jobs_file] is the content of [JOBS_PATH],
    the file [_save] rewrites.  [status_log] is a history variable: every
    assignment to a job's ["status"], in program order; no operation reads
    it. *)
Record AppState := mkApp {
  audio_url : string;
  jobs : list Job;
  current_job_id : string;
  jobs_file : list Job;
  status_log : list Transition
}.

Definition initial_state : AppState := mkApp "" [] "" [] [].

(** [_get_job]: the first job of the list with that id. *)
Fixpoint _get_job (js : list Job) (job_id : string) : option Job :=
  match js with
  | [] => None
  | j :: rest => if String.eqb (id j) job_id then Some j else _get_job rest job_id
  end.

(** [_save]: dump [self.jobs] to [JOBS_PATH].  (A failing write is caught
    and printed by the code; the write is taken to succeed.) *)
Definition _save (s : AppState) : AppState :=
  mkApp (audio_url s) (jobs s) (current_job_id s) (jobs s) (status_log s).

(** *** The reference [j]

    [j = self._get_job(job_id)] hands out a reference to a dict that stays
    in [self.jobs]: what the code then assigns through [j] is seen in the
    list.  [Held] is the state with that dict singled out: the jobs before
    it (none of them has the id), the dict itself, the jobs after it. *)
Record Held := mkHeld {
  before : list Job;
  j : Job;
  after : list Job;
  h_audio_url : string;
  h_current_job_id : string;
  h_jobs_file : list Job;
  h_status_log : list Transition
}.

Fixpoint locate (js : list Job) (job_id : string) : option (list Job * Job * list Job) :=
  match js with
  | [] => None
  | x :: rest =>
      if String.eqb (id x) job_id then Some ([], x, rest)
      else match locate rest job_id with
           | Some (pre, y, post) => Some (x :: pre, y, post)
           | None => None
           end
  end.

Definition hold (s : AppState) (job_id : string) : option Held :=
  match locate (jobs s) job_id with
  | Some (pre, x, post) =>
      Some (mkHeld pre x post (audio_url s) (current_job_id s) (jobs_file s) (status_log s))
  | None => None
  end.

Definition h_jobs (h : Held) : list Job := (before h ++ j h :: after h)%list.

Definition release (h : Held) : AppState :=
  mkApp (h_audio_url h) (h_jobs h) (h_current_job_id h) (h_jobs_file h) (h_status_log h).

(** An assignment through [j] that leaves ["status"] alone. *)
Definition assign (f : Job -> Job) (h : Held) : Held :=
  mkHeld (before h) (f (j h)) (after h) (h_audio_url h) (h_current_job_id h)
         (h_jobs_file h) (h_status_log h).

(** [j["status"] = v] *)
Definition assign_status (v : Status) (h : Held) : Held :=
  mkHeld (before h) (with_status v (j h)) (after h) (h_audio_url h) (h_current_job_id h)
         (h_jobs_file h)
         (h_status_log h ++ [mkTransition (id (j h)) (status (j h)) v])%list.

(** [self._save()] while [j] is held. *)
Definition save_held (h : Held) : Held :=
  mkHeld (before h) (j h) (after h) (h_audio_url h) (h_current_job_id h)
         (h_jobs h) (h_status_log h).

(** [self._append_log(job_id, line)] where [job_id] is the id of the held
    job: the lookup finds [j] again ([append_log_held_ok] below), the line
    goes to the end of its ["logs"], and the jobs are saved.  The console
    print of [_log_print] is not modelled. *)
Definition append_log_held (line : string) (h : Held) : Held :=
  save_held (assign (fun x => with_logs (logs x ++ [line])%list x) h).

(** [_append_log] as a method: nothing happens when no job has the id. *)
Definition _append_log (job_id line : string) (s : AppState) : AppState :=
  match hold s job_id with
  | None => s
  | Some h => release (append_log_held line h)
  end.

(** *** [try: ... except Exception as e: ...] around assignments through [j] *)

Definition Try (A : Type) : Type := Held -> (PyExn + A) * Held.

Definition ret {A} (a : A) : Try A := fun h => (inr a, h).

Definition bind {A B} (m : Try A) (k : A -> Try B) : Try B :=
  fun h =>
    match m h with
    | (inl e, h') => (inl e, h')
    | (inr a, h') => k a h'
    end.

Declare Scope try_scope.
Delimit Scope try_scope with try.
Notation "x <- m ;; k" := (bind m (fun x => k))
  (at level 61, m at next level, right associativity) : try_scope.
Notation "m ;; k" := (bind m (fun _ => k))
  (at level 61, right associativity) : try_scope.

(** A statement that cannot raise. *)
Definition act (f : Held -> Held) : Try unit := fun h => (inr tt, f h).

(** Reading a key of [j]. *)
Definition read {A} (f : Job -> A) : Try A := fun h => (inr (f (j h)), h).

(** A call that returns or raises and logs nothing. *)
Definition call {A} (r : PyExn + A) : Try A := fun h => (r, h).

(** The lines a stage passes to [lambda m: self._append_log(job_id, m)]. *)
Definition log_lines (lines : list string) (h : Held) : Held :=
  fold_left (fun h' line => append_log_held line h') lines h.

(** [yield from stage(job_id, ..., lambda m: self._append_log(job_id, m))] *)
Definition run_stage {A} (g : Stage A) : Try A :=
  fun h => (outcome g, log_lines (emitted g) h).

Definition try_except (body : Try unit) (handler : PyExn -> Held -> Held) (h : Held) : Held :=
  match body h with
  | (inl e, h') => handler e h'
  | (inr _, h') => h'
  end.

(** What the pipeline helpers do during one operation, given what the
    network and the file system answer: the five helpers [run_job] calls,
    each with the arguments the code passes bar the [log] callback.  The
    transcriber returns [None] ([JNull]), a text, or whatever else the
    service put under ["text"]; the summarizer is handed what the job holds
    under ["transcript"].  [svc_nonzero] says whether the [float] of a
    literal is non-zero: the truth value of a transcript that is a float
    depends on it. *)
Record Services := mkServices {
  svc_resolve : string -> string -> Stage string;
  svc_download : string -> string -> Stage string;
  svc_transcribe : string -> string -> Stage JSON;
  svc_summarize : string -> JSON -> string -> Stage (option string);
  svc_title : string -> PyExn + string;
  svc_nonzero : string -> bool
}.

(** [bool(v)] during an operation with the services [w]. *)
Definition truthy_in (w : Services) (v : JSON) : bool := json_truthy (svc_nonzero w) v.

Definition is_active (s : Status) : bool :=
  match s with
  | Running | Downloading | Transcribing | Summarizing => true
  | _ => false
  end.

Definition chars (n : nat) : string := Py.str_nat n ++ " chars".

(** The body of the [try] of [run_job]. *)
Definition run_job_try (w : Services) (job_id : string) : Try unit :=
  (u <- read url ;;
   resolved <- run_stage (svc_resolve w job_id u) ;;
   act (assign (with_resolved_url resolved)) ;;
   act save_held ;;
   act (assign_status Downloading) ;;
   act save_held ;;
   file_path <- run_stage (svc_download w job_id resolved) ;;
   act (assign (with_file_path file_path)) ;;
   act save_held ;;
   act (append_log_held ("Downloaded to " ++ file_path)) ;;
   act (assign_status Transcribing) ;;
   act save_held ;;
   text <- run_stage (svc_transcribe w job_id file_path) ;;
   act (assign (with_transcript (if truthy_in w text then text else JStr ""))) ;;
   act save_held ;;
   (if truthy_in w text
    then n <- call (py_len text) ;;
         act (append_log_held ("Transcription complete: " ++ chars n))
    else act (append_log_held "Transcription skipped or failed; proceeding")) ;;
   act (assign_status Summarizing) ;;
   act save_held ;;
   tr <- read transcript ;;
   md <- read meeting_date ;;
   summary <- (if truthy_in w tr then run_stage (svc_summarize w job_id tr md)
               else ret None) ;;
   act (assign (with_summary (Py.or_empty summary))) ;;
   (if Py.truthy_opt summary
    then t <- call (svc_title w (Py.or_empty summary)) ;; act (assign (with_title t))
    else ret tt) ;;
   act save_held ;;
   act (append_log_held
          (if Py.truthy_opt summary
           then "Summary complete: " ++ chars (String.length (Py.or_empty summary))
           else "Summary skipped or failed")) ;;
   act (assign_status Completed) ;;
   act save_held ;;
   act (append_log_held "Pipeline done."))%try.

(** The [except] of [run_job]. *)
Definition run_job_except (e : PyExn) (h : Held) : Held :=
  let h := assign_status Error h in
  let h := assign (with_error (exn_type e ++ ": " ++ exn_msg e)) h in
  let h := save_held h in
  append_log_held ("ERROR: " ++ error (j h)) h.

Definition run_job (w : Services) (job_id : string) (s : AppState) : AppState :=
  match hold s job_id with
  | None => s
  | Some h =>
      if is_active (status (j h)) then s
      else
        let h := assign_status Running h in
        let h := save_held h in
        let h := append_log_held "Starting pipeline" h in
        release (try_except (run_job_try w job_id) run_job_except h)
  end.

(** What [add_job] draws from outside: [uuid.uuid4().hex[:8]], the clock
    and its label, and the date [_extract_date_from_url] finds. *)
Record Fresh := mkFresh {
  new_id : string;
  now : Z;
  now_label : string;
  found_date : string
}.

Definition add_job (f : Fresh) (w : Services) (s : AppState) : AppState :=
  let u := Py.strip (audio_url s) in
  if negb (Py.truthy u) then s
  else
    let job_id := new_id f in
    let job := mkJob job_id u Queued (now f) (now_label f) (found_date f)
                     "" ("/job/" ++ job_id) "" "" (JStr "") "" [] None in
    let s := mkApp (audio_url s) (job :: jobs s) job_id (jobs_file s) (status_log s) in
    run_job w job_id (_save s).

Definition set_audio_url (v : string) (s : AppState) : AppState :=
  mkApp v (jobs s) (current_job_id s) (jobs_file s) (status_log s).

Definition select_job (job_id : string) (s : AppState) : AppState :=
  mkApp (audio_url s) (jobs s) job_id (jobs_file s) (status_log s).

(** [retry_current] up to its last line: the [j.update({...})] and the
    [_save]. *)
Definition retry_current_reset (s : AppState) : option AppState :=
  let jid := current_job_id s in
  if negb (Py.truthy jid) then None
  else
    match hold s jid with
    | None => None
    | Some h =>
        let h := assign_status Queued h in
        let h := assign (with_error "") h in
        let h := assign (with_logs []) h in
        let h := assign (with_transcript (JStr "")) h in
        let h := assign (with_summary "") h in
        Some (_save (release h))
    end.

Definition retry_current (w : Services) (s : AppState) : AppState :=
  match retry_current_reset s with
  | None => s
  | Some s' => run_job w (current_job_id s) s'
  end.

(** [retry_job] up to its last line; ["summary"] is assigned its own
    value. *)
Definition retry_job_reset (job_id : string) (s : AppState) : option AppState :=
  match hold s job_id with
  | None => None
  | Some h =>
      let h := assign_status Queued h in
      let h := assign (with_error "") h in
      let h := assign (with_logs []) h in
      let h := assign (fun x => with_summary (summary x) x) h in
      Some (_save (release h))
  end.

Definition retry_job (w : Services) (job_id : string) (s : AppState) : AppState :=
  match retry_job_reset job_id s with
  | None => s
  | Some s' => run_job w job_id s'
  end.

(** The body of the [try] of [regenerate_summary_for] and of
    [regenerate_summary]; [tr] is the local [transcript]. *)
Definition regenerate_try (w : Services) (job_id : string) (tr : JSON) : Try unit :=
  (md <- read meeting_date ;;
   summary <- run_stage (svc_summarize w job_id tr md) ;;
   act (assign (with_summary (Py.or_empty summary))) ;;
   (if Py.truthy_opt summary
    then t <- call (svc_title w (Py.or_empty summary)) ;; act (assign (with_title t))
    else ret tt) ;;
   act (assign_status Completed) ;;
   act save_held ;;
   act (append_log_held
          (if Py.truthy_opt summary
           then "Summary regenerated: " ++ chars (String.length (Py.or_empty summary))
           else "Summary regeneration returned empty")))%try.

Definition regenerate_except (e : PyExn) (h : Held) : Held :=
  let h := assign_status Error h in
  let h := save_held h in
  append_log_held ("ERROR: summarize: " ++ exn_msg e) h.

Definition regenerate_summary_for (w : Services) (job_id : string) (s : AppState) : AppState :=
  match hold s job_id with
  | None => s
  | Some h =>
      let tr := transcript (j h) in
      if negb (truthy_in w tr)
      then release (append_log_held ("No transcript available " ++ arrow ++ " cannot summarize") h)
      else
        let h := assign (with_summary "") h in
        let h := assign_status Summarizing h in
        let h := save_held h in
        let h := append_log_held "Regenerating summary ..." h in
        release (try_except (regenerate_try w job_id tr) regenerate_except h)
  end.

Definition regenerate_summary (w : Services) (s : AppState) : AppState :=
  let jid := current_job_id s in
  if negb (Py.truthy jid) then s
  else regenerate_summary_for w jid s.

(** [delete_current]; removing the job's files from [DATA_DIR] acts on the
    file system only and is not modelled. *)
Definition delete_current (s : AppState) : AppState :=
  let jid := current_job_id s in
  if negb (Py.truthy jid) then s
  else
    let js := filter (fun x => negb (String.eqb (id x) jid)) (jobs s) in
    let cur := match js with x :: _ => id x | [] => "" end in
    _save (mkApp (audio_url s) js cur (jobs_file s) (status_log s)).

Definition delete_by_id (job_id : string) (s : AppState) : AppState :=
  delete_current (select_job job_id s).

(** [clear] *)
Definition clear (s : AppState) : AppState :=
  if Py.truthy (current_job_id s)
  then
    match hold s (current_job_id s) with
    | Some h =>
        let h := assign (with_logs []) h in
        let h := assign (with_transcript (JStr "")) h in
        let h := assign (with_summary "") h in
        let h := assign (with_error "") h in
        let h := assign_status Queued h in
        _save (release h)
    | None => _save s
    end
  else _save (mkApp (audio_url s) [] (current_job_id s) (jobs_file s) (status_log s)).

(** The operations a client can invoke, each with what the outside world
    answers while it runs. *)
Inductive Op :=
| SetAudioUrl (v : string)
| AddJob (f : Fresh) (w : Services)
| SelectJob (job_id : string)
| RunJob (job_id : string) (w : Services)
| RetryCurrent (w : Services)
| RetryJob (job_id : string) (w : Services)
| RegenerateSummary (w : Services)
| RegenerateSummaryFor (job_id : string) (w : Services)
| DeleteCurrent
| DeleteById (job_id : string).

Definition exec (o : Op) (s : AppState) : AppState :=
  match o with
  | SetAudioUrl v => set_audio_url v s
  | AddJob f w => add_job f w s
  | SelectJob job_id => select_job job_id s
  | RunJob job_id w => run_job w job_id s
  | RetryCurrent w => retry_current w s
  | RetryJob job_id w => retry_job w job_id s
  | RegenerateSummary w => regenerate_summary w s
  | RegenerateSummaryFor job_id w => regenerate_summary_for w job_id s
  | DeleteCurrent => delete_current s
  | DeleteById job_id => delete_by_id job_id s
  end.

Definition exec_all (ops : list Op) (s : AppState) : AppState :=
  fold_left (fun s' o => exec o s') ops s.

(** The graph of the specification: the pipeline path, a failure out of any
    pipeline state, retry out of [Error] or [Completed], and the
    regeneration of a summary, which enters [Summarizing] from any state. *)
Definition spec_edge (a b : Status) : bool :=
  match a, b with
  | Queued, Running | Running, Downloading | Downloading, Transcribing
  | Transcribing, Summarizing | Summarizing, Completed => true
  | (Running | Downloading | Transcribing | Summarizing), Error => true
  | (Error | Completed), Queued => true
  | _, Summarizing => true
  | _, _ => false
  end.

(** The graph of the code: [spec_edge] restricted to the edges the
    operations take, plus a pipeline start straight from a finished job. *)
Definition code_edge (a b : Status) : bool :=
  match a, b with
  | (Completed | Error), Running => true
  | (Completed | Error), Summarizing => true
  | _, Summarizing => status_eqb a Transcribing
  | _, _ => spec_edge a b
  end.

(** *** Sample data and the predicates of the statements *)

Definition sample_job (job_id : string) (st : Status) : Job :=
  mkJob job_id "https://example.com/a.mp3" st 1700000000 "2023-11-14 22:13:20" ""
        "Weekly sync" ("/job/" ++ job_id) "" "data/files/a.mp3" (JStr "hello there") "A summary"
        ["Starting pipeline"; "Downloading audio ..."] (Some "https://example.com/a.mp3").

Definition sample_state (st : Status) : AppState :=
  let js := [sample_job "0a1b2c3d" Completed; sample_job "deadbeef" st;
             sample_job "cafe0001" Error] in
  mkApp "" js "deadbeef" js [].

(** Services that all succeed. *)
Definition services_ok : Services :=
  mkServices
    (fun _ u => mkStage [] (inr u))
    (fun job_id _ => mkStage ["Downloading audio ..."] (inr ("data/files/" ++ job_id ++ ".mp3")))
    (fun _ _ => mkStage ["Uploading to AssemblyAI ..."] (inr (JStr "hello there")))
    (fun _ _ _ => mkStage ["GPT call complete"] (inr (Some "Topic: budget")))
    (fun _ => inr "budget")
    nonzero_all.

(** Services whose summarizer returns nothing, and services whose
    summarizer raises. *)
Definition services_silent : Services :=
  mkServices (svc_resolve services_ok) (svc_download services_ok) (svc_transcribe services_ok)
    (fun _ _ _ => mkStage ["GPT returned empty content"] (inr None))
    (svc_title services_ok) nonzero_all.

Definition services_broken : Services :=
  mkServices (svc_resolve services_ok) (svc_download services_ok) (svc_transcribe services_ok)
    (fun _ _ _ => mkStage [] (inl (mkExn "RuntimeError" "boom")))
    (svc_title services_ok) nonzero_all.

(** The job [retry_current] leaves behind just before it starts the
    pipeline. *)
Definition reset_full (x : Job) : Job :=
  with_summary "" (with_transcript (JStr "")
                     (with_logs [] (with_error "" (with_status Queued x)))).

(** The job [clear] leaves in place of the selected one. *)
Definition cleared (x : Job) : Job :=
  with_status Queued
    (with_error "" (with_summary "" (with_transcript (JStr "") (with_logs [] x)))).

Definition inputs_of (x : Job) : JSON * option string * string :=
  (transcript x, resolved_url x, file_path x).

Definition is_settled (s : Status) : bool :=
  match s with Completed | Error => true | _ => false end.

Definition edge_ok (g : Status -> Status -> bool) (t : Transition) : Prop :=
  g (t_from t) (t_to t) = true.

Definition all_settled (js : list Job) : Prop :=
  Forall (fun x => is_settled (status x) = true) js.

Definition log_ok (s : AppState) : Prop := Forall (edge_ok code_edge) (status_log s).

(** A client that submits a URL, lets the pipeline finish, and then calls
    [run_job] on the completed job. *)
Definition rerun_ops : list Op :=
  [SetAudioUrl "https://example.com/a.mp3";
   AddJob (mkFresh "0a1b2c3d" 1700000000 "2023-11-14 22:13:20" "") services_ok;
   RunJob "0a1b2c3d" services_ok].


(** *** Assertions on a [try] block

    [hoare P m Q E]: started in a state that satisfies [P], the block [m]
    ends in a state that satisfies [Q a] when it returns [a], and in a state
    that satisfies [E] when it raises. *)
Definition hoare {A} (P : Held -> Prop) (m : Try A) (Q : A -> Held -> Prop)
           (E : Held -> Prop) : Prop :=
  forall h, P h ->
    match m h with
    | (inr a, h') => Q a h'
    | (inl _, h') => E h'
    end.

(** The status the history last recorded under the id [i]. *)
Fixpoint last_to (i : string) (log : list Transition) : option Status :=
  match log with
  | [] => None
  | t :: log' =>
      match last_to i log' with
      | Some s => Some s
      | None => if String.eqb (t_id t) i then Some (t_to t) else None
      end
  end.

(** The history agrees with the store: the status of the job found under
    an id is the one last recorded under that id. *)
Definition tracked (s : AppState) : Prop :=
  forall i x, _get_job (jobs s) i = Some x -> last_to i (status_log s) = Some (status x).

(** Between two operations every job is finished, the history has followed
    the graph of the code, and it agrees with the store. *)
Definition at_rest (s : AppState) : Prop :=
  all_settled (jobs s) /\ log_ok s /\ tracked s.

(** The same for the jobs other than the held one. *)
Definition others_rest (h : Held) : Prop :=
  all_settled (before h ++ after h)
  /\ Forall (edge_ok code_edge) (h_status_log h)
  /\ forall i y, i <> id (j h) -> _get_job (h_jobs h) i = Some y ->
                 last_to i (h_status_log h) = Some (status y).

(** While [j] is held the jobs around it stay as in [h0] and the job keeps
    its id; the history follows the graph of the code; the job has status
    [st], which is the status last recorded under its id; and what is
    recorded under the other ids is as in [h0]. *)
Definition walking (h0 : Held) (st : Status) (h : Held) : Prop :=
  before h = before h0 /\ after h = after h0 /\ id (j h) = id (j h0)
  /\ Forall (edge_ok code_edge) (h_status_log h)
  /\ status (j h) = st
  /\ last_to (id (j h0)) (h_status_log h) = Some st
  /\ forall i, i <> id (j h0) -> last_to i (h_status_log h) = last_to i (h_status_log h0).

(** The same, at some status of the pipeline. *)
Definition failing (h0 : Held) (h : Held) : Prop :=
  exists st, is_active st = true /\ walking h0 st h.

(** The jobs around stay as in [h0] and the held job keeps the transcript,
    resolved URL and file path it has in [h0]. *)
Definition keeping (h0 : Held) (h : Held) : Prop :=
  before h = before h0 /\ after h = after h0 /\ inputs_of (j h) = inputs_of (j h0).

(** ** The downloader ([_guess_ext], [download_audio_file]) *)

Definition _guess_ext (url ctype : string) : string :=
  let url_low := Py.lower url in
  if Py.contains ".mp3" url_low then ".mp3"
  else if Py.contains ".m4a" url_low then ".m4a"
  else if Py.contains ".wav" url_low then ".wav"
  else if Py.contains "mpeg" ctype then ".mp3"
  else if Py.contains "wav" ctype then ".wav"
  else if Py.contains "mp4" ctype || Py.contains "mp4a" ctype || Py.contains "aac" ctype
       then ".m4a"
  else ".bin".

(** [x in (".mp3", ".m4a", ".wav")] *)
Definition is_audio_ext (ext : string) : bool :=
  String.eqb ext ".mp3" || String.eqb ext ".m4a" || String.eqb ext ".wav".

Definition is_digit (c : ascii) : bool :=
  let n := nat_of_ascii c in Nat.leb 48 n && Nat.leb n 57.

(** The digits of a decimal literal; [_] may separate two digits. *)
Fixpoint digits_value (acc : Z) (after_digit : bool) (s : string) : option Z :=
  match s with
  | EmptyString => if after_digit then Some acc else None
  | String c s' =>
      if is_digit c
      then digits_value (10 * acc + Z.of_nat (nat_of_ascii c - 48)) true s'
      else if Ascii.eqb c "_"
           then (if after_digit then digits_value acc false s' else None)
           else None
  end.

(** The white space [int] skips around a literal: the ASCII one, and the
    two spaces above 127. *)
Definition int_space (c : ascii) : bool :=
  let n := nat_of_ascii c in
  (Nat.leb 9 n && Nat.leb n 13) || Nat.eqb n 32 || Nat.eqb n 133 || Nat.eqb n 160.

(** [sys.int_info.default_max_str_digits] *)
Definition max_str_digits : nat := 4300.

(** The digits at the head of a literal, [_] allowed between two of them:
    how many they are, [None] when an underscore is misplaced or there is
    no digit. *)
Fixpoint count_digits (n : nat) (after_digit : bool) (s : string) : option nat :=
  match s with
  | EmptyString => if after_digit then Some n else None
  | String c s' =>
      if is_digit c then count_digits (S n) true s'
      else if Ascii.eqb c "_"
           then (if after_digit then count_digits n false s' else None)
           else (if after_digit then Some n else None)
  end.

(** The conversion gives up on more than [max_str_digits] digits, before
    it looks at what follows them. *)
Definition too_long (d : string) : option nat :=
  match count_digits 0 false d with
  | Some n => if Nat.ltb max_str_digits n then Some n else None
  | None => None
  end.

(** A literal without white space around it and without its sign. *)
Definition int_body (s : string) : string :=
  match Py.strip_by int_space s with
  | String "-" d => d
  | String "+" d => d
  | d => d
  end.

Definition int_digits (d : string) : option Z :=
  match too_long d with
  | Some _ => None
  | None => digits_value 0 false d
  end.

(** [int(s)] for a [str]: [None] stands for [ValueError]. *)
Definition py_int (s : string) : option Z :=
  match Py.strip_by int_space s with
  | String "-" d => option_map Z.opp (int_digits d)
  | String "+" d => int_digits d
  | d => int_digits d
  end.

(** [c.isprintable()] on the range 0..255. *)
Definition printable (c : ascii) : bool :=
  let n := nat_of_ascii c in
  Nat.leb 32 n && negb (Nat.leb 127 n && Nat.leb n 160) && negb (Nat.eqb n 173).

Definition hex_char (n : nat) : ascii :=
  if Nat.ltb n 10 then ascii_of_nat (48 + n) else ascii_of_nat (87 + n).

(** [repr(s)] between its quotes, [q] being the quote chosen. *)
Fixpoint repr_body (q : ascii) (s : string) : string :=
  match s with
  | EmptyString => EmptyString
  | String c r =>
      let n := nat_of_ascii c in
      (if Ascii.eqb c q || Ascii.eqb c "\" then String "\" (String c "")
       else if Ascii.eqb c "009" then "\t"
       else if Ascii.eqb c "010" then "\n"
       else if Ascii.eqb c "013" then "\r"
       else if printable c then String c ""
       else "\x" ++ String (hex_char (n / 16)) (String (hex_char (n mod 16)) ""))
      ++ repr_body q r
  end.

(** [repr(s)] for a [str]: between apostrophes, or between double quotes
    when it holds an apostrophe and no double quote. *)
Definition str_repr (s : string) : string :=
  let q := if Py.contains "'" s && negb (Py.contains (String dq "") s) then dq else "'"%char in
  String q (repr_body q s ++ String q "").

(** The text of that [ValueError]; of the [repr] of a literal that is
    refused it shows 200 characters at most. *)
Definition int_error (s : string) : string :=
  match too_long (int_body s) with
  | Some n =>
      "Exceeds the limit (4300 digits) for integer string conversion: value has "
      ++ Py.str_nat n ++ " digits; use sys.set_int_max_str_digits() to increase the limit"
  | None => "invalid literal for int() with base 10: " ++ Py.take 200 (str_repr s)
  end.

(** [str(n)] for an [int]. *)
Definition str_int (n : Z) : string :=
  match n with
  | Zneg _ => "-" ++ Py.str_nat (Z.abs_nat n)
  | _ => Py.str_nat (Z.abs_nat n)
  end.

(** A response opened with [stream=True].  [http_error] is what
    [raise_for_status] raises, if anything; the two headers are [None] when
    absent; [body] lists the chunks of [iter_content], each with the reading
    of [time.time()] taken right after it was written (clock readings are
    rationals here, seconds since the epoch); [body_error] is what the
    iterator raises once the chunks are exhausted, if anything. *)
Record Streamed := mkStreamed {
  http_error : option PyExn;
  content_length : option string;
  content_type : option string;
  body : list (string * Q);
  body_error : option PyExn
}.

(** [now - last_emit > 0.1] *)
Definition throttle_open (now last_emit : Q) : bool :=
  negb (Qle_bool (Qminus now last_emit) (1 # 10)%Q).

(** The state of the download loop: [bytes_done], [last_emit], the bytes
    written to the file, and the history of the calls of [log]: the values
    of [bytes_done] logged so far and the clock readings at which they were
    logged. *)
Record Loop := mkLoop {
  bytes_done : nat;
  last_emit : Q;
  written : string;
  reported : list nat;
  report_times : list Q
}.

(** One turn of [for chunk in chunk_iter]. *)
Definition download_step (l : Loop) (chunk_at : string * Q) : Loop :=
  let (chunk, now) := chunk_at in
  if negb (Py.truthy chunk) then l
  else
    let done := bytes_done l + String.length chunk in
    if throttle_open now (last_emit l)
    then mkLoop done now (written l ++ chunk) (reported l ++ [done])%list
                (report_times l ++ [now])%list
    else mkLoop done (last_emit l) (written l ++ chunk) (reported l) (report_times l).

Definition download_loop (chunks : list (string * Q)) : Loop :=
  fold_left download_step chunks (mkLoop 0 0%Q "" [] []).

Section Downloader.

(** The text of [f"{pct:.1f}"] for [pct = bytes_done / total * 100], a
    floating-point computation. *)
Variable format_pct : nat -> Z -> string.

Definition progress_line (total : Z) (done : nat) : string :=
  "download: " ++ Py.str_nat done ++ "/"
  ++ (if Z.eqb total 0 then "?" else str_int total)
  ++ " bytes (" ++ (if Z.eqb total 0 then "0.0" else format_pct done total) ++ "%)".

Definition content_type_error (ctype : string) : PyExn :=
  mkExn "RuntimeError" ("URL did not resolve to audio content-type (got '" ++ ctype ++ "')").

(** The test that guards the [raise RuntimeError]. *)
Definition accepts (url : string) (r : Streamed) : bool :=
  let ext := _guess_ext url (Py.or_empty (content_type r)) in
  let ctype := Py.lower (Py.or_empty (content_type r)) in
  Py.contains "audio" ctype || Py.contains "octet-stream" ctype || is_audio_ext ext.

(** What a download leaves behind: the generator's log lines and outcome,
    and the file it wrote, if it got as far as opening one (path and
    content).  Opening and writing the file are taken to succeed. *)
Record Downloaded := mkDownloaded {
  dl_stage : Stage string;
  dl_file : option (string * string)
}.

Definition download_audio_file (get : PyExn + Streamed) (job_id url : string) : Downloaded :=
  let started := ["Downloading audio ..."] in
  match get with
  | inl e => mkDownloaded (mkStage started (inl e)) None
  | inr r =>
      match http_error r with
      | Some e => mkDownloaded (mkStage started (inl e)) None
      | None =>
          match (match content_length r with Some v => py_int v | None => Some 0%Z end) with
          | None =>
              mkDownloaded
                (mkStage started
                   (inl (mkExn "ValueError" (int_error (Py.or_empty (content_length r))))))
                None
          | Some total =>
              let ext := _guess_ext url (Py.or_empty (content_type r)) in
              let path := "data/files/" ++ job_id ++ ext in
              let ctype := Py.lower (Py.or_empty (content_type r)) in
              if negb (Py.contains "audio" ctype || Py.contains "octet-stream" ctype
                       || is_audio_ext ext)
              then mkDownloaded (mkStage started (inl (content_type_error ctype))) None
              else
                let l := download_loop (body r) in
                let lines := (started ++ map (progress_line total) (reported l))%list in
                mkDownloaded
                  (mkStage lines
                     (match body_error r with
                      | Some e => inl e
                      | None => inr path
                      end))
                  (Some (path, written l))
          end
      end
  end.

End Downloader.

(** The reading of the specification: the content type is audio-like or an
    octet stream, or the URL has an audio extension. *)
Definition spec_accepts (url : string) (r : Streamed) : bool :=
  let ctype := Py.lower (Py.or_empty (content_type r)) in
  let url_low := Py.lower url in
  Py.contains "audio" ctype || Py.contains "octet-stream" ctype
  || Py.contains ".mp3" url_low || Py.contains ".m4a" url_low || Py.contains ".wav" url_low.

(** *** Sample data *)

Definition no_pct : nat -> Z -> string := fun _ _ => "?".

(** A video served without an audio extension in its URL. *)
Definition video_response : Streamed :=
  mkStreamed None (Some "5") (Some "video/mp4") [("hello", (1700000000 # 1)%Q)] None.

(** Two chunks written 50 ms apart. *)
Definition quick_response : Streamed :=
  mkStreamed None (Some "5") (Some "audio/mpeg")
    [("abc", (1700000000 # 1)%Q); ("de", (170000000005 # 100)%Q)] None.

(** An HTML page. *)
Definition html_response : Streamed :=
  mkStreamed None None (Some "text/html; charset=utf-8") [("<html>", (1700000000 # 1)%Q)] None.

(** The bytes of a body, chunk after chunk. *)
Definition body_bytes (chunks : list (string * Q)) : string :=
  fold_right (fun c acc => fst c ++ acc) "" chunks.

(** The clock reading of the latest report, [0] (the initial value of
    [last_emit]) when there was none. *)
Definition previous_report (l : Loop) : Q := last (report_times l) 0%Q.

(** No report exceeds [bytes_done], the reports increase, [bytes_done]
    counts the bytes written, every report has its clock reading, and
    [last_emit] is the reading of the latest report. *)
Definition loop_ok (l : Loop) : Prop :=
  StronglySorted lt (reported l)
  /\ Forall (fun b => b <= bytes_done l) (reported l)
  /\ bytes_done l = String.length (written l)
  /\ List.length (report_times l) = List.length (reported l)
  /\ last_emit l = previous_report l.

(** ** Regular expressions ([re])

    The patterns of the code are written as terms of [Re] and matched by
    backtracking, the way [re] does: alternatives left to right, greedy
    repetitions longest first, lazy ones shortest first, the first match
    found at the leftmost start.  Flags are part of the term: under
    [re.IGNORECASE] a letter is the class of its two cases, under
    [re.MULTILINE] [^] is [Bol], and [.] is a class with or without the
    newline. *)

Inductive Re : Type :=
| Eps
| Chr (p : ascii -> bool)
| Seq (a b : Re)
| Alt (a b : Re)
| Star (a : Re)
| LazyStar (a : Re)
| Rep (lo extra : nat) (a : Re)
| Bol
| Eos
| WordB
| Group (n : nat) (a : Re).

(** A position in the subject: the character before it, the text from it
    on, and the groups captured so far (latest first). *)
Record Cur := mkCur { prev : option ascii; rest : string; caps : list (nat * string) }.

Definition shorter (c' c : Cur) : bool :=
  Nat.ltb (String.length (rest c')) (String.length (rest c)).

(** The text between two positions of one subject. *)
Definition between (c c' : Cur) : string :=
  Py.take (String.length (rest c) - String.length (rest c')) (rest c).

(** [\w] on the range 0..255: letters, digits, underscore. *)
Definition is_word (c : ascii) : bool :=
  let n := nat_of_ascii c in
  (Nat.leb 48 n && Nat.leb n 57) || (Nat.leb 65 n && Nat.leb n 90)
  || (Nat.leb 97 n && Nat.leb n 122) || Nat.eqb n 95
  || Nat.eqb n 170 || Nat.eqb n 181 || Nat.eqb n 186
  || Nat.eqb n 178 || Nat.eqb n 179 || Nat.eqb n 185
  || Nat.eqb n 188 || Nat.eqb n 189 || Nat.eqb n 190
  || (Nat.leb 192 n && negb (Nat.eqb n 215) && negb (Nat.eqb n 247)).

Definition word_before (c : Cur) : bool :=
  match prev c with Some x => is_word x | None => false end.

Definition word_after (c : Cur) : bool :=
  match rest c with String x _ => is_word x | EmptyString => false end.

(** [run r c k]: match [r] at [c], then go on with [k]; [None] when every
    way of matching [r] makes [k] fail.  An iteration of a repetition that
    consumes nothing ends the repetition. *)
Fixpoint run {R : Type} (r : Re) (c : Cur) (k : Cur -> option R) {struct r} : option R :=
  match r with
  | Eps => k c
  | Chr p =>
      match rest c with
      | String x s' => if p x then k (mkCur (Some x) s' (caps c)) else None
      | EmptyString => None
      end
  | Seq a b => run a c (fun c' => run b c' k)
  | Alt a b =>
      match run a c k with
      | Some x => Some x
      | None => run b c k
      end
  | Star a =>
      (fix loop (n : nat) (c : Cur) {struct n} : option R :=
         match n with
         | O => k c
         | S n' =>
             match run a c (fun c' => if shorter c' c then loop n' c' else None) with
             | Some x => Some x
             | None => k c
             end
         end) (S (String.length (rest c))) c
  | LazyStar a =>
      (fix loop (n : nat) (c : Cur) {struct n} : option R :=
         match n with
         | O => k c
         | S n' =>
             match k c with
             | Some x => Some x
             | None => run a c (fun c' => if shorter c' c then loop n' c' else None)
             end
         end) (S (String.length (rest c))) c
  | Rep lo extra a =>
      (fix need (n : nat) (c : Cur) {struct n} : option R :=
         match n with
         | S n' => run a c (fun c' => need n' c')
         | O =>
             (fix more (m : nat) (c : Cur) {struct m} : option R :=
                match m with
                | O => k c
                | S m' =>
                    match run a c (fun c' => more m' c') with
                    | Some x => Some x
                    | None => k c
                    end
                end) extra c
         end) lo c
  | Bol =>
      match prev c with
      | None => k c
      | Some x => if Ascii.eqb x "010" then k c else None
      end
  | Eos =>
      match rest c with
      | EmptyString => k c
      | String x EmptyString => if Ascii.eqb x "010" then k c else None
      | _ => None
      end
  | WordB => if xorb (word_before c) (word_after c) then k c else None
  | Group n a => run a c (fun c' => k (mkCur (prev c') (rest c') ((n, between c c') :: caps c')))
  end.

(** A match: where it starts, where it ends (with the groups). *)
Record Match := mkMatch { m_start : Cur; m_end : Cur }.

Definition match_at (r : Re) (p : option ascii) (s : string) : option Match :=
  let c := mkCur p s [] in
  run r c (fun c' => Some (mkMatch c c')).

(** [m.group(0)] *)
Definition group0 (m : Match) : string := between (m_start m) (m_end m).

(** [m.group(n)] for a group that took part in the match. *)
Fixpoint lookup_group (n : nat) (l : list (nat * string)) : option string :=
  match l with
  | [] => None
  | (i, g) :: l' => if Nat.eqb i n then Some g else lookup_group n l'
  end.

Definition group (n : nat) (m : Match) : string :=
  match lookup_group n (caps (m_end m)) with Some g => g | None => "" end.

(** [re.search]: the scan over the start positions. *)
Fixpoint search_from (r : Re) (p : option ascii) (s : string) : option Match :=
  match match_at r p s with
  | Some m => Some m
  | None =>
      match s with
      | EmptyString => None
      | String x s' => search_from r (Some x) s'
      end
  end.

Definition re_search (r : Re) (s : string) : option Match := search_from r None s.

(** [re.match] *)
Definition re_match (r : Re) (s : string) : option Match := match_at r None s.

(** [re.findall], as the list of matches, for a pattern that never matches
    the empty string. *)
Fixpoint findall_from (fuel : nat) (r : Re) (p : option ascii) (s : string) : list Match :=
  match fuel with
  | O => []
  | S fuel' =>
      match search_from r p s with
      | None => []
      | Some m =>
          if Nat.ltb (String.length (rest (m_end m))) (String.length (rest (m_start m)))
          then m :: findall_from fuel' r (prev (m_end m)) (rest (m_end m))
          else []
      end
  end.

Definition re_findall (r : Re) (s : string) : list Match :=
  findall_from (S (String.length s)) r None s.

(** [re.sub(r, '', s)] for a pattern that never matches the empty string. *)
Fixpoint delete_from (fuel : nat) (r : Re) (p : option ascii) (s : string) : string :=
  match fuel with
  | O => s
  | S fuel' =>
      match match_at r p s with
      | Some m =>
          if Nat.ltb (String.length (rest (m_end m))) (String.length s)
          then delete_from fuel' r (prev (m_end m)) (rest (m_end m))
          else match s with
               | EmptyString => EmptyString
               | String x s' => String x (delete_from fuel' r (Some x) s')
               end
      | None =>
          match s with
          | EmptyString => EmptyString
          | String x s' => String x (delete_from fuel' r (Some x) s')
          end
      end
  end.

Definition re_delete (r : Re) (s : string) : string :=
  delete_from (S (String.length s)) r None s.

(** *** Building patterns *)

Definition one (c : ascii) : Re := Chr (Ascii.eqb c).

(** A character under [re.IGNORECASE]. *)
Definition one_ci (c : ascii) : Re :=
  Chr (fun x => Ascii.eqb (Py.lower_char x) (Py.lower_char c)).

Fixpoint lit (s : string) : Re :=
  match s with
  | EmptyString => Eps
  | String c EmptyString => one c
  | String c s' => Seq (one c) (lit s')
  end.

Fixpoint lit_ci (s : string) : Re :=
  match s with
  | EmptyString => Eps
  | String c EmptyString => one_ci c
  | String c s' => Seq (one_ci c) (lit_ci s')
  end.

Definition Plus (a : Re) : Re := Seq a (Star a).
Definition Opt (a : Re) : Re := Rep 0 1 a.

Fixpoint alts (l : list Re) : Re :=
  match l with
  | [] => Chr (fun _ => false)
  | [a] => a
  | a :: l' => Alt a (alts l')
  end.

Fixpoint seqs (l : list Re) : Re :=
  match l with
  | [] => Eps
  | [a] => a
  | a :: l' => Seq a (seqs l')
  end.

(** [[...]] and [[^...]] over listed characters. *)
Definition any_of (s : string) : ascii -> bool :=
  fun x => existsb (Ascii.eqb x) (list_ascii_of_string s).

Definition none_of (s : string) : ascii -> bool := fun x => negb (any_of s x).

Definition is_letter (c : ascii) : bool :=
  let n := nat_of_ascii c in
  (Nat.leb 65 n && Nat.leb n 90) || (Nat.leb 97 n && Nat.leb n 122).

Definition nl : string := String "010" EmptyString.

(** ** The title of a summary ([extract_title_from_summary]) *)

(** [r'^#+\s*'] under [re.MULTILINE] *)
Definition pat_header : Re := seqs [Bol; Plus (one "#"); Star (Chr Py.isspace)].

(** [r"(?:Topic|Subject|Meeting about|Discussion about|Overview)[:\s]*([^\n.]+)"]
    under [re.IGNORECASE | re.MULTILINE] *)
Definition pat_topic : Re :=
  seqs [alts [lit_ci "Topic"; lit_ci "Subject"; lit_ci "Meeting about";
              lit_ci "Discussion about"; lit_ci "Overview"];
        Star (Chr (fun x => Ascii.eqb x ":" || Py.isspace x));
        Group 1 (Plus (Chr (none_of (nl ++ "."))))].

(** [r"^([A-Z][^.!?\n]{10,50})"] under [re.IGNORECASE | re.MULTILINE] *)
Definition pat_sentence : Re :=
  seqs [Bol; Group 1 (Seq (Chr is_letter) (Rep 10 40 (Chr (none_of (".!?" ++ nl)))))].

(** [r'[*_#]'] *)
Definition pat_markup : Re := Chr (any_of "*_#").

(** [if len(title) > 50: title = title[:47] + "..."] *)
Definition limit (title : string) : string :=
  if Nat.ltb 50 (String.length title) then Py.take 47 title ++ "..." else title.

(** [for pattern in patterns: ...] *)
Fixpoint title_by_pattern (patterns : list Re) (summary : string) : option string :=
  match patterns with
  | [] => None
  | pattern :: more =>
      match re_search pattern summary with
      | Some m => Some (limit (re_delete pat_markup (Py.strip (group 1 m))))
      | None => title_by_pattern more summary
      end
  end.

(** [for line in lines[:5]: ...] *)
Fixpoint title_by_line (lines : list string) : option string :=
  match lines with
  | [] => None
  | line :: more =>
      let line := Py.strip line in
      if Py.truthy line && Nat.ltb 10 (String.length line)
      then Some (limit (re_delete pat_markup line))
      else title_by_line more
  end.

Definition default_title : string := "Meeting Summary".

Definition extract_title_from_summary (summary : string) : string :=
  if negb (Py.truthy summary) then ""
  else
    let summary := re_delete pat_header summary in
    match title_by_pattern [pat_topic; pat_sentence] summary with
    | Some title => title
    | None =>
        match title_by_line (firstn 5 (Py.split "010" summary)) with
        | Some title => title
        | None => default_title
        end
    end.


(** A line of the summary is long enough to serve as title. *)
Definition line_qualifies (line : string) : bool :=
  Nat.ltb 10 (String.length (Py.strip line)).

(** ** [json.loads] *)

Definition json_ws (c : ascii) : bool := any_of (" " ++ String "009" (String "010" (String "013" ""))) c.

Fixpoint skip_ws (s : string) : string :=
  match s with
  | String c s' => if json_ws c then skip_ws s' else s
  | EmptyString => EmptyString
  end.

Definition hex_digit (c : ascii) : option nat :=
  let n := nat_of_ascii c in
  if Nat.leb 48 n && Nat.leb n 57 then Some (n - 48)
  else if Nat.leb 65 n && Nat.leb n 70 then Some (n - 55)
  else if Nat.leb 97 n && Nat.leb n 102 then Some (n - 87)
  else None.

(** The four hexadecimal digits of an escape, as a code point. *)
Definition hex4 (a b c d : ascii) : option N :=
  match hex_digit a, hex_digit b, hex_digit c, hex_digit d with
  | Some w, Some x, Some y, Some z =>
      Some (4096 * N.of_nat w + 256 * N.of_nat x + 16 * N.of_nat y + N.of_nat z)%N
  | _, _, _, _ => None
  end.

(** The spelling of the character with code point [u]: the character
    itself up to 255, its UTF-8 bytes beyond (those of a lone surrogate
    included). *)
Definition spell (u : N) : string :=
  let byte (n : N) : string := String (ascii_of_N n) "" in
  if (u <? 256)%N then byte u
  else if (u <? 2048)%N then byte (192 + u / 64)%N ++ byte (128 + u mod 64)%N
  else if (u <? 65536)%N
       then byte (224 + u / 4096)%N ++ byte (128 + (u / 64) mod 64)%N
            ++ byte (128 + u mod 64)%N
  else byte (240 + u / 262144)%N ++ byte (128 + (u / 4096) mod 64)%N
       ++ byte (128 + (u / 64) mod 64)%N ++ byte (128 + u mod 64)%N.

Definition is_high_surrogate (u : N) : bool := ((55296 <=? u) && (u <=? 56319))%N.

Definition is_low_surrogate (u : N) : bool := ((56320 <=? u) && (u <=? 57343))%N.

(** The body of a string literal, after the opening quote: the text and
    what follows the closing quote.  Control characters are refused, as
    [json.loads] does.  An escape [u] with four hexadecimal digits denotes
    a code point; a high surrogate followed by the escape of a low one
    denotes, with it, one character beyond FFFF. *)
Fixpoint scan_string (fuel : nat) (s : string) (acc : string) : option (string * string) :=
  match fuel with
  | O => None
  | S fuel' =>
      match s with
      | EmptyString => None
      | String "034" r => Some (acc, r)
      | String "\" (String e r) =>
          let esc (c : ascii) := scan_string fuel' r (acc ++ String c "") in
          if Ascii.eqb e "034" then esc "034"%char
          else if Ascii.eqb e "\" then esc "\"%char
          else if Ascii.eqb e "/" then esc "/"%char
          else if Ascii.eqb e "b" then esc "008"%char
          else if Ascii.eqb e "f" then esc "012"%char
          else if Ascii.eqb e "n" then esc "010"%char
          else if Ascii.eqb e "r" then esc "013"%char
          else if Ascii.eqb e "t" then esc "009"%char
          else if Ascii.eqb e "u" then
            match r with
            | String a (String b (String c (String d r')) ) =>
                match hex4 a b c d with
                | Some u =>
                    let alone := scan_string fuel' r' (acc ++ spell u) in
                    if is_high_surrogate u then
                      match r' with
                      | String "\" (String "u"
                          (String a2 (String b2 (String c2 (String d2 (String x r2)))))) =>
                          match hex4 a2 b2 c2 d2 with
                          | Some u2 =>
                              if is_low_surrogate u2
                              then scan_string fuel' (String x r2)
                                     (acc ++ spell (65536 + (u - 55296) * 1024 + (u2 - 56320))%N)
                              else alone
                          | None => None
                          end
                      | _ => alone
                      end
                    else alone
                | None => None
                end
            | _ => None
            end
          else None
      | String "\" EmptyString => None
      | String c r =>
          if Nat.ltb (nat_of_ascii c) 32 then None
          else scan_string fuel' r (acc ++ String c "")
      end
  end.

Fixpoint take_digits (s : string) : string * string :=
  match s with
  | String c r =>
      if is_digit c then let (d, r') := take_digits r in (String c d, r') else (EmptyString, s)
  | EmptyString => (EmptyString, EmptyString)
  end.

(** The integer part of a number: [0] or a digit string without leading
    zero. *)
Definition scan_int_part (s : string) : option (string * string) :=
  match s with
  | String "0" r => Some ("0", r)
  | String c r => if is_digit c then Some (take_digits s) else None
  | EmptyString => None
  end.

Definition scan_frac (s : string) : string * string :=
  match s with
  | String "." r =>
      match take_digits r with
      | (EmptyString, _) => (EmptyString, s)
      | (d, r') => ("." ++ d, r')
      end
  | _ => (EmptyString, s)
  end.

Definition scan_exp (s : string) : string * string :=
  match s with
  | String e r =>
      if Ascii.eqb e "e" || Ascii.eqb e "E" then
        let (sign, r1) :=
          match r with
          | String "+" r1 => ("+", r1)
          | String "-" r1 => ("-", r1)
          | _ => ("", r)
          end in
        match take_digits r1 with
        | (EmptyString, _) => (EmptyString, s)
        | (d, r') => (String e (sign ++ d), r')
        end
      else (EmptyString, s)
  | EmptyString => (EmptyString, s)
  end.

Definition scan_number (s : string) : option (JSON * string) :=
  let (neg, s1) := match s with String "-" r => (true, r) | _ => (false, s) end in
  match scan_int_part s1 with
  | None => None
  | Some (ip, r) =>
      let (fp, r1) := scan_frac r in
      let (ep, r2) := scan_exp r1 in
      match fp, ep with
      | EmptyString, EmptyString =>
          (* [int(ip)], which refuses more than 4300 digits *)
          if Nat.ltb max_str_digits (String.length ip) then None
          else
            match digits_value 0 false ip with
            | Some n => Some (JInt (if neg then Z.opp n else n), r2)
            | None => None
            end
      | _, _ => Some (JFloat ((if neg then "-" else "") ++ ip ++ fp ++ ep), r2)
      end
  end.

(** [s] starts with [w]: what follows [w]. *)
Definition after_word (w s : string) : option string :=
  if String.prefix w s then Some (Py.drop (String.length w) s) else None.

Definition scan_atom (s : string) : option (JSON * string) :=
  match after_word "null" s with Some r => Some (JNull, r) | None =>
  match after_word "true" s with Some r => Some (JBool true, r) | None =>
  match after_word "false" s with Some r => Some (JBool false, r) | None =>
  match scan_number s with Some x => Some x | None =>
  match after_word "NaN" s with Some r => Some (JFloat "NaN", r) | None =>
  match after_word "Infinity" s with Some r => Some (JFloat "Infinity", r) | None =>
  match after_word "-Infinity" s with Some r => Some (JFloat "-Infinity", r) | None =>
  None end end end end end end end.

(** One value at the head of [s] (no leading white space), and the rest. *)
Fixpoint scan_value (fuel : nat) (s : string) : option (JSON * string) :=
  match fuel with
  | O => None
  | S fuel' =>
      match s with
      | String "034" r =>
          match scan_string (S (String.length r)) r "" with
          | Some (t, r') => Some (JStr t, r')
          | None => None
          end
      | String "{" r =>
          match skip_ws r with
          | String "}" r' => Some (JDict [], r')
          | r1 => scan_members fuel' r1 []
          end
      | String "[" r =>
          match skip_ws r with
          | String "]" r' => Some (JList [], r')
          | r1 => scan_elements fuel' r1 []
          end
      | _ => scan_atom s
      end
  end

with scan_elements (fuel : nat) (s : string) (acc : list JSON) : option (JSON * string) :=
  match fuel with
  | O => None
  | S fuel' =>
      match scan_value fuel' s with
      | None => None
      | Some (v, r) =>
          match skip_ws r with
          | String "," r' => scan_elements fuel' (skip_ws r') (acc ++ [v])%list
          | String "]" r' => Some (JList (acc ++ [v])%list, r')
          | _ => None
          end
      end
  end

with scan_members (fuel : nat) (s : string) (acc : list (string * JSON)) : option (JSON * string) :=
  match fuel with
  | O => None
  | S fuel' =>
      match s with
      | String "034" r =>
          match scan_string (S (String.length r)) r "" with
          | None => None
          | Some (key, r1) =>
              match skip_ws r1 with
              | String ":" r2 =>
                  match scan_value fuel' (skip_ws r2) with
                  | None => None
                  | Some (v, r3) =>
                      match skip_ws r3 with
                      | String "," r4 => scan_members fuel' (skip_ws r4) (dict_set acc key v)
                      | String "}" r4 => Some (JDict (dict_set acc key v), r4)
                      | _ => None
                      end
                  end
              | _ => None
              end
          end
      | _ => None
      end
  end.

(** [json.loads(s)]; [None] stands for the exception it raises. *)
Definition json_loads (s : string) : option JSON :=
  let s' := skip_ws s in
  match scan_value (S (String.length s')) s' with
  | Some (v, r) => match skip_ws r with EmptyString => Some v | _ => None end
  | None => None
  end.

(** ** The summarizer ([summarize_with_gpt]) *)

Section Summarizer.

(** Two facts about Python values that the model leaves open: whether the
    [float] of a literal is non-zero, and the text [str] gives for a
    [float], a [list] or a [dict]. *)
Variable float_nonzero : string -> bool.
Variable py_repr : JSON -> string.

(** [str(v)] *)
Definition py_str (v : JSON) : string :=
  match v with
  | JStr s => s
  | JNull => "None"
  | JBool true => "True"
  | JBool false => "False"
  | JInt n => str_int n
  | _ => py_repr v
  end.

(** [if v.get(key)] *)
Definition has (v : JSON) (key : string) : bool :=
  match get v key with Some x => json_truthy float_nonzero x | None => false end.

(** [str(v.get(key, empty))], [empty] the empty string *)
Definition text_of (v : JSON) (key : string) : string :=
  match get v key with Some x => py_str x | None => "" end.

(** [v.get(key) == s] *)
Definition key_is (v : JSON) (key s : string) : bool :=
  match get v key with Some (JStr x) => String.eqb x s | _ => false end.

Definition is_dict (v : JSON) : bool :=
  match v with JDict _ => true | _ => false end.

(** [for item in out: if isinstance(item, dict) and item.get("type") ==
    "output_text": content += str(item.get("text", ...))] *)
Definition append_items (content : string) (out : list JSON) : string :=
  fold_left
    (fun acc item =>
       if is_dict item && key_is item "type" "output_text"
       then acc ++ text_of item "text" else acc)
    out content.

(** [for c in cont: ...] of the message deltas. *)
Definition append_parts (content : string) (cont : list JSON) : string :=
  fold_left
    (fun acc c =>
       if is_dict c && (key_is c "type" "output_text" || key_is c "type" "text")
       then acc ++ text_of c "text" else acc)
    cont content.

(** The first block of the loop body: [Some] the new content when one of
    its [continue]s is reached. *)
Definition snapshot_shapes (content : string) (obj : JSON) : option string :=
  if is_dict obj then
    if has obj "output_text" then Some (Py.strip (text_of obj "output_text"))
    else
      match get obj "response" with
      | Some (JDict r) =>
          let resp := JDict r in
          if has resp "output_text" then Some (Py.strip (text_of resp "output_text"))
          else
            match get resp "output" with
            | Some (JList out) => Some (append_items content out)
            | _ => None
            end
      | _ => None
      end
  else None.

(** The message-delta block: [Some] when its [continue] is reached. *)
Definition message_shape (content : string) (obj : JSON) : option string :=
  if key_is obj "type" "message.delta" || key_is obj "type" "response.message.delta" then
    match get obj "delta" with
    | Some (JDict d) =>
        match dict_get d "content" with
        | Some (JList cont) => Some (append_parts content cont)
        | _ => None
        end
    | _ => None
    end
  else None.

(** The body of the loop for one decoded payload: the new [content]. *)
Definition on_event (content : string) (obj : JSON) : string :=
  match snapshot_shapes content obj with
  | Some c => c
  | None =>
      if key_is obj "type" "output_text.delta" then content ++ text_of obj "delta"
      else if key_is obj "type" "response.output_text.delta" then content ++ text_of obj "delta"
      else
        match message_shape content obj with
        | Some c => c
        | None =>
            match get obj "output" with
            | Some (JList out) => append_items content out
            | _ => content
            end
        end
  end.

(** A streamed answer of the endpoint: the status code, the lines of
    [iter_lines] (decoded), and what the iterator raises after them, if
    anything. *)
Record Sse := mkSse {
  status_code : nat;
  sse_lines : list string;
  sse_error : option PyExn
}.

(** [for raw_line in r.iter_lines(...)]: the content at the end of the
    loop, or the exception that ends it. *)
Fixpoint sse_loop (lines : list string) (err : option PyExn) (content : string)
  : PyExn + string :=
  match lines with
  | [] => match err with Some e => inl e | None => inr content end
  | raw_line :: rest =>
      if negb (Py.truthy raw_line) then sse_loop rest err content
      else
        let line := Py.strip raw_line in
        if Py.startswith "data:" line then
          let payload := Py.strip (Py.drop 5 line) in
          if String.eqb payload "[DONE]" then inr content
          else
            match json_loads payload with
            | None => sse_loop rest err content
            | Some obj => sse_loop rest err (on_event content obj)
            end
        else sse_loop rest err content
  end.

(** [summarize_with_gpt]: [configured] says whether [OPENAI_API_KEY] and
    [OPENAI_BASE_URL] are set, [post] is what [requests.post] returns or
    raises.  [text] is declared a text; the transcript [run_job] passes may
    be another value, and then the concatenation that builds the request
    raises, ahead of the [try] and of the first log line.  The request
    (prompt, meeting date, transcript) is sent and has no other effect. *)
Definition summarize_with_gpt (configured : bool) (post : PyExn + Sse)
           (job_id : string) (text : JSON) (meeting_date : string) : Stage (option string) :=
  if negb configured
  then mkStage ["OPENAI_* not set " ++ arrow ++ " skipping summarization"] (inr None)
  else
    match text with
    | JStr _ =>
        let started := "Calling GPT endpoint (Responses API, stream) ..." in
        let failed (e : PyExn) :=
          mkStage [started; "GPT error: " ++ exn_msg e ++ "; skipping"] (inr None) in
        match post with
        | inl e => failed e
        | inr r =>
            if Nat.leb 400 (status_code r)
            then mkStage [started;
                          "GPT endpoint HTTP " ++ Py.str_nat (status_code r) ++ "; skipping"]
                         (inr None)
            else
              match sse_loop (sse_lines r) (sse_error r) "" with
              | inl e => failed e
              | inr content =>
                  let content := Py.strip content in
                  if negb (Py.truthy content)
                  then mkStage [started; "GPT returned empty content"] (inr None)
                  else mkStage [started; "GPT call complete"] (inr (Some content))
              end
        end
    | _ => mkStage [] (inl (concat_error text))
    end.


End Summarizer.

(** *** Sample data *)

Definition no_repr : JSON -> string := fun _ => "?".

Definition hello_lines : list string :=
  [dquoted "data: {'type':'response.output_text.delta','delta':'Hello '}";
   dquoted "data: {'type':'response.output_text.delta','delta':'world'}";
   "data: [DONE]"].

(** A delta event that also carries a full snapshot. *)
Definition delta_with_snapshot : JSON :=
  JDict [("type", JStr "response.output_text.delta"); ("delta", JStr "world");
         ("output_text", JStr "Bye")].

Definition snapshot_lines : list string :=
  [dquoted "data: {'type':'response.output_text.delta','delta':'Hello '}";
   dquoted "data: {'type':'response.output_text.delta','delta':'world','output_text':'Bye'}";
   "data: [DONE]"].

(** ** The link resolver ([resolve_plaud_audio_url], [_walk_strings]) *)

(** [s.replace(old, new)] for a non-empty [old]. *)
Fixpoint replace_fuel (fuel : nat) (old new s : string) : string :=
  match fuel with
  | O => s
  | S fuel' =>
      if String.prefix old s
      then new ++ replace_fuel fuel' old new (Py.drop (String.length old) s)
      else match s with
           | EmptyString => EmptyString
           | String c s' => String c (replace_fuel fuel' old new s')
           end
  end.

Definition replace (old new s : string) : string :=
  replace_fuel (S (String.length s)) old new s.

(** [s.replace(old, "/")] where [old] is the six characters of the escape
    of a slash: a backslash, [u], [002F]. *)
Definition unescape_slashes (s : string) : string := replace "\u002F" "/" s.

(** [_walk_strings]: the string leaves of a value, in order. *)
Fixpoint _walk_strings (obj : JSON) : list string :=
  match obj with
  | JStr s => [s]
  | JDict kv =>
      (fix values (l : list (string * JSON)) : list string :=
         match l with
         | [] => []
         | (_, v) :: l' => (_walk_strings v ++ values l')%list
         end) kv
  | JList l =>
      (fix items (l : list JSON) : list string :=
         match l with
         | [] => []
         | v :: l' => (_walk_strings v ++ items l')%list
         end) l
  | _ => []
  end.

Definition is_alnum (c : ascii) : bool := is_digit c || is_letter c.

Definition apos : ascii := "'"%char.

(** The class of the characters that are no quote, no apostrophe and no
    white space. *)
Definition url_char (c : ascii) : bool :=
  negb (Ascii.eqb c dq || Ascii.eqb c apos || Py.isspace c).

(** [r"/share/([0-9a-zA-Z]+)"] *)
Definition pat_token : Re := seqs [lit "/share/"; Group 1 (Plus (Chr is_alnum))].

(** ["https?://[^\x22'\s]+\.(?:mp3|m4a|wav)(?:\?[^\x22'\s]*)?"], with [\x22]
    for the double quote *)
Definition pat_api_text : Re :=
  seqs [lit "http"; Opt (one "s"); lit "://"; Plus (Chr url_char); one ".";
        alts [lit "mp3"; lit "m4a"; lit "wav"];
        Opt (Seq (one "?") (Star (Chr url_char)))].

(** ["https?://[^'\x22\s]+\.(?:mp3|m4a|wav)\b"] under [re.I] *)
Definition pat_html_link : Re :=
  seqs [lit_ci "http"; Opt (one_ci "s"); lit "://"; Plus (Chr url_char); one ".";
        alts [lit_ci "mp3"; lit_ci "m4a"; lit_ci "wav"]; WordB].

(** ["<script[^>]*id=\x22__NEXT_DATA__\x22[^>]*>(.*?)</script>"] under
    [re.I | re.S] *)
Definition pat_next_data : Re :=
  seqs [lit_ci "<script"; Star (Chr (none_of ">"));
        lit_ci "id="; one dq; lit_ci "__NEXT_DATA__"; one dq;
        Star (Chr (none_of ">")); one ">";
        Group 1 (LazyStar (Chr (fun _ => true)));
        lit_ci "</script>"].

(** [r"https?://.*\.(mp3|m4a|wav)(\?.*)?$"] under [re.I] *)
Definition pat_audio_url : Re :=
  seqs [lit_ci "http"; Opt (one_ci "s"); lit "://"; Star (Chr (none_of nl)); one ".";
        Group 1 (alts [lit_ci "mp3"; lit_ci "m4a"; lit_ci "wav"]);
        Opt (Group 2 (Seq (one "?") (Star (Chr (none_of nl)))));
        Eos].

(** ["\x22(audioUrl|audio_url|url|source|src)\x22\s*:\s*\x22(https?://[^\x22]+)\x22"]
    under [re.I] *)
Definition pat_json_key : Re :=
  seqs [one dq;
        Group 1 (alts [lit_ci "audioUrl"; lit_ci "audio_url"; lit_ci "url";
                       lit_ci "source"; lit_ci "src"]);
        one dq; Star (Chr Py.isspace); one ":"; Star (Chr Py.isspace); one dq;
        Group 2 (seqs [lit_ci "http"; Opt (one_ci "s"); lit "://";
                       Plus (Chr (fun c => negb (Ascii.eqb c dq)))]);
        one dq].

(** A response read through [.text] and [.json()]: what [raise_for_status]
    raises, if anything; the content-type header; the body; and what
    [.json()] raises when the body is not JSON. *)
Record Page := mkPage {
  page_http_error : option PyExn;
  page_content_type : option string;
  page_text : string;
  page_json_error : PyExn
}.

(** [r.json()] *)
Definition page_json (r : Page) : PyExn + JSON :=
  match json_loads (page_text r) with
  | Some v => inr v
  | None => inl (page_json_error r)
  end.

(** What one strategy leaves: the lines it logged and the URL it found, if
    any. *)
Record Attempt := mkAttempt { att_lines : list string; att_found : option string }.

Section Resolver.

Variable float_nonzero : string -> bool.

(** [html.unescape] *)
Variable html_unescape : string -> string.

(** [requests.get(u, ...)]: the response, or the exception raised. *)
Variable net : string -> PyExn + Page.

(** [r = requests.get(u, ...); r.raise_for_status()] *)
Definition fetch (u : string) : PyExn + Page :=
  match net u with
  | inl e => inl e
  | inr r => match page_http_error r with Some e => inl e | None => inr r end
  end.

(** [for key in keys: val = raw.get(key); if isinstance(val, str) and
    val.startswith("http"): return val] *)
Fixpoint first_http (raw : JSON) (keys : list string) : option string :=
  match keys with
  | [] => None
  | key :: more =>
      match get raw key with
      | Some (JStr val) => if Py.startswith "http" val then Some val else first_http raw more
      | _ => first_http raw more
      end
  end.

(** The primary API: the body of the first [try] and its [except]. *)
Definition temp_api (token : string) : Attempt :=
  let failed (e : PyExn) := mkAttempt ["Plaud temp API failed: " ++ exn_msg e] None in
  match fetch ("https://api.plaud.ai/file/share-file-temp/" ++ token) with
  | inl e => failed e
  | inr r =>
      let is_json := Py.startswith "application/json" (Py.or_empty (page_content_type r)) in
      match (if is_json then page_json r else inr JNull) with
      | inl e => failed e
      | inr data =>
          (* raw = data or r.text *)
          match (if json_truthy float_nonzero data then data else JStr (page_text r)) with
          | JDict kv =>
              match first_http (JDict kv) ["temp_url"; "url"; "fileUrl"; "audioUrl"; "downloadUrl"] with
              | Some val =>
                  mkAttempt ["Plaud API resolved (temp) " ++ arrow ++ " " ++ val] (Some val)
              | None => mkAttempt [] None
              end
          | _ =>
              match re_search pat_api_text (page_text r) with
              | Some m2 =>
                  let val := group0 m2 in
                  mkAttempt ["Plaud API resolved (regex) " ++ arrow ++ " " ++ val] (Some val)
              | None => mkAttempt [] None
              end
          end
      end
  end.

(** [for key in ("fileUrl","audioUrl","url"): if isinstance(d, dict) and
    d.get(key): cand = d[key]; break] *)
Fixpoint first_truthy (d : JSON) (keys : list string) : option JSON :=
  match keys with
  | [] => None
  | key :: more =>
      if is_dict d && has float_nonzero d key then get d key else first_truthy d more
  end.

(** The secondary API: the body of the second [try] and its [except]. *)
Definition content_api (token : string) : Attempt :=
  let failed (e : PyExn) := mkAttempt ["Plaud content API failed: " ++ exn_msg e] None in
  match fetch ("https://api.plaud.ai/file/share-content/" ++ token) with
  | inl e => failed e
  | inr r =>
      match page_json r with
      | inl e => failed e
      | inr data =>
          let cand :=
            if is_dict data then
              let d := match get data "data" with Some x => x | None => data end in
              first_truthy d ["fileUrl"; "audioUrl"; "url"]
            else None in
          match cand with
          | Some (JStr c) => mkAttempt ["Plaud content API resolved " ++ arrow ++ " " ++ c] (Some c)
          | Some v =>
              (* "..." + cand raises TypeError *)
              failed (mkExn "TypeError"
                        (dquoted "can only concatenate str (not '" ++ type_name v
                         ++ dquoted "') to str"))
          | None => mkAttempt [] None
          end
      end
  end.

(** [for s in _walk_strings(data): ...] *)
Fixpoint first_audio_leaf (leaves : list string) : option string :=
  match leaves with
  | [] => None
  | s :: more =>
      let s_dec := unescape_slashes s in
      match re_match pat_audio_url s_dec with
      | Some _ => Some s_dec
      | None => first_audio_leaf more
      end
  end.

(** [for _, candidate in m2: ...] *)
Fixpoint first_audio_value (found : list Match) : option string :=
  match found with
  | [] => None
  | m :: more =>
      let cand := unescape_slashes (group 2 m) in
      if Py.endswith ".mp3" (Py.lower cand) || Py.endswith ".m4a" (Py.lower cand)
         || Py.endswith ".wav" (Py.lower cand)
      then Some cand
      else first_audio_value more
  end.

(** The share page: the body of the last [try], up to the place where it
    gives up; [inl] when the [except] is reached. *)
Definition share_page (url : string) : PyExn + Attempt :=
  match fetch url with
  | inl e => inl e
  | inr r =>
      let html := page_text r in
      match re_findall pat_html_link html with
      | m :: _ =>
          let resolved := group0 m in
          inr (mkAttempt ["Plaud resolved (html) " ++ arrow ++ " " ++ resolved] (Some resolved))
      | [] =>
          let next :=
            match re_search pat_next_data html with
            | Some m =>
                match json_loads (html_unescape (group 1 m)) with
                | Some data => first_audio_leaf (_walk_strings data)
                | None => None
                end
            | None => None
            end in
          match next with
          | Some s_dec =>
              inr (mkAttempt ["Plaud resolved (next) " ++ arrow ++ " " ++ s_dec] (Some s_dec))
          | None =>
              match first_audio_value (re_findall pat_json_key html) with
              | Some cand =>
                  inr (mkAttempt ["Plaud resolved (json) " ++ arrow ++ " " ++ cand] (Some cand))
              | None => inr (mkAttempt [] None)
              end
          end
      end
  end.

(** The share token of the URL, if it has one. *)
Definition share_token (url : string) : option string :=
  match re_search pat_token url with
  | Some m => Some (group 1 m)
  | None => None
  end.

(** What a resolution leaves: the generator's lines and outcome, and the
    URLs requested, in order. *)
Record Resolved := mkResolved { res_stage : Stage string; res_requests : list string }.

(** The last strategy and the two ways of giving up. *)
Definition resolve_by_page (lines : list string) (asked : list string) (url : string) : Resolved :=
  let asked := (asked ++ [url])%list in
  match share_page url with
  | inl e =>
      let line := "Plaud resolution error: " ++ exn_msg e ++ "; using original URL" in
      mkResolved (mkStage (lines ++ [line])%list (inr url)) asked
  | inr (mkAttempt l (Some found)) => mkResolved (mkStage (lines ++ l)%list (inr found)) asked
  | inr (mkAttempt l None) =>
      mkResolved
        (mkStage (lines ++ l ++ ["Plaud resolution failed; using original URL"])%list (inr url))
        asked
  end.

Definition resolve_plaud_audio_url (job_id url : string) : Resolved :=
  if negb (Py.contains "plaud.ai" url) then mkResolved (mkStage [] (inr url)) []
  else
    let lines := ["Resolving Plaud link ..."] in
    match share_token url with
    | Some token =>
        if Py.truthy token then
          let api1 := "https://api.plaud.ai/file/share-file-temp/" ++ token in
          let api2 := "https://api.plaud.ai/file/share-content/" ++ token in
          match temp_api token with
          | mkAttempt l1 (Some val) => mkResolved (mkStage (lines ++ l1)%list (inr val)) [api1]
          | mkAttempt l1 None =>
              match content_api token with
              | mkAttempt l2 (Some cand) =>
                  mkResolved (mkStage (lines ++ l1 ++ l2)%list (inr cand)) [api1; api2]
              | mkAttempt l2 None =>
                  resolve_by_page (lines ++ l1 ++ l2)%list [api1; api2] url
              end
          end
        else resolve_by_page lines [] url
    | None => resolve_by_page lines [] url
    end.

(** Every strategy open to [url] comes back empty-handed: the two APIs when
    the URL has a share token, and the share page (which may also raise). *)
Definition all_fail (url : string) : Prop :=
  (forall token, share_token url = Some token -> Py.truthy token = true ->
     att_found (temp_api token) = None /\ att_found (content_api token) = None)
  /\ match share_page url with
     | inr a => att_found a = None
     | inl _ => True
     end.

End Resolver.

(** The reading of the specification, a URL on the special-link domain:
    its host, which stands between [://] and the next [/], [?] or [#], is
    [plaud.ai] or a subdomain of it. *)
Fixpoint after_scheme (fuel : nat) (s : string) : string :=
  match fuel with
  | O => s
  | S fuel' =>
      if String.prefix "://" s then Py.drop 3 s
      else match s with
           | EmptyString => EmptyString
           | String _ s' => after_scheme fuel' s'
           end
  end.

Fixpoint up_to (stop : ascii -> bool) (s : string) : string :=
  match s with
  | EmptyString => EmptyString
  | String c s' => if stop c then EmptyString else String c (up_to stop s')
  end.

Definition url_host (url : string) : string :=
  up_to (any_of "/?#")
        (if Py.contains "://" url then after_scheme (String.length url) url else url).

Definition spec_on_domain (url : string) : bool :=
  let host := Py.lower (url_host url) in
  String.eqb host "plaud.ai" || Py.endswith ".plaud.ai" host.

(** *** Sample data *)

Definition no_unescape : string -> string := fun s => s.

Definition refused : PyExn := mkExn "ConnectionError" "connection refused".

(** A network where every request fails. *)
Definition net_down : string -> PyExn + Page := fun _ => inl refused.

(** A network where the temp API answers with a direct link. *)
Definition net_temp : string -> PyExn + Page :=
  fun u =>
    if String.eqb u "https://api.plaud.ai/file/share-file-temp/abc123"
    then inr (mkPage None (Some "application/json; charset=utf-8")
                (dquoted "{'temp_url': 'https://s3.example.com/a.mp3?sig=1'}")
                (mkExn "JSONDecodeError" "Expecting value"))
    else inl refused.

(** A network where a page of another site, whose address happens to hold
    the text [plaud.ai], links to an audio file. *)
Definition net_review : string -> PyExn + Page :=
  fun u =>
    if String.eqb u "https://example.com/talks/plaud.ai-review"
    then inr (mkPage None (Some "text/html")
                (dquoted "<a href='https://cdn.example.com/talks/review.mp3'>listen</a>")
                (mkExn "JSONDecodeError" "Expecting value"))
    else inl refused.

(** ** The title by the model ([generate_title_from_summary]) *)

(** [s.strip(chars)] *)
Definition strip_chars (chars s : string) : string := Py.strip_by (any_of chars) s.

(** The answer of the chat endpoint: its status code and what [.json()]
    returns or raises. *)
Record Chat := mkChat { chat_status : nat; chat_json : PyExn + JSON }.

(** [result.get("choices", [{}])[0].get("message", {}).get("content", empty)]
    with [empty] the empty string; [None] when an index or an attribute
    access raises. *)
Definition chat_content (result : JSON) : option JSON :=
  match result with
  | JDict kv =>
      let first :=
        match dict_get kv "choices" with
        | None => Some (JDict [])
        | Some (JList (c :: _)) => Some c
        | Some (JStr (String c _)) => Some (JStr (String c EmptyString))
        | Some _ => None
        end in
      match first with
      | Some (JDict ckv) =>
          match dict_get ckv "message" with
          | None => Some (JStr "")
          | Some (JDict m) =>
              match dict_get m "content" with
              | None => Some (JStr "")
              | Some v => Some v
              end
          | Some _ => None
          end
      | _ => None
      end
  | _ => None
  end.

(** The body of the [try]: [Some] the title it returns, [None] when it ends
    without returning or raises. *)
Definition title_by_model (post : PyExn + Chat) : option string :=
  match post with
  | inl _ => None
  | inr response =>
      if Nat.eqb (chat_status response) 200 then
        match chat_json response with
        | inl _ => None
        | inr result =>
            match chat_content result with
            | Some (JStr content) =>
                let title := strip_chars (String dq "'") (Py.strip content) in
                if Py.truthy title && Nat.leb (String.length title) 60
                then Some title else None
            | _ => None
            end
        end
      else None
  end.

(** [generate_title_from_summary]: [configured] says whether
    [OPENAI_API_KEY] and [OPENAI_BASE_URL] are set; [post] is what reading
    the prompt file and [requests.post] come to. *)
Definition generate_title_from_summary (configured : bool) (post : PyExn + Chat)
           (summary : string) : string :=
  if negb (Py.truthy summary) then ""
  else if negb configured then extract_title_from_summary summary
  else
    match title_by_model post with
    | Some title => title
    | None => extract_title_from_summary summary
    end.

(** ** The pipeline, assembled *)

(** What the outside world answers during one run of the pipeline.  The
    transcriber is taken as a whole: the lines it logs and its outcome,
    [None] ([JNull]), a text, or whatever else the service put under
    ["text"]. *)
Record World := mkWorld {
  float_nonzero : string -> bool;
  py_repr : JSON -> string;
  html_unescape : string -> string;
  format_pct : nat -> Z -> string;
  web : string -> PyExn + Page;
  audio : string -> PyExn + Streamed;
  transcribed : Stage JSON;
  openai_configured : bool;
  responses : PyExn + Sse;
  chat : PyExn + Chat
}.

(** The helpers [run_job] calls, in that world. *)
Definition services (w : World) : Services :=
  mkServices
    (fun job_id u =>
       res_stage (resolve_plaud_audio_url (float_nonzero w) (html_unescape w) (web w) job_id u))
    (fun job_id u => dl_stage (download_audio_file (format_pct w) (audio w u) job_id u))
    (fun _ _ => transcribed w)
    (fun job_id text date =>
       summarize_with_gpt (float_nonzero w) (py_repr w) (openai_configured w) (responses w)
                          job_id text date)
    (fun summary => inr (generate_title_from_summary (openai_configured w) (chat w) summary))
    (float_nonzero w).

(** *** Sample data *)

(** A world where the audio is served in one chunk, the transcriber answers
    and the endpoint streams two deltas; the chat endpoint is down. *)
Definition sample_world : World :=
  mkWorld nonzero_all no_repr no_unescape no_pct net_down
    (fun _ => inr (mkStreamed None (Some "5") (Some "audio/mpeg")
                     [("hello", (1700000000 # 1)%Q)] None))
    (mkStage ["Uploading to AssemblyAI ..."; "transcribe: status=completed"]
             (inr (JStr "Topic: the quarterly budget. We agreed.")))
    true
    (inr (mkSse 200 hello_lines None))
    (inl refused).

Definition sample_ops : list Op :=
  [SetAudioUrl " https://example.com/a.mp3 ";
   AddJob (mkFresh "0a1b2c3d" 1700000000 "2023-11-14 22:13:20" "") (services sample_world)].

(** ** The selected job and what an operation leaves of a job *)

(** [current_job]: the loop of [_get_job] with [self.current_job_id]. *)
Definition current_job (s : AppState) : option Job :=
  _get_job (jobs s) (current_job_id s).

(** [current_logs], [current_transcript], [current_summary],
    [current_status], [current_meeting_date] *)
Definition current_logs (s : AppState) : list string :=
  match current_job s with Some x => logs x | None => [] end.

Definition current_transcript (py_repr : JSON -> string) (s : AppState) : string :=
  match current_job s with Some x => py_str py_repr (transcript x) | None => "" end.

Definition current_summary (s : AppState) : string :=
  match current_job s with Some x => summary x | None => "" end.

Definition current_status (s : AppState) : string :=
  match current_job s with Some x => status_str (status x) | None => "" end.

Definition current_meeting_date (s : AppState) : string :=
  match current_job s with Some x => meeting_date x | None => "" end.

(** [goto_job]: the selection; the redirect it yields is not part of the
    state. *)
Definition goto_job (job_id : string) (s : AppState) : AppState := select_job job_id s.

(** The keys of a job that no operation on an existing job assigns. *)
Definition identity_of (x : Job) : string * string * Z * string * string * string :=
  (id x, url x, created_at x, created_label x, meeting_date x, path x).

(** The job [retry_job] leaves behind just before it starts the pipeline. *)
Definition reset_light (x : Job) : Job :=
  with_logs [] (with_error "" (with_status Queued x)).

(** The file [JOBS_PATH] holds the jobs of the state. *)
Definition stored (s : AppState) : Prop := jobs_file s = jobs s.

(** The same while a job is held, and with the line logged last. *)
Definition saved (h : Held) : Prop := h_jobs_file h = h_jobs h.

Definition closed_by (line : string) (h : Held) : Prop :=
  saved h /\ exists l, logs (j h) = (l ++ [line])%list.

(** While [j] is held: the jobs around it, the selection and the URL field
    are as in [h0]; the job has the identity it has in [h0]; its log has
    only grown. *)
Definition framed (h0 h : Held) : Prop :=
  before h = before h0 /\ after h = after h0
  /\ identity_of (j h) = identity_of (j h0)
  /\ h_audio_url h = h_audio_url h0 /\ h_current_job_id h = h_current_job_id h0
  /\ exists more, logs (j h) = (logs (j h0) ++ more)%list.

(** The same inside a [try]: moreover the error text is the one of [h0]
    and the status is [st]. *)
Definition tidy (h0 : Held) (st : Status) (h : Held) : Prop :=
  framed h0 h /\ error (j h) = error (j h0) /\ status (j h) = st.

Definition tidy_any (h0 h : Held) : Prop := exists st, tidy h0 st h.

(** A value that is a text, or falsy and so stored as the empty text. *)
Definition plain (w : Services) (v : JSON) : Prop :=
  truthy_in w v = false \/ exists t, v = JStr t.

(** No helper of [w] raises (the summarizer: on a text), and what the
    transcriber returns is plain. *)
Definition never_raises (w : Services) : Prop :=
  (forall i u, exists r, outcome (svc_resolve w i u) = inr r)
  /\ (forall i u, exists r, outcome (svc_download w i u) = inr r)
  /\ (forall i p, exists r, outcome (svc_transcribe w i p) = inr r /\ plain w r)
  /\ (forall i t d, exists r, outcome (svc_summarize w i (JStr t) d) = inr r)
  /\ (forall t, exists r, svc_title w t = inr r).

(** A [try] block that, started in a state that satisfies [P], returns
    [a] in a state that satisfies [Q a] or raises an exception that
    satisfies [E]. *)
Definition raises_only {A} (P : Held -> Prop) (m : Try A) (Q : A -> Held -> Prop)
           (E : PyExn -> Prop) : Prop :=
  forall h, P h ->
    match m h with
    | (inr a, h') => Q a h'
    | (inl e, _) => E e
    end.

(** The last line of a log. *)
Definition last_line (x : Job) : option string :=
  match rev (logs x) with l :: _ => Some l | [] => None end.

(** How a pipeline run leaves the job [x'], started on [x]: completed, the
    error text untouched and the closing line logged; or in error, the
    error text made of the exception and logged. *)
Definition finished (x x' : Job) : Prop :=
  (status x' = Completed /\ error x' = error x /\ last_line x' = Some "Pipeline done.")
  \/ (status x' = Error
      /\ (exists e, error x' = exn_type e ++ ": " ++ exn_msg e)
      /\ last_line x' = Some ("ERROR: " ++ error x')).

(** ** The transcriber ([transcribe_with_assemblyai]) *)

(** An operation the interpreter refuses on a value: an attribute the
    value does not have, an item it does not have (or cannot have), an
    iteration, a slice, a use as member of a set.  Which exception that is,
    and with which text, is left to the interpreter. *)
Inductive Fault :=
| NoAttribute (name : string)
| NoItem (key : string)
| NotIterable
| NoSlice
| Unhashable.

(** The three characters the source file spells in front of a key point,
    as their UTF-8 bytes (one of them lies outside the range 0..255). *)
Definition bullet : string := "â€¢".

(** [sep.join(lines)] *)
Fixpoint join (sep : string) (lines : list string) : string :=
  match lines with
  | [] => ""
  | [l] => l
  | l :: more => l ++ sep ++ join sep more
  end.

(** [r.raise_for_status()] on what a request returned or raised. *)
Definition checked (p : PyExn + Page) : PyExn + Page :=
  match p with
  | inl e => inl e
  | inr r => match page_http_error r with Some e => inl e | None => inr r end
  end.

(** [v == s] for a text [s] *)
Definition is_text (v : JSON) (s : string) : bool :=
  match v with JStr x => String.eqb x s | _ => false end.

(** Whether [hash(v)] is defined. *)
Definition hashable (v : JSON) : bool :=
  match v with JList _ | JDict _ => false | _ => true end.

(** A generator that has finished, or one that is still polling when the
    answers at hand are used up. *)
Inductive Progress (A : Type) :=
| Finished (g : Stage A)
| Polling (lines : list string).
Arguments Finished {A} _.
Arguments Polling {A} _.

Section Transcriber.

Variable float_nonzero : string -> bool.
Variable py_repr : JSON -> string.
Variable fault : Fault -> JSON -> PyExn.

(** [v.get(key, default)] *)
Definition get_or (v : JSON) (key : string) (default : JSON) : PyExn + JSON :=
  match v with
  | JDict kv => inr (match dict_get kv key with Some x => x | None => default end)
  | _ => inl (fault (NoAttribute "get") v)
  end.

(** [v[key]] *)
Definition item (v : JSON) (key : string) : PyExn + JSON :=
  match get v key with
  | Some x => inr x
  | None => inl (fault (NoItem key) v)
  end.

(** [v.strip()] *)
Definition strip_of (v : JSON) : PyExn + string :=
  match v with
  | JStr s => inr (Py.strip s)
  | _ => inl (fault (NoAttribute "strip") v)
  end.

(** The values [for x in v] runs through. *)
Definition iterate (v : JSON) : PyExn + list JSON :=
  match v with
  | JList l => inr l
  | JDict kv => inr (map (fun p => JStr (fst p)) kv)
  | JStr s => inr (map (fun c => JStr (String c "")) (list_ascii_of_string s))
  | _ => inl (fault NotIterable v)
  end.

(** The values [for x in v[:5]] runs through. *)
Definition first_five (v : JSON) : PyExn + list JSON :=
  match v with
  | JList l => inr (firstn 5 l)
  | JStr s => inr (map (fun c => JStr (String c "")) (firstn 5 (list_ascii_of_string s)))
  | _ => inl (fault NoSlice v)
  end.

(** [f"Speaker {utt.get('speaker', 'Unknown')}"] *)
Definition speaker_of (sp : JSON) : string := "Speaker " ++ py_str py_repr sp.

Definition header (speaker : string) : string := "[" ++ speaker ++ "]:".

(** [for utt in utterances: ...]: [current] is [current_speaker], [acc] is
    [formatted_transcript]. *)
Fixpoint speak (utts : list JSON) (current : option string) (acc : list string)
  : PyExn + list string :=
  match utts with
  | [] => inr acc
  | utt :: more =>
      match get_or utt "speaker" (JStr "Unknown") with
      | inl e => inl e
      | inr sp =>
          let speaker := speaker_of sp in
          match get_or utt "text" (JStr "") with
          | inl e => inl e
          | inr tv =>
              match strip_of tv with
              | inl e => inl e
              | inr text =>
                  if match current with Some c => String.eqb speaker c | None => false end
                  then speak more current (acc ++ [text])%list
                  else
                    let acc := match acc with [] => acc | _ => (acc ++ [""])%list end in
                    speak more (Some speaker) ((acc ++ [header speaker]) ++ [text])%list
              end
          end
      end
  end.

(** [for h in highlights[:5]: ...] *)
Fixpoint points (hs : list JSON) (acc : list string) : PyExn + list string :=
  match hs with
  | [] => inr acc
  | h :: more =>
      match get_or h "text" (JStr "") with
      | inl e => inl e
      | inr t => points more (acc ++ [(bullet ++ " " ++ py_str py_repr t)%string])%list
      end
  end.

(** The line of a key point. *)
Definition point_line (h : JSON) : string :=
  bullet ++ " " ++ match get h "text" with Some t => py_str py_repr t | None => "" end.

Definition key_points : string := nl ++ nl ++ "--- Key Points ---".

(** The body of [if status == "completed":], [body] being a dict. *)
Definition completed_text (body : JSON) : PyExn + JSON :=
  match get_or body "utterances" (JList []) with
  | inl e => inl e
  | inr utterances =>
      if json_truthy float_nonzero utterances then
        match iterate utterances with
        | inl e => inl e
        | inr utts =>
            match speak utts None [] with
            | inl e => inl e
            | inr lines =>
                match get_or body "auto_highlights_result" (JDict []) with
                | inl e => inl e
                | inr result =>
                    match get_or result "results" (JList []) with
                    | inl e => inl e
                    | inr highlights =>
                        if json_truthy float_nonzero highlights then
                          match first_five highlights with
                          | inl e => inl e
                          | inr hs =>
                              match points hs (lines ++ [key_points])%list with
                              | inl e => inl e
                              | inr all => inr (JStr (join nl all))
                              end
                          end
                        else inr (JStr (join nl lines))
                    end
                end
            end
        end
      else get_or body "text" (JStr "")
  end.

Definition status_line (status : JSON) : string :=
  "transcribe: status=" ++ py_str py_repr status.

Definition transcription_failed (err : JSON) : PyExn :=
  mkExn "RuntimeError" ("transcription failed: " ++ py_str py_repr err).

(** [while status not in {"completed", "error"}: ...], one answer of
    [requests.get] per turn; [lines] are the lines logged so far. *)
Fixpoint poll (polls : list (PyExn + Page)) (lines : list string) : Progress JSON :=
  match polls with
  | [] => Polling lines
  | p :: more =>
      match checked p with
      | inl e => Finished (mkStage lines (inl e))
      | inr r =>
          match page_json r with
          | inl e => Finished (mkStage lines (inl e))
          | inr body =>
              match get_or body "status" (JStr "?") with
              | inl e => Finished (mkStage lines (inl e))
              | inr status =>
                  let lines := (lines ++ [status_line status])%list in
                  if is_text status "completed"
                  then Finished (mkStage lines (completed_text body))
                  else if is_text status "error"
                  then
                    match get_or body "error" (JStr "unknown error") with
                    | inl e => Finished (mkStage lines (inl e))
                    | inr err => Finished (mkStage lines (inl (transcription_failed err)))
                    end
                  else if hashable status then poll more lines
                  else Finished (mkStage lines (inl (fault Unhashable status)))
              end
          end
      end
  end.

(** [transcribe_with_assemblyai]: [api_key] is [ASSEMBLYAI_API_KEY] in the
    environment; [upload] and [create] are what the two [requests.post]
    return or raise (reading the audio file is part of the first); [polls]
    are the answers of the [requests.get] of the loop.  The value returned
    is [None] ([JNull]), the text built, or whatever the body holds under
    ["text"]. *)
Definition transcribe_with_assemblyai (api_key : option string)
           (upload create : PyExn + Page) (polls : list (PyExn + Page))
           (job_id file_path : string) : Progress JSON :=
  if negb (Py.truthy_opt api_key)
  then Finished (mkStage ["ASSEMBLYAI_API_KEY not set " ++ arrow ++ " skipping transcription"]
                         (inr JNull))
  else
    let l1 := ["Uploading to AssemblyAI ..."] in
    let failed (lines : list string) (e : PyExn) : Progress JSON :=
      Finished (mkStage lines (inl e)) in
    match checked upload with
    | inl e => failed l1 e
    | inr r =>
        match page_json r with
        | inl e => failed l1 e
        | inr v =>
            match item v "upload_url" with
            | inl e => failed l1 e
            | inr upload_url =>
                let l2 := (l1 ++ ["Create transcript job with speaker diarization ..."])%list in
                match checked create with
                | inl e => failed l2 e
                | inr r =>
                    match page_json r with
                    | inl e => failed l2 e
                    | inr v =>
                        match item v "id" with
                        | inl e => failed l2 e
                        | inr tid =>
                            poll polls
                                 (l2 ++ [("Transcript id=" ++ py_str py_repr tid
                                          ++ "; polling ...")%string])%list
                        end
                    end
                end
            end
        end
    end.

(** An utterance the loop accepts, as [(speaker, text)]: an object whose
    ["text"], if any, is a text. *)
Definition view (utt : JSON) : option (string * string) :=
  match utt with
  | JDict kv =>
      match dict_get kv "text" with
      | Some (JStr t) =>
          Some (speaker_of (match dict_get kv "speaker" with Some sp => sp | None => JStr "Unknown" end),
                Py.strip t)
      | None =>
          Some (speaker_of (match dict_get kv "speaker" with Some sp => sp | None => JStr "Unknown" end),
                "")
      | Some _ => None
      end
  | _ => None
  end.

Fixpoint views (utts : list JSON) : option (list (string * string)) :=
  match utts with
  | [] => Some []
  | utt :: more =>
      match view utt, views more with
      | Some v, Some vs => Some (v :: vs)
      | _, _ => None
      end
  end.

(** An answer that keeps the loop going, as the line it logs: an object
    whose ["status"] is neither ["completed"] nor ["error"] and can be
    looked up in a set. *)
Definition pending (p : PyExn + Page) : option string :=
  match checked p with
  | inr r =>
      match page_json r with
      | inr (JDict kv) =>
          let status := match dict_get kv "status" with Some x => x | None => JStr "?" end in
          if is_text status "completed" || is_text status "error" || negb (hashable status)
          then None else Some (status_line status)
      | _ => None
      end
  | inl _ => None
  end.

Fixpoint pending_lines (polls : list (PyExn + Page)) : option (list string) :=
  match polls with
  | [] => Some []
  | p :: more =>
      match pending p, pending_lines more with
      | Some l, Some ls => Some (l :: ls)
      | _, _ => None
      end
  end.

End Transcriber.

(** *** The rendering of utterances, block by block *)

(** The consecutive utterances of one speaker: [(speaker, texts)], the
    texts in order. *)
Fixpoint blocks (us : list (string * string)) : list (string * list string) :=
  match us with
  | [] => []
  | (sp, text) :: more =>
      match blocks more with
      | (sp', texts) :: bs => if String.eqb sp sp' then (sp, text :: texts) :: bs
                              else (sp, [text]) :: (sp', texts) :: bs
      | [] => [(sp, [text])]
      end
  end.

(** A block as lines: the header, then the texts. *)
Definition block_lines (b : string * list string) : list string := header (fst b) :: snd b.

(** Blocks as lines, one empty line between two blocks. *)
Fixpoint blocks_lines (bs : list (string * list string)) : list string :=
  match bs with
  | [] => []
  | [b] => block_lines b
  | b :: more => (block_lines b ++ "" :: blocks_lines more)%list
  end.

(** The lines the loop adds for the utterances [vs] when the last speaker
    was [current] and [started] says whether a line was written before. *)
Fixpoint render (current : option string) (started : bool) (vs : list (string * string))
  : list string :=
  match vs with
  | [] => []
  | (sp, text) :: more =>
      if match current with Some c => String.eqb sp c | None => false end
      then text :: render current started more
      else ((if started then [""] else []) ++ header sp :: text :: render (Some sp) true more)%list
  end.

(** What follows a block: nothing, or an empty line and the next blocks. *)
Definition tail_lines (bs : list (string * list string)) : list string :=
  match bs with [] => [] | _ => "" :: blocks_lines bs end.

(** An utterance as the service sends it. *)
Definition utterance (speaker text : string) : JSON :=
  JDict [("speaker", JStr speaker); ("text", JStr text)].

(** *** Sample data *)

Definition no_fault : Fault -> JSON -> PyExn := fun _ _ => mkExn "Exception" "".

Definition answer (text : string) : PyExn + Page :=
  inr (mkPage None (Some "application/json") (dquoted text)
         (mkExn "JSONDecodeError" "Expecting value")).

Definition created : PyExn + Page := answer "{'id': 'tr_1', 'status': 'queued'}".

Definition uploaded : PyExn + Page := answer "{'upload_url': 'https://cdn.example.com/u/1'}".

Definition two_speakers : string :=
  "{'status': 'completed', 'text': 'hi there bye', 'utterances': ["
  ++ "{'speaker': 'A', 'text': ' hi '}, {'speaker': 'A', 'text': 'there'}, "
  ++ "{'speaker': 'B', 'text': 'bye'}], "
  ++ "'auto_highlights_result': {'results': [{'text': 'greeting', 'rank': 0.9}]}}".

(** ** The environment file ([_load_env_from_dotenv]) *)

(** [os.environ]: the variables and their values, in the order they were
    set. *)
Definition Env : Type := list (string * string).

Fixpoint env_get (env : Env) (k : string) : option string :=
  match env with
  | [] => None
  | (k', v) :: env' => if String.eqb k' k then Some v else env_get env' k
  end.

Definition has_nul (s : string) : bool :=
  existsb (Ascii.eqb "000") (list_ascii_of_string s).

(** [os.environ.setdefault(k, v)] on a POSIX system; [None] when it raises
    (an empty name, a name with [=], a null character in the name or in the
    value).  A variable that is set is left alone, and then nothing is
    checked. *)
Definition setdefault (env : Env) (k v : string) : option Env :=
  match env_get env k with
  | Some _ => Some env
  | None =>
      if negb (Py.truthy k) || Py.contains "=" k || has_nul k || has_nul v
      then None
      else Some (env ++ [(k, v)])%list
  end.

(** [s.split(sep, 1)] for a text that contains [sep]; [None] when it does
    not. *)
Fixpoint split_once (sep : ascii) (s : string) : option (string * string) :=
  match s with
  | EmptyString => None
  | String c s' =>
      if Ascii.eqb c sep then Some (EmptyString, s')
      else match split_once sep s' with
           | Some (a, b) => Some (String c a, b)
           | None => None
           end
  end.

(** The value of a line: stripped of white space, then of double quotes,
    then of apostrophes. *)
Definition env_value (v : string) : string :=
  strip_chars "'" (strip_chars (String dq "") (Py.strip v)).

(** The body of [for line in f]; [None] when [setdefault] raises. *)
Definition load_line (env : Env) (raw : string) : option Env :=
  let line := Py.strip raw in
  if negb (Py.truthy line) || Py.startswith "#" line then Some env
  else
    match split_once "=" line with
    | None => Some env
    | Some (k, v) => setdefault env (Py.strip k) (env_value v)
    end.

(** The loop inside its [try]: an exception ends it (the [except] prints). *)
Fixpoint load_lines (env : Env) (lines : list string) : Env :=
  match lines with
  | [] => env
  | raw :: more =>
      match load_line env raw with
      | Some env' => load_lines env' more
      | None => env
      end
  end.

(** [_load_env_from_dotenv]: [dotenv] is [None] when the file does not
    exist, else its lines (reading them is taken to succeed). *)
Definition _load_env_from_dotenv (dotenv : option (list string)) (env : Env) : Env :=
  match dotenv with
  | None => env
  | Some lines => load_lines env lines
  end.

(** The variable a line defines, if it defines one: the name and the value
    handed to [setdefault]. *)
Definition defined_by (raw : string) : option (string * string) :=
  let line := Py.strip raw in
  if negb (Py.truthy line) || Py.startswith "#" line then None
  else
    match split_once "=" line with
    | None => None
    | Some (k, v) => Some (Py.strip k, env_value v)
    end.

(** The definitions of a file, in the order of its lines. *)
Definition definitions (lines : list string) : Env :=
  flat_map (fun raw => match defined_by raw with Some kv => [kv] | None => [] end) lines.

(** A definition [setdefault] accepts whether or not the variable is set. *)
Definition settable (kv : string * string) : bool :=
  Py.truthy (fst kv) && negb (Py.contains "=" (fst kv))
  && negb (has_nul (fst kv)) && negb (has_nul (snd kv)).

(** ** Ages and colours ([_relative_time], [_status_color]) *)

(** [_relative_time]: [now] is [int(time.time())]; [ts] is [int(ts)],
    [None] when that raises. *)
Definition _relative_time (now : Z) (ts : option Z) : string :=
  match ts with
  | None => "just now"
  | Some t =>
      let delta := (now - t)%Z in
      if (delta <? 60)%Z then str_int delta ++ "s ago"
      else if (delta <? 3600)%Z then str_int (delta / 60) ++ "m ago"
      else if (delta <? 86400)%Z then str_int (delta / 3600) ++ "h ago"
      else str_int (delta / 86400) ++ "d ago"
  end.

(** [_status_color]: the lookup in the mapping, ["gray"] by default. *)
Definition _status_color (status : string) : string :=
  if String.eqb status "queued" then "gray"
  else if String.eqb status "running" then "blue"
  else if String.eqb status "downloading" then "blue"
  else if String.eqb status "transcribing" then "blue"
  else if String.eqb status "summarizing" then "blue"
  else if String.eqb status "completed" then "green"
  else if String.eqb status "error" then "red"
  else "gray".

(** ** Loading the jobs ([hydrate], [init_job_view], [load_job]) *)

(** The file [JOBS_PATH] as the loaders find it: absent, present but
    failing to open or to decode, or holding the jobs of [jobs_file]. *)
Inductive FileStatus := Missing | Corrupt | Readable.

Definition with_created_label (v : string) (x : Job) : Job :=
  mkJob (id x) (url x) (status x) (created_at x) v (meeting_date x)
        (title x) (path x) (error x) (file_path x) (transcript x) (summary x)
        (logs x) (resolved_url x).

Definition with_path (v : string) (x : Job) : Job :=
  mkJob (id x) (url x) (status x) (created_at x) (created_label x) (meeting_date x)
        (title x) v (error x) (file_path x) (transcript x) (summary x)
        (logs x) (resolved_url x).

Section Loaders.

(** [time.strftime("%Y-%m-%d %H:%M:%S", time.localtime(ts))]; [None] when
    it raises. *)
Variable label_of : Z -> option string.

(** The body of [for j in self.jobs] of the backfill: the job, and whether
    [changed] was set. *)
Definition backfill_job (x : Job) : Job * bool :=
  let (x1, c1) :=
    if negb (Py.truthy (created_label x)) then
      match label_of (created_at x) with
      | Some l => (with_created_label l x, true)
      | None => (with_created_label "" x, false)
      end
    else (x, false) in
  if Py.truthy (id x1) && negb (Py.truthy (path x1))
  then (with_path ("/job/" ++ id x1) x1, true)
  else (x1, c1).

Definition backfill (js : list Job) : list Job * bool :=
  (map (fun x => fst (backfill_job x)) js, existsb (fun x => snd (backfill_job x)) js).

(** The jobs after [json.load], or after the [except]. *)
Definition loaded (st : FileStatus) (s : AppState) : list Job :=
  match st with
  | Missing => jobs s
  | Corrupt => []
  | Readable => jobs_file s
  end.

(** Loading and backfilling, with the [_save] when something changed. *)
Definition reload (st : FileStatus) (s : AppState) : AppState :=
  let (js, changed) := backfill (loaded st s) in
  let s' := mkApp (audio_url s) js (current_job_id s) (jobs_file s) (status_log s) in
  if changed then _save s' else s'.

Definition hydrate (st : FileStatus) (s : AppState) : AppState :=
  let s' := reload st s in
  match jobs s' with
  | x :: _ => if negb (Py.truthy (current_job_id s')) then select_job (id x) s' else s'
  | [] => s'
  end.

(** [(job_id or empty).strip().strip("/")] *)
Definition normalized (job_id : option string) : string :=
  strip_chars "/" (Py.strip (Py.or_empty job_id)).

Definition init_job_view (st : FileStatus) (job_id : option string) (s : AppState) : AppState :=
  let jid := normalized job_id in
  let s' := match jobs s with [] => reload st s | _ => s end in
  select_job jid s'.

Definition load_job (st : FileStatus) (job_id : option string) (s : AppState) : AppState :=
  let normalized_id := normalized job_id in
  let s' := match jobs s with [] => reload st s | _ => s end in
  if Py.truthy normalized_id then select_job normalized_id s' else s'.

End Loaders.

(** A job without the two keys the backfill assigns. *)
Definition payload_of (x : Job) :=
  (id x, url x, status x, created_at x, meeting_date x, title x, error x, file_path x,
   transcript x, summary x, logs x, resolved_url x).

(** Every job has the path of its detail page. *)
Definition paths_ok (s : AppState) : Prop :=
  Forall (fun x => path x = "/job/" ++ id x) (jobs s).

(** A job as [add_job] makes it, as far as the backfill is concerned: it
    has its path and a label. *)
Definition well_kept (x : Job) : Prop :=
  path x = "/job/" ++ id x /\ created_label x <> "".

(** The clock of an [add_job] gave a label. *)
Definition op_ok (o : Op) : Prop :=
  match o with
  | AddJob f _ => now_label f <> ""
  | _ => True
  end.

(** *** Sample data *)

Definition sample_env : Env := [("HOME", "/root"); ("OPENAI_MODEL", "gpt-4o")].

Definition sample_dotenv : list string :=
  ["# keys" ++ nl; nl;
   "OPENAI_API_KEY = " ++ String dq ("sk-1" ++ String dq nl);
   "OPENAI_MODEL=gpt-4o-mini" ++ nl;
   "export" ++ nl;
   "OPENAI_BASE_URL='https://api.example.com/'" ++ nl;
   "=oops" ++ nl;
   "ASSEMBLYAI_API_KEY=abc" ++ nl].

Definition no_label : Z -> option string := fun _ => None.

Definition fixed_label : Z -> option string := fun _ => Some "2023-11-14 22:13:20".

(** ** The meeting date ([_extract_date_from_url]) *)

Definition digit : Re := Chr is_digit.

(** [r'(\d{4}-\d{2}-\d{2})\s+\d{2}:\d{2}:\d{2}'] *)
Definition pat_page_date : Re :=
  seqs [Group 1 (seqs [Rep 4 0 digit; one "-"; Rep 2 0 digit; one "-"; Rep 2 0 digit]);
        Plus (Chr Py.isspace);
        Rep 2 0 digit; one ":"; Rep 2 0 digit; one ":"; Rep 2 0 digit].

(** [r'(\d{4}[-_]\d{2}[-_]\d{2})'], [r'(\d{8})'],
    [r'(\d{2}[-_]\d{2}[-_]\d{4})'], [r'(\d{4}[-/]\d{1,2}[-/]\d{1,2})'] *)
Definition pat_iso : Re :=
  Group 1 (seqs [Rep 4 0 digit; Chr (any_of "-_"); Rep 2 0 digit; Chr (any_of "-_");
                 Rep 2 0 digit]).

Definition pat_compact : Re := Group 1 (Rep 8 0 digit).

Definition pat_year_last : Re :=
  Group 1 (seqs [Rep 2 0 digit; Chr (any_of "-_"); Rep 2 0 digit; Chr (any_of "-_");
                 Rep 4 0 digit]).

Definition pat_loose : Re :=
  Group 1 (seqs [Rep 4 0 digit; Chr (any_of "-/"); Rep 1 1 digit; Chr (any_of "-/");
                 Rep 1 1 digit]).

(** The directives of [strptime], as the patterns it compiles them to; the
    group numbers 1, 2, 3 stand for the names [Y], [m], [d]. *)
Definition dir_Y : Re := Group 1 (Rep 4 0 digit).

Definition dir_m : Re :=
  Group 2 (alts [Seq (one "1") (Chr (any_of "012"));
                 Seq (one "0") (Chr (any_of "123456789"));
                 Chr (any_of "123456789")]).

Definition dir_d : Re :=
  Group 3 (alts [Seq (one "3") (Chr (any_of "01"));
                 Seq (Chr (any_of "12")) digit;
                 Seq (one "0") (Chr (any_of "123456789"));
                 Chr (any_of "123456789");
                 Seq (one " ") (Chr (any_of "123456789"))]).

(** ['%Y-%m-%d'], ['%Y%m%d'], ['%m-%d-%Y'], ['%d-%m-%Y'] *)
Definition fmt_ymd : Re := seqs [dir_Y; one "-"; dir_m; one "-"; dir_d].
Definition fmt_compact : Re := seqs [dir_Y; dir_m; dir_d].
Definition fmt_mdy : Re := seqs [dir_m; one "-"; dir_d; one "-"; dir_Y].
Definition fmt_dmy : Re := seqs [dir_d; one "-"; dir_m; one "-"; dir_Y].

Definition is_leap (y : Z) : bool :=
  ((y mod 4 =? 0) && (negb (y mod 100 =? 0) || (y mod 400 =? 0)))%Z.

Definition days_in_month (y m : Z) : Z :=
  match m with
  | 2%Z => if is_leap y then 29%Z else 28%Z
  | 4%Z | 6%Z | 9%Z | 11%Z => 30%Z
  | _ => 31%Z
  end.

(** A date [datetime] accepts. *)
Definition valid_date (y m d : Z) : bool :=
  ((1 <=? y) && (y <=? 9999) && (1 <=? m) && (m <=? 12)
   && (1 <=? d) && (d <=? days_in_month y m))%Z.

(** [datetime.strptime(s, fmt)] for one of the four formats: the date, or
    [None] for [ValueError] (no match, unconverted data, or a date that does
    not exist). *)
Definition strptime (fmt : Re) (s : string) : option (Z * Z * Z) :=
  match re_match fmt s with
  | Some m =>
      if Py.truthy (rest (m_end m)) then None
      else
        match py_int (group 1 m), py_int (group 2 m), py_int (group 3 m) with
        | Some y, Some mo, Some d => if valid_date y mo d then Some (y, mo, d) else None
        | _, _, _ => None
        end
  | None => None
  end.

Definition two_digits (n : Z) : string :=
  if (n <? 10)%Z then "0" ++ str_int n else str_int n.

Section DateFinder.

(** The text [strftime] gives for a year below 1000 under ['%Y']: it
    depends on the platform whether it is padded with zeros. *)
Variable small_year : Z -> string.

(** [date_obj.strftime('%Y-%m-%d')] *)
Definition date_text (date : Z * Z * Z) : string :=
  let '(y, m, d) := date in
  (if (1000 <=? y)%Z then str_int y else small_year y)
  ++ "-" ++ two_digits m ++ "-" ++ two_digits d.

(** [for fmt in [...]: try: ... return ... except ValueError: continue] *)
Fixpoint first_format (fmts : list Re) (date_str : string) : option string :=
  match fmts with
  | [] => None
  | fmt :: more =>
      match strptime fmt date_str with
      | Some date => Some (date_text date)
      | None => first_format more date_str
      end
  end.

(** [date_str.replace('_', '-').replace('/', '-')] *)
Definition dashed (date_str : string) : string :=
  replace "/" "-" (replace "_" "-" date_str).

(** [for pattern in patterns: ...] *)
Fixpoint first_pattern (patterns : list Re) (url : string) : option string :=
  match patterns with
  | [] => None
  | pattern :: more =>
      match re_search pattern url with
      | Some m =>
          match first_format [fmt_ymd; fmt_compact; fmt_mdy; fmt_dmy] (dashed (group 1 m)) with
          | Some text => Some text
          | None => first_pattern more url
          end
      | None => first_pattern more url
      end
  end.

(** The date on the share page: the body of the [try] of the first block;
    [page] is what [requests.get] returns (status code and text) or
    raises. *)
Definition page_date (page : PyExn + nat * string) : option string :=
  match page with
  | inl _ => None
  | inr (code, text) =>
      if Nat.eqb code 200 then
        match re_search pat_page_date text with
        | Some m => Some (group 1 m)
        | None => None
        end
      else None
  end.

(** [_extract_date_from_url]; [page] is consulted only for a URL with
    [plaud.ai]. *)
Definition _extract_date_from_url (page : PyExn + nat * string) (url : string) : string :=
  let by_url :=
    match first_pattern [pat_iso; pat_compact; pat_year_last; pat_loose] url with
    | Some text => text
    | None => ""
    end in
  if Py.contains "plaud.ai" url then
    match page_date page with
    | Some text => text
    | None => by_url
    end
  else by_url.

(** [add_job] with the date found by [_extract_date_from_url]. *)
Definition add_job_dated (page : PyExn + nat * string) (job_id : string) (now : Z)
           (now_label : string) (w : Services) (s : AppState) : AppState :=
  add_job (mkFresh job_id now now_label
                   (_extract_date_from_url page (Py.strip (audio_url s)))) w s.

End DateFinder.

(** A text of the form [YYYY-MM-DD] for a date of the calendar, the year
    from 1000 on. *)
Definition is_calendar_date (text : string) : Prop :=
  exists y m d,
    valid_date y m d = true /\ (1000 <= y)%Z
    /\ text = str_int y ++ "-" ++ two_digits m ++ "-" ++ two_digits d.

(** *** Sample data *)

Definition unpadded : Z -> string := str_int.

(** * Properties of the job store *)

Lemma locate_get (js : list Job) (job_id : string) :
  _get_job js job_id =
  match locate js job_id with Some (_, x, _) => Some x | None => None end.
Proof.
  induction js as [|x rest IH]; simpl; [reflexivity|].
  destruct (String.eqb (id x) job_id); [reflexivity|].
  rewrite IH. destruct (locate rest job_id) as [[[pre y] post]|]; reflexivity.
Qed.

Lemma locate_split (js : list Job) (job_id : string) pre x post :
  locate js job_id = Some (pre, x, post) ->
  js = (pre ++ x :: post)%list /\ id x = job_id /\ _get_job pre job_id = None.
Proof.
  revert pre x post.
  induction js as [|y rest IH]; simpl; intros pre x post H; [discriminate|].
  destruct (String.eqb (id y) job_id) eqn:E.
  - inversion H; subst. apply String.eqb_eq in E. auto.
  - destruct (locate rest job_id) as [[[pre' x'] post']|]; [|discriminate].
    inversion H; subst.
    destruct (IH _ _ _ eq_refl) as (-> & Hid & Hpre).
    simpl. rewrite E. auto.
Qed.

Lemma locate_found (pre post : list Job) (x : Job) (job_id : string) :
  _get_job pre job_id = None -> id x = job_id ->
  locate (pre ++ x :: post) job_id = Some (pre, x, post).
Proof.
  intros Hpre Hid. induction pre as [|y pre IH]; simpl in *.
  - rewrite Hid, String.eqb_refl. reflexivity.
  - destruct (String.eqb (id y) job_id); [discriminate|].
    rewrite (IH Hpre). reflexivity.
Qed.

Lemma get_found (pre post : list Job) (x : Job) (job_id : string) :
  _get_job pre job_id = None -> id x = job_id ->
  _get_job (pre ++ x :: post) job_id = Some x.
Proof.
  intros Hpre Hid. rewrite locate_get, (locate_found _ _ _ _ Hpre Hid). reflexivity.
Qed.

(** Holding a job: the list splits around it, it carries the id, and it is
    the job [_get_job] returns. *)
Lemma hold_some (s : AppState) (job_id : string) (h : Held) :
  hold s job_id = Some h ->
  jobs s = h_jobs h /\ id (j h) = job_id /\ _get_job (before h) job_id = None
  /\ _get_job (jobs s) job_id = Some (j h)
  /\ h_audio_url h = audio_url s /\ h_current_job_id h = current_job_id s
  /\ h_jobs_file h = jobs_file s /\ h_status_log h = status_log s.
Proof.
  unfold hold. intros H.
  destruct (locate (jobs s) job_id) as [[[pre x] post]|] eqn:E; [|discriminate].
  inversion H; subst; clear H. unfold h_jobs; simpl.
  destruct (locate_split _ _ _ _ _ E) as (Hs & Hid & Hpre).
  rewrite (locate_get (jobs s)), E. auto 10.
Qed.

Lemma hold_get (s : AppState) (job_id : string) (x : Job) :
  _get_job (jobs s) job_id = Some x ->
  exists h, hold s job_id = Some h /\ j h = x.
Proof.
  rewrite locate_get. unfold hold.
  destruct (locate (jobs s) job_id) as [[[pre y] post]|]; [|discriminate].
  intros H; inversion H; subst. eexists; split; [reflexivity|reflexivity].
Qed.

Lemma hold_none (s : AppState) (job_id : string) :
  _get_job (jobs s) job_id = None -> hold s job_id = None.
Proof.
  rewrite locate_get. unfold hold.
  destruct (locate (jobs s) job_id) as [[[pre y] post]|]; [discriminate|reflexivity].
Qed.

Lemma release_hold (s : AppState) (job_id : string) (h : Held) :
  hold s job_id = Some h -> release h = s.
Proof.
  intros H. destruct (hold_some _ _ _ H) as (Hj & _ & _ & _ & Ha & Hc & Hf & Hl).
  unfold release. rewrite Ha, Hc, Hf, Hl, <- Hj. destruct s; reflexivity.
Qed.

Lemma with_logs_same (x : Job) : with_logs (logs x) x = x.
Proof. destruct x; reflexivity. Qed.

(** The lines of a stage, appended at once. *)
Lemma log_lines_closed (lines : list string) (h : Held) :
  log_lines lines h =
  let x := with_logs (logs (j h) ++ lines)%list (j h) in
  mkHeld (before h) x (after h) (h_audio_url h) (h_current_job_id h)
         (match lines with
          | [] => h_jobs_file h
          | _ => (before h ++ x :: after h)%list
          end)
         (h_status_log h).
Proof.
  unfold log_lines. revert h.
  induction lines as [|l ls IH]; intros h; simpl.
  - rewrite app_nil_r, with_logs_same. destruct h; reflexivity.
  - rewrite IH. unfold append_log_held, save_held, assign, h_jobs; simpl.
    rewrite <- app_assoc; simpl.
    destruct ls; reflexivity.
Qed.

(** [_append_log] with the id of the held job finds that job again. *)
Lemma append_log_held_ok (h : Held) (line : string) :
  _get_job (before h) (id (j h)) = None ->
  _append_log (id (j h)) line (release h) = release (append_log_held line h).
Proof.
  intros Hpre. unfold _append_log, hold, release, h_jobs; simpl.
  rewrite (locate_found _ _ _ _ Hpre eq_refl). reflexivity.
Qed.

(** ** The guard of [run_job] *)

(** C2.  When the job found under [job_id] is running, downloading,
    transcribing or summarizing, [run_job] returns the state it was given:
    no field of any job changes, no log line is appended, nothing is saved
    and no status is assigned. *)
Theorem run_job_active_noop (w : Services) (job_id : string) (s : AppState) (x : Job) :
  _get_job (jobs s) job_id = Some x ->
  is_active (status x) = true ->
  run_job w job_id s = s.
Proof.
  intros Hget Hact. unfold run_job.
  destruct (hold_get _ _ _ Hget) as (h & -> & ->).
  rewrite Hact. reflexivity.
Qed.

Lemma run_job_active_noop_witness :
  _get_job (jobs (sample_state Downloading)) "deadbeef" = Some (sample_job "deadbeef" Downloading)
  /\ run_job services_ok "deadbeef" (sample_state Downloading) = sample_state Downloading.
Proof.
  split; [reflexivity|].
  apply (run_job_active_noop services_ok "deadbeef" (sample_state Downloading)
           (sample_job "deadbeef" Downloading)); reflexivity.
Defined.

(** ** Retry with full reset *)

(** C3.  On a completed job that is selected, [retry_current] first makes
    the job queued with empty logs, transcript, summary and error (every
    other key and every other job as before), saves, and only then runs the
    pipeline on that state. *)
Theorem retry_current_resets (s : AppState) (x : Job) :
  current_job_id s <> "" ->
  _get_job (jobs s) (current_job_id s) = Some x ->
  status x = Completed ->
  exists s',
    retry_current_reset s = Some s'
    /\ (forall w, retry_current w s = run_job w (current_job_id s) s')
    /\ _get_job (jobs s') (current_job_id s) = Some (reset_full x)
    /\ status (reset_full x) = Queued
    /\ logs (reset_full x) = []
    /\ transcript (reset_full x) = JStr ""
    /\ summary (reset_full x) = ""
    /\ error (reset_full x) = ""
    /\ exists pre post,
         jobs s = (pre ++ x :: post)%list /\ jobs s' = (pre ++ reset_full x :: post)%list.
Proof.
  intros Hcur Hget _.
  destruct (hold_get _ _ _ Hget) as (h & Hh & <-).
  destruct (hold_some _ _ _ Hh) as (Hjobs & Hid & Hpre & _).
  unfold retry_current, retry_current_reset.
  destruct (current_job_id s) as [|c cs] eqn:Ecur; [congruence|]. simpl negb. cbv iota.
  rewrite Hh. eexists. split; [reflexivity|]. split; [reflexivity|].
  split.
  { simpl. unfold h_jobs. simpl. apply get_found; [exact Hpre|exact Hid]. }
  repeat (split; [reflexivity|]).
  exists (before h), (after h). split; [exact Hjobs|reflexivity].
Qed.

Lemma retry_current_resets_witness :
  exists s',
    retry_current_reset (sample_state Completed) = Some s'
    /\ _get_job (jobs s') "deadbeef" = Some (reset_full (sample_job "deadbeef" Completed)).
Proof.
  destruct (retry_current_resets (sample_state Completed) (sample_job "deadbeef" Completed))
    as (s' & H1 & _ & H3 & _).
  - discriminate.
  - reflexivity.
  - reflexivity.
  - exists s'. split; [exact H1|exact H3].
Defined.

(** ** [clear] *)

(** C10.  With a job selected, [clear] empties that job's logs, transcript,
    summary and error and makes it queued, in place, and every other job of
    the list is as before (when no job carries the selected id, the list is
    as before); with no job selected it empties the list. *)
Theorem clear_by_selection (s : AppState) :
  (forall x, current_job_id s <> "" ->
             _get_job (jobs s) (current_job_id s) = Some x ->
             exists pre post,
               jobs s = (pre ++ x :: post)%list
               /\ jobs (clear s) = (pre ++ cleared x :: post)%list
               /\ _get_job (jobs (clear s)) (current_job_id s) = Some (cleared x)
               /\ logs (cleared x) = [] /\ transcript (cleared x) = JStr ""
               /\ summary (cleared x) = "" /\ error (cleared x) = ""
               /\ status (cleared x) = Queued)
  /\ (current_job_id s <> "" -> _get_job (jobs s) (current_job_id s) = None ->
      jobs (clear s) = jobs s)
  /\ (current_job_id s = "" -> jobs (clear s) = []).
Proof.
  split.
  - intros x Hcur Hget.
    destruct (hold_get _ _ _ Hget) as (h & Hh & <-).
    destruct (hold_some _ _ _ Hh) as (Hjobs & Hid & Hpre & _).
    exists (before h), (after h). unfold clear.
    destruct (current_job_id s) as [|c cs] eqn:Ecur; [congruence|]. simpl Py.truthy. cbv iota.
    rewrite Hh. simpl. unfold h_jobs; simpl.
    split; [exact Hjobs|]. split; [reflexivity|].
    split; [apply get_found; [exact Hpre|exact Hid]|].
    repeat split.
  - split.
    + intros Hcur Hget. unfold clear.
      destruct (current_job_id s) as [|c cs] eqn:Ecur; [congruence|]. simpl Py.truthy. cbv iota.
      rewrite (hold_none _ _ Hget). reflexivity.
    + intros Hcur. unfold clear. rewrite Hcur. reflexivity.
Qed.

Example clear_selected :
  map (fun x => (id x, status x, logs x, transcript x, summary x))
      (jobs (clear (sample_state Completed)))
  = [("0a1b2c3d", Completed, ["Starting pipeline"; "Downloading audio ..."],
      JStr "hello there", "A summary");
     ("deadbeef", Queued, [], JStr "", "");
     ("cafe0001", Error, ["Starting pipeline"; "Downloading audio ..."],
      JStr "hello there", "A summary")].
Proof. vm_compute. reflexivity. Qed.

Example clear_unselected :
  jobs (clear (select_job "" (sample_state Completed))) = [].
Proof. reflexivity. Qed.


(** ** Rules for [try] blocks *)

Lemma hoare_bind {A B} (P : Held -> Prop) (m : Try A) (Q : A -> Held -> Prop)
      (k : A -> Try B) (Q' : B -> Held -> Prop) (E : Held -> Prop) :
  hoare P m Q E -> (forall a, hoare (Q a) (k a) Q' E) -> hoare P (bind m k) Q' E.
Proof.
  intros Hm Hk h Hp. unfold bind. specialize (Hm h Hp).
  destruct (m h) as [[e|a] h']; [exact Hm|]. exact (Hk a h' Hm).
Qed.

Lemma hoare_ret {A} (P : Held -> Prop) (a : A) (E : Held -> Prop) :
  hoare P (ret a) (fun _ => P) E.
Proof. intros h Hp. exact Hp. Qed.

Lemma hoare_act (P P' : Held -> Prop) (f : Held -> Held) (E : Held -> Prop) :
  (forall h, P h -> P' (f h)) -> hoare P (act f) (fun _ => P') E.
Proof. intros Hf h Hp. exact (Hf h Hp). Qed.

Lemma hoare_read {A} (P : Held -> Prop) (f : Job -> A) (E : Held -> Prop) :
  hoare P (read f) (fun _ => P) E.
Proof. intros h Hp. exact Hp. Qed.

Lemma hoare_call {A} (P : Held -> Prop) (r : PyExn + A) (E : Held -> Prop) :
  (forall h, P h -> E h) -> hoare P (call r) (fun _ => P) E.
Proof. intros He h Hp. unfold call. destruct r; [exact (He h Hp)|exact Hp]. Qed.

Lemma hoare_stage {A} (P : Held -> Prop) (g : Stage A) (E : Held -> Prop) :
  (forall h line, P h -> P (append_log_held line h)) ->
  (forall h, P h -> E h) ->
  hoare P (run_stage g) (fun _ => P) E.
Proof.
  intros Hlog He h Hp. unfold run_stage.
  assert (Hl : P (log_lines (emitted g) h)).
  { unfold log_lines. generalize dependent h.
    induction (emitted g) as [|l ls IH]; intros h Hp; simpl; [exact Hp|].
    apply IH, Hlog, Hp. }
  destruct (outcome g); [exact (He _ Hl)|exact Hl].
Qed.

Lemma hoare_try (P Q E : Held -> Prop) (body : Try unit) (handler : PyExn -> Held -> Held) :
  hoare P body (fun _ => Q) E ->
  (forall e h, E h -> Q (handler e h)) ->
  forall h, P h -> Q (try_except body handler h).
Proof.
  intros Hb Hh h Hp. unfold try_except. specialize (Hb h Hp).
  destruct (body h) as [[e|u] h']; [exact (Hh e h' Hb)|exact Hb].
Qed.

(** ** Regenerating a summary *)

Lemma keeping_assign (h0 h : Held) (f : Job -> Job) :
  (forall x, inputs_of (f x) = inputs_of x) -> keeping h0 h -> keeping h0 (assign f h).
Proof.
  intros Hf (Hb & Ha & Hi). unfold keeping; simpl. rewrite Hf. auto.
Qed.

Lemma keeping_status (h0 h : Held) (v : Status) :
  keeping h0 h -> keeping h0 (assign_status v h).
Proof. intros (Hb & Ha & Hi). unfold keeping; simpl. auto. Qed.

Lemma keeping_save (h0 h : Held) : keeping h0 h -> keeping h0 (save_held h).
Proof. intros H. exact H. Qed.

Lemma keeping_log (h0 h : Held) (line : string) :
  keeping h0 h -> keeping h0 (append_log_held line h).
Proof. intros (Hb & Ha & Hi). unfold keeping; simpl. auto. Qed.

Ltac keep_atom :=
  lazymatch goal with
  | |- hoare _ (read _) _ _ => apply hoare_read
  | |- hoare _ (ret _) _ _ => apply hoare_ret
  | |- hoare _ (call _) _ _ => apply hoare_call; auto
  | |- hoare _ (run_stage _) _ _ =>
      apply hoare_stage; [intros; apply keeping_log; eassumption|auto]
  | |- hoare _ (act (assign_status _)) _ _ =>
      apply hoare_act; intros; apply keeping_status; eassumption
  | |- hoare _ (act save_held) _ _ =>
      apply hoare_act; intros; apply keeping_save; eassumption
  | |- hoare _ (act (append_log_held _)) _ _ =>
      apply hoare_act; intros; apply keeping_log; eassumption
  | |- hoare _ (act (assign _)) _ _ =>
      apply hoare_act; intros; apply keeping_assign; [intros; reflexivity|eassumption]
  end.

Ltac keep_step :=
  cbv beta;
  lazymatch goal with
  | |- hoare _ (if ?c then _ else _) _ _ => destruct c
  | |- hoare _ (bind (if ?c then _ else _) _) _ _ => destruct c
  | |- hoare _ (bind (bind _ _) _) _ _ => eapply hoare_bind; [|intros]
  | |- hoare _ (bind _ _) _ _ => eapply hoare_bind; [keep_atom|intros]
  | |- hoare _ _ _ _ => keep_atom
  end.

Lemma regenerate_try_keeps (w : Services) (job_id : string) (tr : JSON) (h0 : Held) :
  hoare (keeping h0) (regenerate_try w job_id tr) (fun _ => keeping h0) (keeping h0).
Proof. unfold regenerate_try. repeat keep_step. Qed.

Lemma regenerate_for_inputs (w : Services) (job_id : string) (s : AppState) :
  map inputs_of (jobs (regenerate_summary_for w job_id s)) = map inputs_of (jobs s).
Proof.
  unfold regenerate_summary_for.
  destruct (hold s job_id) as [h|] eqn:Hh; [|reflexivity].
  destruct (hold_some _ _ _ Hh) as (Hjobs & _).
  rewrite Hjobs. unfold h_jobs.
  assert (Hk : forall h', keeping h h' ->
                 map inputs_of (jobs (release h')) =
                 map inputs_of (before h ++ j h :: after h)).
  { intros h' (Hb & Ha & Hi). unfold release, h_jobs; simpl.
    rewrite Hb, Ha, !map_app. simpl. rewrite Hi. reflexivity. }
  destruct (negb (truthy_in w (transcript (j h)))).
  - apply Hk. apply keeping_log. repeat split.
  - apply Hk.
    apply (hoare_try (keeping h) (keeping h) (keeping h) _ _
             (regenerate_try_keeps w job_id _ h)).
    + intros e h' H'. unfold regenerate_except.
      apply keeping_log, keeping_save, keeping_status, H'.
    + apply keeping_log, keeping_save, keeping_status.
      apply keeping_assign; [intros; reflexivity|]. repeat split.
Qed.

(** C4.  Whatever the summarizer and the title helper do (return a text,
    return nothing, raise), both regenerations leave the transcript, the
    resolved URL and the file path of every job of the list as they were,
    the regenerated job included. *)
Theorem regenerate_keeps_inputs (w : Services) (job_id : string) (s : AppState) :
  map inputs_of (jobs (regenerate_summary_for w job_id s)) = map inputs_of (jobs s)
  /\ map inputs_of (jobs (regenerate_summary w s)) = map inputs_of (jobs s).
Proof.
  split; [apply regenerate_for_inputs|].
  unfold regenerate_summary.
  destruct (negb (Py.truthy (current_job_id s))); [reflexivity|].
  apply regenerate_for_inputs.
Qed.

Example regenerate_on_sample :
  let view := fun w => map (fun x => (id x, status x, summary x, title x, inputs_of x))
                           (jobs (regenerate_summary w (sample_state Completed))) in
  let inputs := (JStr "hello there", Some "https://example.com/a.mp3", "data/files/a.mp3") in
  let others := fun st id0 => (id0, st, "A summary", "Weekly sync", inputs) in
  view services_ok =
    [others Completed "0a1b2c3d";
     ("deadbeef", Completed, "Topic: budget", "budget", inputs);
     others Error "cafe0001"]
  /\ view services_silent =
    [others Completed "0a1b2c3d";
     ("deadbeef", Completed, "", "Weekly sync", inputs);
     others Error "cafe0001"]
  /\ view services_broken =
    [others Completed "0a1b2c3d";
     ("deadbeef", Error, "", "Weekly sync", inputs);
     others Error "cafe0001"].
Proof. repeat split; vm_compute; reflexivity. Qed.

(** ** The status graph *)

Lemma all_settled_at (pre post : list Job) (x : Job) :
  all_settled (pre ++ x :: post) -> is_settled (status x) = true.
Proof.
  unfold all_settled. rewrite Forall_app. intros (_ & Hx). inversion Hx; assumption.
Qed.

Lemma last_to_snoc (i : string) (log : list Transition) (t : Transition) :
  last_to i (log ++ [t]) = if String.eqb (t_id t) i then Some (t_to t) else last_to i log.
Proof.
  induction log as [|u log IH]; simpl.
  - destruct (String.eqb (t_id t) i); reflexivity.
  - rewrite IH. destruct (String.eqb (t_id t) i); reflexivity.
Qed.

Lemma get_other (pre post : list Job) (x x' : Job) (i : string) :
  id x' = id x -> i <> id x ->
  _get_job (pre ++ x' :: post) i = _get_job (pre ++ x :: post) i.
Proof.
  intros Hid Hi. induction pre as [|y pre IH]; simpl.
  - rewrite Hid.
    destruct (String.eqb_spec (id x) i) as [E|_]; [congruence|reflexivity].
  - rewrite IH. reflexivity.
Qed.

Lemma walking_assign (h0 h : Held) (st : Status) (f : Job -> Job) :
  (forall x, status (f x) = status x /\ id (f x) = id x) ->
  walking h0 st h -> walking h0 st (assign f h).
Proof.
  intros Hf (Hb & Ha & Hi & Hl & Hs & Hlast & Hoth). unfold walking; simpl.
  destruct (Hf (j h)) as (-> & ->). auto 10.
Qed.

(** The first assignment of a status through [j]. *)
Lemma walking_start (h0 h : Held) (v : Status) :
  before h = before h0 -> after h = after h0 -> id (j h) = id (j h0) ->
  h_status_log h = h_status_log h0 ->
  Forall (edge_ok code_edge) (h_status_log h) ->
  code_edge (status (j h)) v = true ->
  walking h0 v (assign_status v h).
Proof.
  intros Hb Ha Hi Hlog Hl He. unfold walking; simpl.
  repeat split; try assumption.
  - apply Forall_app. split; [exact Hl|].
    constructor; [|constructor]. exact He.
  - rewrite last_to_snoc. simpl. rewrite Hi, String.eqb_refl. reflexivity.
  - intros i Hne. rewrite last_to_snoc. simpl. rewrite Hi, Hlog.
    destruct (String.eqb_spec (id (j h0)) i) as [E|_]; [congruence|reflexivity].
Qed.

Lemma walking_status (h0 h : Held) (st v : Status) :
  walking h0 st h -> code_edge st v = true -> walking h0 v (assign_status v h).
Proof.
  intros (Hb & Ha & Hi & Hl & Hs & Hlast & Hoth) He. unfold walking; simpl.
  repeat split; try assumption.
  - apply Forall_app. split; [exact Hl|].
    constructor; [|constructor]. unfold edge_ok; simpl. rewrite Hs. exact He.
  - rewrite last_to_snoc. simpl. rewrite Hi, String.eqb_refl. reflexivity.
  - intros i Hne. rewrite last_to_snoc. simpl. rewrite Hi.
    destruct (String.eqb_spec (id (j h0)) i) as [E|_]; [congruence|exact (Hoth i Hne)].
Qed.

Lemma walking_save (h0 h : Held) (st : Status) : walking h0 st h -> walking h0 st (save_held h).
Proof. intros H. exact H. Qed.

Lemma walking_log (h0 h : Held) (st : Status) (line : string) :
  walking h0 st h -> walking h0 st (append_log_held line h).
Proof.
  intros (Hb & Ha & Hi & Hl & Hs & Hlast & Hoth). unfold walking; simpl. auto 10.
Qed.

Lemma walking_failing (h0 h : Held) (st : Status) :
  is_active st = true -> walking h0 st h -> failing h0 h.
Proof. intros Hact Hw. exists st. split; assumption. Qed.

Ltac walk_atom :=
  lazymatch goal with
  | |- hoare _ (read _) _ _ => apply hoare_read
  | |- hoare _ (ret _) _ _ => apply hoare_ret
  | |- hoare _ (call _) _ _ =>
      apply hoare_call; intros; eapply walking_failing; [|eassumption]; reflexivity
  | |- hoare _ (run_stage _) _ _ =>
      apply hoare_stage;
      [ intros; apply walking_log; eassumption
      | intros; eapply walking_failing; [|eassumption]; reflexivity ]
  | |- hoare _ (act (assign_status _)) _ _ =>
      apply hoare_act; intros; eapply walking_status; [eassumption|reflexivity]
  | |- hoare _ (act save_held) _ _ =>
      apply hoare_act; intros; apply walking_save; eassumption
  | |- hoare _ (act (append_log_held _)) _ _ =>
      apply hoare_act; intros; apply walking_log; eassumption
  | |- hoare _ (act (assign _)) _ _ =>
      apply hoare_act; intros;
      apply walking_assign; [intros; split; reflexivity|eassumption]
  end.

Ltac walk_step :=
  cbv beta;
  lazymatch goal with
  | |- hoare _ (if ?c then _ else _) _ _ => destruct c
  | |- hoare _ (bind (if ?c then _ else _) _) _ _ => destruct c
  | |- hoare _ (bind (bind _ _) _) _ _ => eapply hoare_bind; [|intros]
  | |- hoare _ (bind _ _) _ _ => eapply hoare_bind; [walk_atom|intros]
  | |- hoare _ _ _ _ => walk_atom
  end.

(** The [try] of [run_job], entered at [Running], ends at [Completed] or
    raises at a status of the pipeline. *)
Lemma run_job_try_walks (w : Services) (job_id : string) (h0 : Held) :
  hoare (walking h0 Running) (run_job_try w job_id)
        (fun _ => walking h0 Completed) (failing h0).
Proof. unfold run_job_try. repeat walk_step. Qed.

Lemma regenerate_try_walks (w : Services) (job_id : string) (tr : JSON) (h0 : Held) :
  hoare (walking h0 Summarizing) (regenerate_try w job_id tr)
        (fun _ => walking h0 Completed) (failing h0).
Proof. unfold regenerate_try. repeat walk_step. Qed.

Lemma failing_to_error (h0 h : Held) :
  failing h0 h -> walking h0 Error (assign_status Error h).
Proof.
  intros (st & Hact & Hw). apply (walking_status _ _ _ _ Hw).
  destruct st; try discriminate Hact; reflexivity.
Qed.

Lemma hoare_post {A} (P : Held -> Prop) (m : Try A) (Q Q' : A -> Held -> Prop)
      (E : Held -> Prop) :
  hoare P m Q E -> (forall a h, Q a h -> Q' a h) -> hoare P m Q' E.
Proof.
  intros Hm Hq h Hp. specialize (Hm h Hp).
  destruct (m h) as [[e|a] h']; [exact Hm|exact (Hq a h' Hm)].
Qed.

(** A [try] that walks from [st] to [Completed], with a handler that goes
    to [Error], leaves the job finished. *)
Lemma try_walks (h0 h1 : Held) (st : Status) (body : Try unit)
      (handler : PyExn -> Held -> Held) :
  hoare (walking h0 st) body (fun _ => walking h0 Completed) (failing h0) ->
  (forall e h, failing h0 h -> walking h0 Error (handler e h)) ->
  walking h0 st h1 ->
  exists st', is_settled st' = true /\ walking h0 st' (try_except body handler h1).
Proof.
  intros Hbody Hhandler H1.
  apply (hoare_try (walking h0 st)
           (fun h' => exists st', is_settled st' = true /\ walking h0 st' h')
           (failing h0)); [| |exact H1].
  - apply (hoare_post _ _ _ _ _ Hbody).
    intros _ h' Hw. exists Completed. split; [reflexivity|exact Hw].
  - intros e h' Hf. exists Error. split; [reflexivity|exact (Hhandler e h' Hf)].
Qed.

(** Releasing a job that walked to a finished status leaves the store at
    rest, provided the other jobs were. *)
Lemma rest_after (h0 h : Held) (st : Status) :
  others_rest h0 -> _get_job (before h0) (id (j h0)) = None ->
  is_settled st = true -> walking h0 st h -> at_rest (release h).
Proof.
  intros (Hset & _ & Htr) Hpre Hst (Hb & Ha & Hi & Hl & Hs & Hlast & Hoth).
  unfold at_rest, release, h_jobs, log_ok, tracked; simpl. rewrite Hb, Ha.
  split; [|split; [exact Hl|]].
  - unfold all_settled in *. rewrite Forall_app in Hset. destruct Hset as (H1 & H2).
    apply Forall_app. split; [exact H1|]. constructor; [rewrite Hs; exact Hst|exact H2].
  - intros i y Hget.
    destruct (String.eqb_spec i (id (j h0))) as [->|Hne].
    + rewrite (get_found _ _ _ _ Hpre Hi) in Hget. inversion Hget; subst y.
      rewrite Hs. exact Hlast.
    + rewrite (get_other _ _ (j h0) (j h) i Hi Hne) in Hget.
      rewrite (Hoth i Hne). exact (Htr i y Hne Hget).
Qed.

Lemma others_of_rest (s : AppState) (job_id : string) (h : Held) :
  at_rest s -> hold s job_id = Some h ->
  others_rest h /\ is_settled (status (j h)) = true
  /\ last_to (id (j h)) (h_status_log h) = Some (status (j h)).
Proof.
  intros (Hjobs & Hlog & Htr) Hh.
  destruct (hold_some _ _ _ Hh) as (Hsplit & Hid & Hpre & Hget & _ & _ & _ & Hl).
  unfold log_ok in Hlog. unfold tracked in Htr. rewrite <- Hl in Hlog, Htr.
  rewrite Hsplit in Hjobs, Htr.
  split; [|split].
  - split; [|split; [exact Hlog|]].
    + unfold all_settled, h_jobs in *. rewrite Forall_app in *.
      destruct Hjobs as (H1 & H2). inversion H2; subst. split; assumption.
    + intros i y _ Hy. exact (Htr i y Hy).
  - exact (all_settled_at _ _ _ Hjobs).
  - apply Htr. unfold h_jobs. apply get_found; [rewrite Hid; exact Hpre|reflexivity].
Qed.

(** The pipeline, started on a held job that is queued or finished, leaves
    the store at rest. *)
Lemma run_job_walk (w : Services) (job_id : string) (s : AppState) (h : Held) :
  hold s job_id = Some h ->
  status (j h) = Queued \/ is_settled (status (j h)) = true ->
  others_rest h ->
  at_rest (run_job w job_id s).
Proof.
  intros Hh Hst Hothers.
  destruct (hold_some _ _ _ Hh) as (_ & Hid & Hpre & _).
  unfold run_job. rewrite Hh.
  assert (Hgo : is_active (status (j h)) = false /\ code_edge (status (j h)) Running = true).
  { destruct Hst as [->|Hs]; [split; reflexivity|].
    destruct (status (j h)); try discriminate Hs; split; reflexivity. }
  destruct Hgo as (Hact & Hfirst). rewrite Hact.
  set (h1 := append_log_held _ _).
  assert (H1 : walking h Running h1).
  { unfold h1. apply walking_log, walking_save.
    apply walking_start; try reflexivity; [|exact Hfirst].
    destruct Hothers as (_ & Hl & _). exact Hl. }
  destruct (try_walks h h1 Running _ run_job_except (run_job_try_walks w job_id h))
    as (st & Hst' & Hw); [|exact H1|].
  - intros e h' Hf. unfold run_job_except.
    apply walking_log, walking_save.
    apply walking_assign; [intros; split; reflexivity|].
    apply failing_to_error, Hf.
  - apply (rest_after h _ st Hothers); [rewrite Hid; exact Hpre|exact Hst'|exact Hw].
Qed.

Lemma run_job_rest (w : Services) (job_id : string) (s : AppState) :
  at_rest s -> at_rest (run_job w job_id s).
Proof.
  intros Hs.
  destruct (hold s job_id) as [h|] eqn:Hh.
  - destruct (others_of_rest s job_id h Hs Hh) as (Hothers & Hset & _).
    apply (run_job_walk w job_id s h Hh); [right; exact Hset|exact Hothers].
  - unfold run_job. rewrite Hh. exact Hs.
Qed.

Lemma add_job_rest (f : Fresh) (w : Services) (s : AppState) :
  at_rest s -> at_rest (add_job f w s).
Proof.
  intros Hs. unfold add_job.
  destruct (negb (Py.truthy (Py.strip (audio_url s)))); [exact Hs|].
  destruct Hs as (Hjobs & Hlog & Htr).
  set (job := mkJob (new_id f) _ _ _ _ _ _ _ _ _ _ _ _ _).
  set (s1 := _save _).
  assert (Hh : hold s1 (new_id f) = Some (mkHeld [] job (jobs s) (audio_url s) (new_id f)
                                            (job :: jobs s) (status_log s))).
  { unfold hold, s1, _save; simpl. rewrite String.eqb_refl. reflexivity. }
  apply (run_job_walk w (new_id f) s1 _ Hh); [left; reflexivity|].
  split; [exact Hjobs|]. split; [exact Hlog|].
  intros i y Hne Hy. apply Htr. unfold h_jobs in Hy. simpl in Hy, Hne.
  destruct (String.eqb_spec (new_id f) i) as [E|_]; [congruence|exact Hy].
Qed.

(** A reset to [Queued] of a finished job, then the pipeline. *)
Lemma requeue_rest (w : Services) (job_id : string) (s : AppState) (h : Held)
      (f : Job -> Job) :
  at_rest s -> hold s job_id = Some h ->
  (forall x, id (f x) = id x /\ status (f x) = status x) ->
  at_rest (run_job w job_id (_save (release (assign f (assign_status Queued h))))).
Proof.
  intros Hs Hh Hf.
  destruct (others_of_rest s job_id h Hs Hh) as ((Hset & Hl & Htr) & Hx & _).
  destruct (hold_some _ _ _ Hh) as (_ & Hid & Hpre & _).
  set (s1 := _save _).
  set (x1 := f (with_status Queued (j h))).
  assert (Hid1 : id x1 = id (j h))
    by (unfold x1; destruct (Hf (with_status Queued (j h))) as (-> & _); reflexivity).
  assert (Hh1 : hold s1 job_id =
                Some (mkHeld (before h) x1 (after h) (h_audio_url h) (h_current_job_id h)
                        (before h ++ x1 :: after h)%list
                        (h_status_log h ++ [mkTransition (id (j h)) (status (j h)) Queued])%list)).
  { unfold hold, s1, _save, release, assign, assign_status, h_jobs.
    cbn [jobs before j after audio_url current_job_id jobs_file status_log
         h_audio_url h_current_job_id h_jobs_file h_status_log].
    fold x1.
    rewrite (locate_found (before h) (after h) x1 job_id Hpre); [reflexivity|].
    rewrite Hid1. exact Hid. }
  apply (run_job_walk w job_id s1 _ Hh1).
  - left. simpl. unfold x1. destruct (Hf (with_status Queued (j h))) as (_ & ->). reflexivity.
  - split; [exact Hset|]. simpl. split.
    + apply Forall_app. split; [exact Hl|].
      constructor; [|constructor]. unfold edge_ok; simpl.
      destruct (status (j h)); try discriminate Hx; reflexivity.
    + intros i y Hne Hy. rewrite Hid1 in Hne.
      rewrite last_to_snoc. simpl.
      destruct (String.eqb_spec (id (j h)) i) as [E|_]; [congruence|].
      apply (Htr i y Hne). unfold h_jobs in *. simpl in Hy.
      rewrite (get_other _ _ (j h) x1 i Hid1 Hne) in Hy. exact Hy.
Qed.

Lemma retry_current_rest (w : Services) (s : AppState) :
  at_rest s -> at_rest (retry_current w s).
Proof.
  intros Hs. unfold retry_current, retry_current_reset.
  destruct (negb (Py.truthy (current_job_id s))); [exact Hs|].
  destruct (hold s (current_job_id s)) as [h|] eqn:Hh; [|exact Hs].
  apply (requeue_rest w _ s h
           (fun x => with_summary "" (with_transcript (JStr "")
                                         (with_logs [] (with_error "" x))))
           Hs Hh).
  intros x. split; reflexivity.
Qed.

Lemma retry_job_rest (w : Services) (job_id : string) (s : AppState) :
  at_rest s -> at_rest (retry_job w job_id s).
Proof.
  intros Hs. unfold retry_job, retry_job_reset.
  destruct (hold s job_id) as [h|] eqn:Hh; [|exact Hs].
  apply (requeue_rest w _ s h
           (fun x => (fun y => with_summary (summary y) y) (with_logs [] (with_error "" x)))
           Hs Hh).
  intros x. split; reflexivity.
Qed.

Lemma regenerate_for_rest (w : Services) (job_id : string) (s : AppState) :
  at_rest s -> at_rest (regenerate_summary_for w job_id s).
Proof.
  intros Hs. unfold regenerate_summary_for.
  destruct (hold s job_id) as [h|] eqn:Hh; [|exact Hs].
  destruct (others_of_rest s job_id h Hs Hh) as (Hothers & Hx & Hlast).
  destruct (hold_some _ _ _ Hh) as (_ & Hid & Hpre & _).
  rewrite <- Hid in Hpre.
  assert (H0 : walking h (status (j h)) h).
  { destruct Hothers as (_ & Hl & _). repeat split; try assumption. }
  destruct (negb (truthy_in w (transcript (j h)))).
  - apply (rest_after h _ (status (j h)) Hothers Hpre Hx). apply walking_log, H0.
  - set (h1 := append_log_held _ _).
    assert (H1 : walking h Summarizing h1).
    { unfold h1. apply walking_log, walking_save.
      apply (walking_status h _ (status (j h))).
      - apply walking_assign; [intros; split; reflexivity|exact H0].
      - destruct (status (j h)); try discriminate Hx; reflexivity. }
    destruct (try_walks h h1 Summarizing _ regenerate_except
                (regenerate_try_walks w job_id (transcript (j h)) h))
      as (st & Hst & Hw); [|exact H1|].
    + intros e h' Hf. unfold regenerate_except.
      apply walking_log, walking_save, failing_to_error, Hf.
    + exact (rest_after h _ st Hothers Hpre Hst Hw).
Qed.

Lemma get_filtered (js : list Job) (jid i : string) (y : Job) :
  _get_job (filter (fun x => negb (String.eqb (id x) jid)) js) i = Some y ->
  _get_job js i = Some y.
Proof.
  induction js as [|x js IH]; simpl; [discriminate|].
  destruct (String.eqb_spec (id x) jid) as [Ej|Ej]; simpl.
  - intros Hy. specialize (IH Hy).
    destruct (String.eqb_spec (id x) i) as [Ei|_]; [|exact IH].
    (* the job found has id [i], and every job kept differs from [jid] *)
    exfalso. clear IH. subst jid. rewrite Ei in Hy.
    induction js as [|z js IHz]; simpl in Hy; [discriminate|].
    destruct (String.eqb_spec (id z) i) as [Ez|Ez]; simpl in Hy; [exact (IHz Hy)|].
    destruct (String.eqb_spec (id z) i) as [Ez'|_]; [congruence|exact (IHz Hy)].
  - destruct (String.eqb (id x) i); [intros H; exact H|exact IH].
Qed.

Lemma delete_current_rest (s : AppState) : at_rest s -> at_rest (delete_current s).
Proof.
  intros (Hjobs & Hlog & Htr). unfold delete_current.
  destruct (negb (Py.truthy (current_job_id s))); [repeat split; assumption|].
  split; [|split; [exact Hlog|]].
  - simpl. unfold all_settled in *. rewrite Forall_forall in *.
    intros x Hx. apply filter_In in Hx. apply Hjobs. tauto.
  - intros i y Hy. simpl in Hy. apply Htr. exact (get_filtered _ _ _ _ Hy).
Qed.

Lemma exec_rest (o : Op) (s : AppState) : at_rest s -> at_rest (exec o s).
Proof.
  intros Hs. destruct o; simpl.
  - exact Hs.
  - apply add_job_rest; exact Hs.
  - exact Hs.
  - apply run_job_rest; exact Hs.
  - apply retry_current_rest; exact Hs.
  - apply retry_job_rest; exact Hs.
  - unfold regenerate_summary.
    destruct (negb (Py.truthy (current_job_id s))); [exact Hs|].
    apply regenerate_for_rest; exact Hs.
  - apply regenerate_for_rest; exact Hs.
  - apply delete_current_rest; exact Hs.
  - unfold delete_by_id. apply delete_current_rest. exact Hs.
Qed.

Lemma initial_rest : at_rest initial_state.
Proof. split; [constructor|]. split; [constructor|]. intros i x H. discriminate H. Qed.

Lemma exec_all_rest (ops : list Op) (s : AppState) : at_rest s -> at_rest (exec_all ops s).
Proof.
  unfold exec_all. revert s.
  induction ops as [|o ops IH]; intros s Hs; simpl; [exact Hs|].
  apply IH. apply exec_rest. exact Hs.
Qed.

(** The history and the store agree: between two operations every job is
    completed or in error, and the status of the job found under an id is
    the one the history recorded last under that id. *)
Lemma history_matches_store (ops : list Op) :
  let s := exec_all ops initial_state in
  Forall (fun x => status x = Completed \/ status x = Error) (jobs s)
  /\ forall i x, _get_job (jobs s) i = Some x ->
                 last_to i (status_log s) = Some (status x).
Proof.
  destruct (exec_all_rest ops initial_state initial_rest) as (Hjobs & _ & Htr).
  split; [|exact Htr].
  eapply Forall_impl; [|exact Hjobs]. simpl.
  intros x Hx. destruct (status x); try discriminate Hx; auto.
Qed.

(** C1, as stated, fails: [run_job] on a completed job assigns ["running"]
    straight away, an edge the graph of the specification does not have. *)
Lemma rerun_leaves_spec_graph :
  map (fun t => (t_from t, t_to t)) (status_log (exec_all rerun_ops initial_state)) =
    [(Queued, Running); (Running, Downloading); (Downloading, Transcribing);
     (Transcribing, Summarizing); (Summarizing, Completed);
     (Completed, Running); (Running, Downloading); (Downloading, Transcribing);
     (Transcribing, Summarizing); (Summarizing, Completed)]
  /\ spec_edge Completed Running = false
  /\ ~ Forall (edge_ok spec_edge) (status_log (exec_all rerun_ops initial_state)).
Proof.
  split; [vm_compute; reflexivity|]. split; [reflexivity|].
  intros H. rewrite Forall_forall in H.
  specialize (H (mkTransition "0a1b2c3d" Completed Running)).
  assert (Hin : In (mkTransition "0a1b2c3d" Completed Running)
                   (status_log (exec_all rerun_ops initial_state))).
  { vm_compute. do 5 right. left. reflexivity. }
  specialize (H Hin). discriminate H.
Qed.

(** C1, amended.  From the empty store, whatever operations are invoked
    and whatever the services answer, every assignment to a job's status is
    an edge of the graph of the code: an edge of the specification's graph
    or a pipeline start from [Completed] or [Error]; [Transcribing] is
    entered from [Downloading] only, and [Queued] from [Error] or
    [Completed] only.  The history these assignments leave agrees with the
    store: between two operations every job is completed or in error, and
    the status of the job found under an id is the one recorded last under
    that id. *)
Theorem status_follows_code_graph (ops : list Op) :
  let s := exec_all ops initial_state in
  Forall (fun t =>
            code_edge (t_from t) (t_to t) = true
            /\ (spec_edge (t_from t) (t_to t) = true
                \/ (t_to t = Running /\ (t_from t = Completed \/ t_from t = Error)))
            /\ (t_to t = Transcribing -> t_from t = Downloading)
            /\ (t_to t = Queued -> t_from t = Error \/ t_from t = Completed))
         (status_log s)
  /\ Forall (fun x => status x = Completed \/ status x = Error) (jobs s)
  /\ (forall i x, _get_job (jobs s) i = Some x ->
                  last_to i (status_log s) = Some (status x)).
Proof.
  intros s. split; [|exact (history_matches_store ops)].
  destruct (exec_all_rest ops initial_state initial_rest) as (_ & Hlog & _).
  unfold log_ok in Hlog. fold s in Hlog. rewrite Forall_forall in *.
  intros t Ht. specialize (Hlog t Ht). unfold edge_ok in Hlog.
  split; [exact Hlog|].
  destruct (t_from t), (t_to t); try discriminate Hlog;
    (split; [first [left; reflexivity | right; split; [reflexivity|auto]]|]);
    split; intros E; try discriminate E; auto.
Qed.

(** * Properties of the downloader *)

Lemma string_length_app (a b : string) :
  String.length (a ++ b) = String.length a + String.length b.
Proof. induction a as [|c a IH]; simpl; [reflexivity|rewrite IH; reflexivity]. Qed.

Lemma string_app_assoc (a b c : string) : (a ++ b) ++ c = a ++ (b ++ c).
Proof. induction a as [|x a IH]; simpl; [reflexivity|rewrite IH; reflexivity]. Qed.

Lemma string_app_nil_r (a : string) : a ++ "" = a.
Proof. induction a as [|x a IH]; simpl; [reflexivity|rewrite IH; reflexivity]. Qed.

Lemma truthy_length (s : string) : Py.truthy s = true -> 0 < String.length s.
Proof. destruct s; simpl; [discriminate|lia]. Qed.

Lemma sorted_snoc (l : list nat) (x : nat) :
  StronglySorted lt l -> Forall (fun b => b < x) l -> StronglySorted lt (l ++ [x]).
Proof.
  induction 1 as [|a l Hs IH Ha]; intros Hx; simpl.
  - repeat constructor.
  - inversion Hx; subst. constructor; [apply IH; assumption|].
    apply Forall_app. split; [assumption|]. constructor; [assumption|constructor].
Qed.

Lemma download_step_ok (l : Loop) (c : string * Q) : loop_ok l -> loop_ok (download_step l c).
Proof.
  intros (Hs & Hb & Hw & Hn & He). destruct c as [chunk now]. unfold download_step.
  destruct (Py.truthy chunk) eqn:Hc; simpl; [|repeat split; assumption].
  apply truthy_length in Hc.
  destruct (throttle_open now (last_emit l)); unfold loop_ok, previous_report; simpl;
    rewrite string_length_app, <- Hw.
  - split; [|split; [|split; [reflexivity|split]]].
    + apply sorted_snoc; [assumption|].
      eapply Forall_impl; [|exact Hb]. simpl. intros; lia.
    + apply Forall_app. split.
      * eapply Forall_impl; [|exact Hb]. simpl. intros; lia.
      * constructor; [lia|constructor].
    + rewrite !length_app, Hn. reflexivity.
    + rewrite last_last. reflexivity.
  - split; [assumption|]. split; [|split; [reflexivity|split; [exact Hn|exact He]]].
    eapply Forall_impl; [|exact Hb]. simpl. intros; lia.
Qed.

Lemma download_fold_ok (chunks : list (string * Q)) (l : Loop) :
  loop_ok l -> loop_ok (fold_left download_step chunks l).
Proof.
  revert l. induction chunks as [|c cs IH]; intros l Hl; simpl; [exact Hl|].
  apply IH, download_step_ok, Hl.
Qed.

Lemma download_loop_ok (chunks : list (string * Q)) : loop_ok (download_loop chunks).
Proof. apply download_fold_ok. repeat split; simpl; constructor. Qed.

Lemma download_fold_written (chunks : list (string * Q)) (l : Loop) :
  written (fold_left download_step chunks l) = written l ++ body_bytes chunks.
Proof.
  revert l. induction chunks as [|[chunk now] cs IH]; intros l; simpl.
  - rewrite string_app_nil_r. reflexivity.
  - rewrite IH. unfold download_step.
    destruct chunk as [|a chunk]; simpl; [reflexivity|].
    destruct (throttle_open now (last_emit l)); simpl; rewrite string_app_assoc; reflexivity.
Qed.

Lemma download_loop_snoc (chunks : list (string * Q)) (c : string * Q) :
  download_loop (chunks ++ [c]) = download_step (download_loop chunks) c.
Proof. unfold download_loop. rewrite fold_left_app. reflexivity. Qed.

(** The extension guessed is an audio one exactly when the URL or the
    content type, as sent, carries one of the tokens [_guess_ext] knows. *)
Lemma guess_ext_audio (url ctype : string) :
  is_audio_ext (_guess_ext url ctype) =
  Py.contains ".mp3" (Py.lower url) || Py.contains ".m4a" (Py.lower url)
  || Py.contains ".wav" (Py.lower url)
  || Py.contains "mpeg" ctype || Py.contains "wav" ctype || Py.contains "mp4" ctype
  || Py.contains "mp4a" ctype || Py.contains "aac" ctype.
Proof.
  unfold _guess_ext.
  destruct (Py.contains ".mp3" (Py.lower url)); [reflexivity|].
  destruct (Py.contains ".m4a" (Py.lower url)); [reflexivity|].
  destruct (Py.contains ".wav" (Py.lower url)); [reflexivity|].
  destruct (Py.contains "mpeg" ctype); [reflexivity|].
  destruct (Py.contains "wav" ctype); [reflexivity|].
  destruct (Py.contains "mp4" ctype); [reflexivity|].
  destruct (Py.contains "mp4a" ctype); [reflexivity|].
  destruct (Py.contains "aac" ctype); reflexivity.
Qed.

(** C7, as stated, fails: a response typed [video/mp4], fetched from a URL
    without an audio extension, is neither audio-like nor an octet stream,
    and yet the download returns the path of a [.m4a] file. *)
Lemma video_is_accepted :
  spec_accepts "https://example.com/clip" video_response = false
  /\ download_audio_file no_pct (inr video_response) "0a1b2c3d" "https://example.com/clip"
     = mkDownloaded
         (mkStage ["Downloading audio ..."; "download: 5/5 bytes (?%)"]
                  (inr "data/files/0a1b2c3d.m4a"))
         (Some ("data/files/0a1b2c3d.m4a", "hello")).
Proof. split; vm_compute; reflexivity. Qed.

(** C7, amended.  For a response without HTTP error whose content-length is
    absent or an integer and whose body arrives whole, the download raises
    the content-type error, before any file is opened, exactly when the
    lower-cased content type contains neither [audio] nor [octet-stream] and
    the extension guessed from URL and content type is none of [.mp3],
    [.m4a], [.wav]; otherwise it returns the path of the file it wrote.  The
    guessed extension is an audio one when the lower-cased URL contains
    [.mp3], [.m4a] or [.wav], and also when the content type as sent
    contains [mpeg], [wav], [mp4] or [aac]. *)
Theorem download_content_type (format_pct : nat -> Z -> string) (r : Streamed)
        (job_id url : string) (total : Z) :
  http_error r = None ->
  match content_length r with Some v => py_int v | None => Some 0%Z end = Some total ->
  body_error r = None ->
  let ctype := Py.or_empty (content_type r) in
  let path := "data/files/" ++ job_id ++ _guess_ext url ctype in
  download_audio_file format_pct (inr r) job_id url =
    (if accepts url r
     then mkDownloaded
            (mkStage ("Downloading audio ..."
                      :: map (progress_line format_pct total)
                           (reported (download_loop (body r))))
                     (inr path))
            (Some (path, body_bytes (body r)))
     else mkDownloaded
            (mkStage ["Downloading audio ..."] (inl (content_type_error (Py.lower ctype))))
            None)
  /\ accepts url r =
     spec_accepts url r
     || Py.contains "mpeg" ctype || Py.contains "wav" ctype || Py.contains "mp4" ctype
     || Py.contains "mp4a" ctype || Py.contains "aac" ctype.
Proof.
  intros Hhttp Hlen Hbody ctype path. split.
  - unfold download_audio_file, accepts. rewrite Hhttp, Hlen, Hbody.
    fold ctype. fold path.
    destruct (Py.contains "audio" (Py.lower ctype) || Py.contains "octet-stream" (Py.lower ctype)
              || is_audio_ext (_guess_ext url ctype)); simpl; [|reflexivity].
    unfold download_loop. rewrite download_fold_written. reflexivity.
  - unfold accepts, spec_accepts. fold ctype. rewrite guess_ext_audio.
    destruct (Py.contains "audio" (Py.lower ctype)); [reflexivity|].
    destruct (Py.contains "octet-stream" (Py.lower ctype)); [reflexivity|].
    simpl. rewrite <- !orb_assoc. reflexivity.
Qed.

Lemma download_content_type_witness :
  download_audio_file no_pct (inr html_response) "0a1b2c3d" "https://example.com/page"
  = mkDownloaded
      (mkStage ["Downloading audio ..."]
         (inl (content_type_error "text/html; charset=utf-8")))
      None.
Proof.
  exact (proj1 (download_content_type no_pct html_response "0a1b2c3d"
                  "https://example.com/page" 0%Z eq_refl eq_refl eq_refl)).
Defined.

(** C8, as stated, fails: of two chunks written 50 ms apart only the first
    is reported, so the last progress line says 3 bytes of a 5-byte file. *)
Lemma final_line_dropped :
  download_audio_file no_pct (inr quick_response) "0a1b2c3d" "https://example.com/a.mp3"
  = mkDownloaded
      (mkStage ["Downloading audio ..."; "download: 3/5 bytes (?%)"]
               (inr "data/files/0a1b2c3d.mp3"))
      (Some ("data/files/0a1b2c3d.mp3", "abcde"))
  /\ reported (download_loop (body quick_response)) = [3]
  /\ String.length (written (download_loop (body quick_response))) = 5.
Proof. repeat split; vm_compute; reflexivity. Qed.

(** C8, amended.  The byte counts of the progress lines increase strictly
    and none exceeds the size of the file written; the file holds the body,
    chunk after chunk; every progress line has its clock reading.  An empty
    chunk changes nothing.  A non-empty chunk is written, and it is
    reported, with the size the file then has, exactly when the clock read
    after writing it is more than 0.1 s past the reading of the previous
    report (past 0 when nothing was reported yet); a chunk that comes sooner
    goes unreported, the last one included, and the reading of the previous
    report stays the one to compare with. *)
Theorem download_progress (chunks : list (string * Q)) :
  let l := download_loop chunks in
  StronglySorted lt (reported l)
  /\ Forall (fun b => b <= String.length (written l)) (reported l)
  /\ written l = body_bytes chunks
  /\ List.length (report_times l) = List.length (reported l)
  /\ reported (download_loop []) = [] /\ report_times (download_loop []) = []
  /\ (forall now, download_loop (chunks ++ [("", now)]) = l)
  /\ forall chunk now,
       Py.truthy chunk = true ->
       let l' := download_loop (chunks ++ [(chunk, now)]) in
       written l' = written l ++ chunk
       /\ if throttle_open now (last (report_times l) 0%Q)
          then reported l' = (reported l ++ [String.length (written l')])%list
               /\ report_times l' = (report_times l ++ [now])%list
          else reported l' = reported l /\ report_times l' = report_times l.
Proof.
  intros l.
  destruct (download_loop_ok chunks) as (Hs & Hb & Hw & Hn & He). fold l in Hs, Hb, Hw, Hn, He.
  split; [exact Hs|]. split; [rewrite <- Hw; exact Hb|].
  split; [unfold l, download_loop; rewrite download_fold_written; reflexivity|].
  split; [exact Hn|]. split; [reflexivity|]. split; [reflexivity|].
  split; [intros now; rewrite download_loop_snoc; reflexivity|].
  intros chunk now Hc l'. unfold l'. rewrite download_loop_snoc. fold l.
  unfold download_step. rewrite Hc. simpl. rewrite He. unfold previous_report.
  destruct (throttle_open now (last (report_times l) 0%Q)); simpl;
    [|split; [reflexivity|split; reflexivity]].
  split; [reflexivity|]. split; [|reflexivity].
  rewrite string_length_app, <- Hw. reflexivity.
Qed.

(** Three chunks 60 ms apart: the second comes too soon after the first,
    the third is more than 0.1 s past the first and is reported. *)
Example third_chunk_reported :
  let l := download_loop [("a", (1700000000 # 1)%Q); ("b", (170000000006 # 100)%Q);
                          ("c", (170000000012 # 100)%Q)] in
  reported l = [1; 3]
  /\ report_times l = [(1700000000 # 1)%Q; (170000000012 # 100)%Q].
Proof. split; vm_compute; reflexivity. Qed.

(** * Properties of the title extraction *)





(** The line scan returns the first line that qualifies, stripped, cleaned
    and cut. *)
Lemma title_by_line_find (lines : list string) :
  title_by_line lines =
  option_map (fun line => limit (re_delete pat_markup (Py.strip line)))
             (find line_qualifies lines).
Proof.
  induction lines as [|line more IH]; simpl; [reflexivity|].
  unfold line_qualifies at 1.
  destruct (Py.strip line) as [|c s] eqn:E; simpl.
  - exact IH.
  - destruct (Nat.ltb 10 (S (String.length s))); [|exact IH].
    simpl. rewrite E. reflexivity.
Qed.




Example title_from_topic :
  extract_title_from_summary
    ("## Summary" ++ nl ++ "Topic: **Budget** review for Q3. Next steps follow." ++ nl)
  = "Budget review for Q3".
Proof. vm_compute. reflexivity. Qed.

Example title_from_sentence :
  extract_title_from_summary
    "The team met to discuss the roadmap and agreed on the next three milestones"
  = "The team met to discuss the roadmap and agreed ...".
Proof. vm_compute. reflexivity. Qed.

Example title_from_line :
  extract_title_from_summary ("1) kickoff" ++ nl ++ "2) budget for the third quarter")
  = "2) budget for the third quarter".
Proof. vm_compute. reflexivity. Qed.

Example title_default :
  extract_title_from_summary ("# Notes" ++ nl ++ "short") = default_title.
Proof. vm_compute. reflexivity. Qed.

(** * Properties of the summarizer *)

(** The shapes of an event are tried in order and the first that matches
    wins: an event typed [response.output_text.delta] that also carries an
    [output_text] field is a snapshot, which replaces the buffer; its
    [delta] is not appended, and the stream below yields "Bye". *)
Lemma snapshot_beats_delta :
  key_is delta_with_snapshot "type" "response.output_text.delta" = true
  /\ json_loads (dquoted "{'type':'response.output_text.delta','delta':'world','output_text':'Bye'}")
     = Some delta_with_snapshot
  /\ on_event nonzero_all no_repr "Hello " delta_with_snapshot = "Bye"
  /\ on_event nonzero_all no_repr "Hello " delta_with_snapshot
     <> "Hello " ++ text_of no_repr delta_with_snapshot "delta"
  /\ summarize_with_gpt nonzero_all no_repr true (inr (mkSse 200 snapshot_lines None))
       "0a1b2c3d" (JStr "hello there") ""
     = mkStage ["Calling GPT endpoint (Responses API, stream) ..."; "GPT call complete"]
               (inr (Some "Bye")).
Proof.
  split; [reflexivity|]. split; [vm_compute; reflexivity|].
  split; [reflexivity|]. split; [vm_compute; discriminate|].
  vm_compute. reflexivity.
Qed.



(** A delta whose text holds an escape beyond 255 (here the right single
    quotation mark, 2019) is appended like any other; the character is
    spelled by its three UTF-8 bytes. *)
Example delta_with_escape :
  summarize_with_gpt nonzero_all no_repr true
    (inr (mkSse 200 [dquoted "data: {'type':'output_text.delta','delta':'It\u2019s '}";
                     dquoted "data: {'type':'output_text.delta','delta':'done \ud83d\ude00'}"]
                None))
    "0a1b2c3d" (JStr "hello there") ""
  = mkStage ["Calling GPT endpoint (Responses API, stream) ..."; "GPT call complete"]
            (inr (Some ("It" ++ String "226" (String "128" (String "153" "s done "))
                        ++ String "240" (String "159" (String "152" (String "128" "")))))).
Proof. vm_compute. reflexivity. Qed.

(** * Properties of the link resolver *)

Section ResolverFacts.

Variable float_nonzero : string -> bool.
Variable html_unescape : string -> string.
Variable net : string -> PyExn + Page.

(** The last strategy returns: a link or the original URL. *)
Lemma by_page_returns (lines asked : list string) (url : string) :
  exists v, outcome (res_stage (resolve_by_page html_unescape net lines asked url)) = inr v.
Proof.
  unfold resolve_by_page.
  destruct (share_page html_unescape net url) as [e|[l [found|]]]; eexists; reflexivity.
Qed.

Lemma by_page_fallback (lines asked : list string) (url : string) :
  match share_page html_unescape net url with
  | inr a => att_found a = None
  | inl _ => True
  end ->
  outcome (res_stage (resolve_by_page html_unescape net lines asked url)) = inr url.
Proof.
  unfold resolve_by_page.
  destruct (share_page html_unescape net url) as [e|[l [found|]]]; simpl;
    intros H; [reflexivity|discriminate H|reflexivity].
Qed.

Lemma fetch_raises (u : string) (e : PyExn) : net u = inl e -> fetch net u = inl e.
Proof. unfold fetch. intros ->. reflexivity. Qed.

(** A request that raises makes its strategy fail; nothing escapes. *)
Lemma down_all_fail (url : string) :
  (forall u, exists e, net u = inl e) -> all_fail float_nonzero html_unescape net url.
Proof.
  intros Hdown. split.
  - intros token _ _. unfold temp_api, content_api.
    destruct (Hdown ("https://api.plaud.ai/file/share-file-temp/" ++ token)) as (e1 & H1).
    destruct (Hdown ("https://api.plaud.ai/file/share-content/" ++ token)) as (e2 & H2).
    rewrite (fetch_raises _ _ H1), (fetch_raises _ _ H2). split; reflexivity.
  - unfold share_page. destruct (Hdown url) as (e & He).
    rewrite (fetch_raises _ _ He). exact I.
Qed.

Lemma all_fail_original (job_id url : string) :
  all_fail float_nonzero html_unescape net url ->
  outcome (res_stage (resolve_plaud_audio_url float_nonzero html_unescape net job_id url)) = inr url.
Proof.
  intros (Hapi & Hpage). unfold resolve_plaud_audio_url.
  destruct (negb (Py.contains "plaud.ai" url)); [reflexivity|].
  destruct (share_token url) as [token|]; [|apply by_page_fallback, Hpage].
  destruct (Py.truthy token) eqn:Ht; [|apply by_page_fallback, Hpage].
  destruct (Hapi token eq_refl Ht) as (H1 & H2).
  destruct (temp_api float_nonzero net token) as [l1 [v|]]; [discriminate H1|].
  destruct (content_api float_nonzero net token) as [l2 [c|]]; [discriminate H2|].
  apply by_page_fallback, Hpage.
Qed.

(** C6, amended.  [resolve_plaud_audio_url] returns for every URL,
    whatever the network does.  A URL that does not hold the text
    [plaud.ai] (the test of the code is ["plaud.ai" in url], on the whole
    URL) is returned unchanged, with no log line and no request.  When
    every strategy fails the original URL is returned; in particular when
    every request raises. *)
Theorem resolve_never_raises (job_id url : string) :
  (exists v, outcome (res_stage (resolve_plaud_audio_url float_nonzero html_unescape net job_id url)) = inr v)
  /\ (Py.contains "plaud.ai" url = false ->
      resolve_plaud_audio_url float_nonzero html_unescape net job_id url
      = mkResolved (mkStage [] (inr url)) [])
  /\ (all_fail float_nonzero html_unescape net url ->
      outcome (res_stage (resolve_plaud_audio_url float_nonzero html_unescape net job_id url)) = inr url)
  /\ ((forall u, exists e, net u = inl e) ->
      outcome (res_stage (resolve_plaud_audio_url float_nonzero html_unescape net job_id url)) = inr url).
Proof.
  split.
  { unfold resolve_plaud_audio_url.
    destruct (negb (Py.contains "plaud.ai" url)); [eexists; reflexivity|].
    destruct (share_token url) as [token|]; [|apply by_page_returns].
    destruct (Py.truthy token); [|apply by_page_returns].
    destruct (temp_api float_nonzero net token) as [l1 [v|]]; [eexists; reflexivity|].
    destruct (content_api float_nonzero net token) as [l2 [c|]]; [eexists; reflexivity|].
    apply by_page_returns. }
  split.
  { intros H. unfold resolve_plaud_audio_url. rewrite H. reflexivity. }
  split; [apply all_fail_original|].
  intros Hdown. apply all_fail_original, down_all_fail, Hdown.
Qed.

End ResolverFacts.

(** C6, as stated, fails: a URL of another site that holds the text
    [plaud.ai] in its path is not on the special-link domain, and yet it is
    requested and the link found on its page is returned in its place. *)
Lemma resolve_off_domain :
  let url := "https://example.com/talks/plaud.ai-review" in
  url_host url = "example.com"
  /\ spec_on_domain url = false
  /\ resolve_plaud_audio_url nonzero_all no_unescape net_review "0a1b2c3d" url
     = mkResolved
         (mkStage ["Resolving Plaud link ...";
                   "Plaud resolved (html) " ++ arrow ++ " https://cdn.example.com/talks/review.mp3"]
                  (inr "https://cdn.example.com/talks/review.mp3"))
         [url]
  /\ resolve_plaud_audio_url nonzero_all no_unescape net_review "0a1b2c3d" url
     <> mkResolved (mkStage [] (inr url)) [].
Proof.
  cbv zeta. split; [vm_compute; reflexivity|]. split; [vm_compute; reflexivity|].
  split; [vm_compute; reflexivity|]. vm_compute. discriminate.
Qed.

Example resolve_plain_url :
  resolve_plaud_audio_url nonzero_all no_unescape net_down "0a1b2c3d" "https://example.com/a.mp3"
  = mkResolved (mkStage [] (inr "https://example.com/a.mp3")) [].
Proof. vm_compute. reflexivity. Qed.

Example resolve_network_down :
  resolve_plaud_audio_url nonzero_all no_unescape net_down "0a1b2c3d"
    "https://web.plaud.ai/share/abc123"
  = mkResolved
      (mkStage ["Resolving Plaud link ...";
                "Plaud temp API failed: connection refused";
                "Plaud content API failed: connection refused";
                "Plaud resolution error: connection refused; using original URL"]
               (inr "https://web.plaud.ai/share/abc123"))
      ["https://api.plaud.ai/file/share-file-temp/abc123";
       "https://api.plaud.ai/file/share-content/abc123";
       "https://web.plaud.ai/share/abc123"].
Proof. vm_compute. reflexivity. Qed.

Example resolve_by_temp_api :
  resolve_plaud_audio_url nonzero_all no_unescape net_temp "0a1b2c3d"
    "https://web.plaud.ai/share/abc123"
  = mkResolved
      (mkStage ["Resolving Plaud link ...";
                "Plaud API resolved (temp) " ++ arrow ++ " https://s3.example.com/a.mp3?sig=1"]
               (inr "https://s3.example.com/a.mp3?sig=1"))
      ["https://api.plaud.ai/file/share-file-temp/abc123"].
Proof. vm_compute. reflexivity. Qed.

(** * The assembled pipeline *)

(** The title helper returns for every summary and every answer of the chat
    endpoint; without configuration, and whenever the endpoint gives no
    usable title, it is the deterministic extraction. *)
Lemma generate_title_falls_back (configured : bool) (post : PyExn + Chat) (summary : string) :
  generate_title_from_summary configured post summary =
  match summary with
  | EmptyString => ""
  | _ =>
      match (if configured then title_by_model post else None) with
      | Some title => title
      | None => extract_title_from_summary summary
      end
  end.
Proof.
  unfold generate_title_from_summary.
  destruct summary; [reflexivity|]. destruct configured; reflexivity.
Qed.

(** A URL is submitted and the pipeline runs to its end. *)
Example pipeline_completes :
  jobs (exec_all sample_ops initial_state) =
  [mkJob "0a1b2c3d" "https://example.com/a.mp3" Completed 1700000000
         "2023-11-14 22:13:20" "" "Hello world" "/job/0a1b2c3d" ""
         "data/files/0a1b2c3d.mp3" (JStr "Topic: the quarterly budget. We agreed.")
         "Hello world"
         ["Starting pipeline"; "Downloading audio ..."; "download: 5/5 bytes (?%)";
          "Downloaded to data/files/0a1b2c3d.mp3";
          "Uploading to AssemblyAI ..."; "transcribe: status=completed";
          "Transcription complete: 39 chars";
          "Calling GPT endpoint (Responses API, stream) ..."; "GPT call complete";
          "Summary complete: 11 chars"; "Pipeline done."]
         (Some "https://example.com/a.mp3")]
  /\ jobs_file (exec_all sample_ops initial_state) = jobs (exec_all sample_ops initial_state).
Proof. split; vm_compute; reflexivity. Qed.

(** After a full retry and a regeneration the job is completed again, and
    its history reads as the graph prescribes. *)
Example retry_then_regenerate :
  let s := exec_all (sample_ops ++ [RetryCurrent (services sample_world);
                                    RegenerateSummary (services sample_world)])
                    initial_state in
  map status (jobs s) = [Completed]
  /\ map (fun t => (t_from t, t_to t)) (status_log s) =
     [(Queued, Running); (Running, Downloading); (Downloading, Transcribing);
      (Transcribing, Summarizing); (Summarizing, Completed);
      (Completed, Queued);
      (Queued, Running); (Running, Downloading); (Downloading, Transcribing);
      (Transcribing, Summarizing); (Summarizing, Completed);
      (Completed, Summarizing); (Summarizing, Completed)].
Proof. split; vm_compute; reflexivity. Qed.

(** A download refused for its content type ends the job in error. *)
Example pipeline_fails_on_html :
  let w := mkWorld nonzero_all no_repr no_unescape no_pct net_down
             (fun _ => inr html_response) (mkStage [] (inr JNull)) false
             (inl refused) (inl refused) in
  let s := exec_all [SetAudioUrl "https://example.com/page";
                     AddJob (mkFresh "0a1b2c3d" 1700000000 "2023-11-14 22:13:20" "")
                            (services w)] initial_state in
  map (fun x => (status x, error x)) (jobs s) =
    [(Error, "RuntimeError: URL did not resolve to audio content-type (got 'text/html; charset=utf-8')")]
  /\ map (fun t => (t_from t, t_to t)) (status_log s) =
     [(Queued, Running); (Running, Downloading); (Downloading, Error)].
Proof. split; vm_compute; reflexivity. Qed.

(** * Further properties of the job store *)

(** ** Frame rules for a held job *)

Lemma framed_refl (h : Held) : framed h h.
Proof. repeat split. exists []. rewrite app_nil_r. reflexivity. Qed.

Lemma framed_trans (h0 h1 h2 : Held) : framed h0 h1 -> framed h1 h2 -> framed h0 h2.
Proof.
  intros (Hb & Ha & Hi & Hu & Hc & m1 & Hl) (Hb' & Ha' & Hi' & Hu' & Hc' & m2 & Hl').
  unfold framed. rewrite Hb', Ha', Hi', Hu', Hc'. repeat split; try assumption.
  exists (m1 ++ m2)%list. rewrite Hl', Hl, app_assoc. reflexivity.
Qed.

Lemma framed_assign (h0 h : Held) (f : Job -> Job) :
  (forall x, identity_of (f x) = identity_of x /\ logs (f x) = logs x) ->
  framed h0 h -> framed h0 (assign f h).
Proof.
  intros Hf (Hb & Ha & Hi & Hu & Hc & Hl). unfold framed; simpl.
  destruct (Hf (j h)) as (-> & ->). auto 10.
Qed.

Lemma framed_status (h0 h : Held) (v : Status) : framed h0 h -> framed h0 (assign_status v h).
Proof. intros (Hb & Ha & Hi & Hu & Hc & Hl). unfold framed; simpl. auto 10. Qed.

Lemma framed_save (h0 h : Held) : framed h0 h -> framed h0 (save_held h).
Proof. intros H. exact H. Qed.

Lemma framed_log (h0 h : Held) (line : string) :
  framed h0 h -> framed h0 (append_log_held line h).
Proof.
  intros (Hb & Ha & Hi & Hu & Hc & more & Hl). unfold framed; simpl.
  repeat split; try assumption.
  exists (more ++ [line])%list. rewrite Hl, app_assoc. reflexivity.
Qed.

Lemma tidy_assign (h0 h : Held) (st : Status) (f : Job -> Job) :
  (forall x, identity_of (f x) = identity_of x /\ logs (f x) = logs x
             /\ error (f x) = error x /\ status (f x) = status x) ->
  tidy h0 st h -> tidy h0 st (assign f h).
Proof.
  intros Hf (Hfr & He & Hs). split; [|split].
  - apply framed_assign; [|exact Hfr]. intros x. destruct (Hf x) as (H1 & H2 & _). auto.
  - simpl. destruct (Hf (j h)) as (_ & _ & -> & _). exact He.
  - simpl. destruct (Hf (j h)) as (_ & _ & _ & ->). exact Hs.
Qed.

Lemma tidy_status (h0 h : Held) (st v : Status) :
  tidy h0 st h -> tidy h0 v (assign_status v h).
Proof.
  intros (Hfr & He & Hs). split; [apply framed_status, Hfr|]. split; [exact He|reflexivity].
Qed.

Lemma tidy_save (h0 h : Held) (st : Status) : tidy h0 st h -> tidy h0 st (save_held h).
Proof. intros H. exact H. Qed.

Lemma tidy_log (h0 h : Held) (st : Status) (line : string) :
  tidy h0 st h -> tidy h0 st (append_log_held line h).
Proof.
  intros (Hfr & He & Hs). split; [apply framed_log, Hfr|]. split; [exact He|exact Hs].
Qed.

Lemma tidy_some (h0 h : Held) (st : Status) : tidy h0 st h -> tidy_any h0 h.
Proof. intros H. exists st. exact H. Qed.

Lemma saved_log (line : string) (h : Held) : saved (append_log_held line h).
Proof. reflexivity. Qed.

Lemma closed_by_log (line : string) (h : Held) : closed_by line (append_log_held line h).
Proof. split; [reflexivity|]. exists (logs (j h)). reflexivity. Qed.

Ltac tidy_atom :=
  lazymatch goal with
  | |- hoare _ (read _) _ _ => apply hoare_read
  | |- hoare _ (ret _) _ _ => apply hoare_ret
  | |- hoare _ (call _) _ _ => apply hoare_call; intros; eapply tidy_some; eassumption
  | |- hoare _ (run_stage _) _ _ =>
      apply hoare_stage;
      [ intros; apply tidy_log; eassumption
      | intros; eapply tidy_some; eassumption ]
  | |- hoare _ (act (assign_status _)) _ _ =>
      apply hoare_act; intros; eapply tidy_status; eassumption
  | |- hoare _ (act save_held) _ _ =>
      apply hoare_act; intros; apply tidy_save; eassumption
  | |- hoare _ (act (append_log_held _)) _ _ =>
      apply hoare_act; intros; apply tidy_log; eassumption
  | |- hoare _ (act (assign _)) _ _ =>
      apply hoare_act; intros;
      apply tidy_assign; [intros; repeat split|eassumption]
  end.

(** The last statement of a [try]: a line is logged, which saves. *)
Ltac tidy_last :=
  apply hoare_act; intros; split;
  [ apply tidy_log; eassumption
  | first [apply closed_by_log | apply saved_log] ].

Ltac tidy_step :=
  cbv beta;
  lazymatch goal with
  | |- hoare _ (if ?c then _ else _) _ _ => destruct c
  | |- hoare _ (bind (if ?c then _ else _) _) _ _ => destruct c
  | |- hoare _ (bind (bind _ _) _) _ _ => eapply hoare_bind; [|intros]
  | |- hoare _ (bind _ _) _ _ => eapply hoare_bind; [tidy_atom|intros]
  | |- hoare _ _ _ _ => first [tidy_atom | tidy_last]
  end.

Lemma run_job_try_tidy (w : Services) (job_id : string) (h0 : Held) :
  hoare (tidy h0 Running) (run_job_try w job_id)
        (fun _ h => tidy h0 Completed h /\ closed_by "Pipeline done." h) (tidy_any h0).
Proof. unfold run_job_try. repeat tidy_step. Qed.

Lemma regenerate_try_tidy (w : Services) (job_id : string) (tr : JSON) (h0 : Held) :
  hoare (tidy h0 Summarizing) (regenerate_try w job_id tr)
        (fun _ h => tidy h0 Completed h /\ saved h) (tidy_any h0).
Proof. unfold regenerate_try. repeat tidy_step. Qed.

Lemma identity_id (x y : Job) : identity_of x = identity_of y -> id x = id y.
Proof. unfold identity_of. intros H. inversion H. reflexivity. Qed.

Lemma last_line_snoc (x : Job) (l : list string) (line : string) :
  logs x = (l ++ [line])%list -> last_line x = Some line.
Proof. unfold last_line. intros ->. rewrite rev_app_distr. reflexivity. Qed.

(** ** One run of the pipeline *)

(** [run_job] on a held job that is not in a pipeline state. *)
Lemma run_job_held (w : Services) (job_id : string) (s : AppState) (h : Held) :
  hold s job_id = Some h -> is_active (status (j h)) = false ->
  exists hf,
    run_job w job_id s = release hf
    /\ framed h hf
    /\ (exists more, logs (j hf) = (logs (j h) ++ "Starting pipeline" :: more)%list)
    /\ saved hf
    /\ finished (j h) (j hf).
Proof.
  intros Hh Hact. unfold run_job. rewrite Hh, Hact.
  set (h1 := append_log_held "Starting pipeline" (save_held (assign_status Running h))).
  assert (H01 : framed h h1)
    by (apply framed_log, framed_save, framed_status, framed_refl).
  assert (H1 : tidy h1 Running h1) by (split; [apply framed_refl|split; reflexivity]).
  pose (Q := fun hf => framed h1 hf /\ saved hf /\ finished (j h) (j hf)).
  assert (HQ : Q (try_except (run_job_try w job_id) run_job_except h1)).
  { apply (hoare_try (tidy h1 Running) Q (tidy_any h1)); [| |exact H1].
    - apply (hoare_post _ _ _ _ _ (run_job_try_tidy w job_id h1)).
      intros _ hf ((Hfr & He & Hs) & (Hsv & l & Hl)).
      split; [exact Hfr|]. split; [exact Hsv|]. left.
      split; [exact Hs|]. split; [exact He|]. exact (last_line_snoc _ _ _ Hl).
    - intros e h' (st & Hfr & He & Hs). unfold Q, run_job_except.
      split; [apply framed_log, framed_save|].
      { apply framed_assign; [intros; split; reflexivity|]. apply framed_status, Hfr. }
      split; [apply saved_log|]. right.
      split; [reflexivity|]. split; [exists e; reflexivity|].
      eapply last_line_snoc. reflexivity. }
  destruct HQ as (Hfr & Hsv & Hfin).
  eexists. split; [reflexivity|]. split; [exact (framed_trans _ _ _ H01 Hfr)|].
  split; [|split; [exact Hsv|exact Hfin]].
  destruct Hfr as (_ & _ & _ & _ & _ & more & Hl). exists more.
  rewrite Hl. simpl. rewrite <- app_assoc. reflexivity.
Qed.

(** X1.  [run_job] touches one job at most: the first one with the id.  The
    jobs before and after it, the selection and the URL field are as
    before; the job keeps its id, URL, creation time and label, meeting
    date and path; and its log keeps the lines it had, followed by
    ["Starting pipeline"] and the lines of the run.  When no job has the id
    nothing changes. *)
Theorem run_job_touches_one (w : Services) (job_id : string) (s : AppState) :
  let s' := run_job w job_id s in
  audio_url s' = audio_url s /\ current_job_id s' = current_job_id s
  /\ (_get_job (jobs s) job_id = None -> s' = s)
  /\ (s' = s
      \/ exists pre x x' post more,
           jobs s = (pre ++ x :: post)%list /\ jobs s' = (pre ++ x' :: post)%list
           /\ _get_job pre job_id = None /\ id x = job_id
           /\ identity_of x' = identity_of x
           /\ logs x' = (logs x ++ "Starting pipeline" :: more)%list).
Proof.
  intros s'. unfold s'.
  destruct (hold s job_id) as [h|] eqn:Hh.
  - destruct (hold_some _ _ _ Hh) as (Hjobs & Hid & Hpre & Hget & Hu & Hc & _).
    destruct (is_active (status (j h))) eqn:Hact.
    + assert (E : run_job w job_id s = s) by (unfold run_job; rewrite Hh, Hact; reflexivity).
      rewrite E. repeat split; auto.
    + destruct (run_job_held w job_id s h Hh Hact)
        as (hf & -> & (Hb & Ha & Hi & Hu' & Hc' & _) & (more & Hl) & _).
      simpl. split; [congruence|]. split; [congruence|].
      split; [intros Hn; rewrite Hn in Hget; discriminate Hget|].
      right. exists (before h), (j h), (j hf), (after h), more.
      unfold h_jobs. rewrite Hb, Ha. auto 10.
  - assert (E : run_job w job_id s = s) by (unfold run_job; rewrite Hh; reflexivity).
    rewrite E. repeat split; auto.
Qed.

(** X2.  On a job that is found and not in a pipeline state, [run_job]
    leaves the job either completed, with the error text it had and
    ["Pipeline done."] as its last log line, or in error, with an error
    text of the form [type: message] and ["ERROR: "] followed by that text
    as its last log line; and the jobs file holds the jobs of the state. *)
Theorem run_job_outcome (w : Services) (job_id : string) (s : AppState) (x : Job) :
  _get_job (jobs s) job_id = Some x ->
  is_active (status x) = false ->
  exists x',
    _get_job (jobs (run_job w job_id s)) job_id = Some x'
    /\ jobs_file (run_job w job_id s) = jobs (run_job w job_id s)
    /\ finished x x'.
Proof.
  intros Hget Hact.
  destruct (hold_get _ _ _ Hget) as (h & Hh & <-).
  destruct (hold_some _ _ _ Hh) as (_ & Hid & Hpre & _).
  destruct (run_job_held w job_id s h Hh Hact)
    as (hf & -> & (Hb & Ha & Hi & _) & _ & Hsv & Hfin).
  exists (j hf). split; [|split; [exact Hsv|exact Hfin]].
  simpl. unfold h_jobs. apply get_found; [rewrite Hb; exact Hpre|].
  rewrite (identity_id _ _ Hi). exact Hid.
Qed.

Lemma run_job_outcome_witness :
  exists x',
    _get_job (jobs (run_job services_broken "deadbeef" (sample_state Completed))) "deadbeef"
    = Some x'
    /\ finished (sample_job "deadbeef" Completed) x'.
Proof.
  destruct (run_job_outcome services_broken "deadbeef" (sample_state Completed)
              (sample_job "deadbeef" Completed) eq_refl eq_refl) as (x' & H1 & _ & H3).
  exists x'. split; [exact H1|exact H3].
Defined.

(** ** The jobs file *)

Lemma run_job_stored (w : Services) (job_id : string) (s : AppState) :
  stored s -> stored (run_job w job_id s).
Proof.
  intros Hs.
  destruct (hold s job_id) as [h|] eqn:Hh.
  - destruct (is_active (status (j h))) eqn:Hact.
    + unfold run_job. rewrite Hh, Hact. exact Hs.
    + destruct (run_job_held w job_id s h Hh Hact) as (hf & -> & _ & _ & Hsv & _). exact Hsv.
  - unfold run_job. rewrite Hh. exact Hs.
Qed.

Lemma regenerate_for_stored (w : Services) (job_id : string) (s : AppState) :
  stored s -> stored (regenerate_summary_for w job_id s).
Proof.
  intros Hs. unfold regenerate_summary_for.
  destruct (hold s job_id) as [h|] eqn:Hh; [|exact Hs].
  destruct (negb (truthy_in w (transcript (j h)))); [apply saved_log|].
  set (h1 := append_log_held _ _).
  apply (hoare_try (tidy h1 Summarizing) saved (tidy_any h1)).
  - apply (hoare_post _ _ _ _ _ (regenerate_try_tidy w job_id _ h1)).
    intros _ hf (_ & Hsv). exact Hsv.
  - intros e h' _. apply saved_log.
  - split; [apply framed_refl|split; reflexivity].
Qed.

Lemma exec_stored (o : Op) (s : AppState) : stored s -> stored (exec o s).
Proof.
  intros Hs. destruct o; simpl.
  - exact Hs.
  - unfold add_job.
    destruct (negb (Py.truthy (Py.strip (audio_url s)))); [exact Hs|].
    apply run_job_stored. reflexivity.
  - exact Hs.
  - apply run_job_stored, Hs.
  - unfold retry_current, retry_current_reset.
    destruct (negb (Py.truthy (current_job_id s))); [exact Hs|].
    destruct (hold s (current_job_id s)); [|exact Hs].
    apply run_job_stored. reflexivity.
  - unfold retry_job, retry_job_reset.
    destruct (hold s job_id); [|exact Hs].
    apply run_job_stored. reflexivity.
  - unfold regenerate_summary.
    destruct (negb (Py.truthy (current_job_id s))); [exact Hs|].
    apply regenerate_for_stored, Hs.
  - apply regenerate_for_stored, Hs.
  - unfold delete_current.
    destruct (negb (Py.truthy (current_job_id s))); [exact Hs|reflexivity].
  - unfold delete_by_id, delete_current. simpl.
    destruct (negb (Py.truthy job_id)); [exact Hs|reflexivity].
Qed.

Lemma exec_all_stored (ops : list Op) (s : AppState) : stored s -> stored (exec_all ops s).
Proof.
  unfold exec_all. revert s.
  induction ops as [|o ops IH]; intros s Hs; simpl; [exact Hs|].
  apply IH, exec_stored, Hs.
Qed.

Lemma clear_stored (s : AppState) : stored (clear s).
Proof.
  unfold clear. destruct (Py.truthy (current_job_id s)); [|reflexivity].
  destruct (hold s (current_job_id s)); reflexivity.
Qed.

(** X3.  Between two operations the jobs file holds the jobs of the state:
    this is so after any sequence of operations from the empty store, and
    after any sequence that follows a [clear] or a [_save], whatever the
    state and the file were before. *)
Theorem store_always_saved (s : AppState) (ops : list Op) :
  jobs_file (exec_all ops initial_state) = jobs (exec_all ops initial_state)
  /\ jobs_file (exec_all ops (clear s)) = jobs (exec_all ops (clear s))
  /\ jobs_file (exec_all ops (_save s)) = jobs (exec_all ops (_save s)).
Proof.
  split; [|split].
  - apply exec_all_stored. reflexivity.
  - apply exec_all_stored, clear_stored.
  - apply exec_all_stored. reflexivity.
Qed.

(** ** Which way a run of the pipeline ends *)

Lemma x_bind {A B} (P : Held -> Prop) (m : Try A) (Q : A -> Held -> Prop)
      (k : A -> Try B) (Q' : B -> Held -> Prop) (E : PyExn -> Prop) :
  raises_only P m Q E -> (forall a, raises_only (Q a) (k a) Q' E) ->
  raises_only P (bind m k) Q' E.
Proof.
  intros Hm Hk h Hp. unfold bind. specialize (Hm h Hp).
  destruct (m h) as [[e|a] h']; [exact Hm|]. exact (Hk a h' Hm).
Qed.

Lemma x_ret {A} (P : Held -> Prop) (a : A) (E : PyExn -> Prop) :
  raises_only P (ret a) (fun _ => P) E.
Proof. intros h Hp. exact Hp. Qed.

Lemma x_act (P P' : Held -> Prop) (f : Held -> Held) (E : PyExn -> Prop) :
  (forall h, P h -> P' (f h)) -> raises_only P (act f) (fun _ => P') E.
Proof. intros Hf h Hp. exact (Hf h Hp). Qed.

Lemma x_read {A} (P : Held -> Prop) (f : Job -> A) (E : PyExn -> Prop) :
  raises_only P (read f) (fun _ => P) E.
Proof. intros h Hp. exact Hp. Qed.

(** Reading a key: what is known of the job is known of the value. *)
Lemma x_read_as {A} (G : A -> Prop) (f : Job -> A) (E : PyExn -> Prop) :
  raises_only (fun h => G (f (j h))) (read f) (fun a _ => G a) E.
Proof. intros h Hp. exact Hp. Qed.

Lemma x_call {A} (P : Held -> Prop) (r : PyExn + A) (E : PyExn -> Prop) :
  (exists a, r = inr a) -> raises_only P (call r) (fun _ => P) E.
Proof. intros (a & ->) h Hp. exact Hp. Qed.

Lemma x_call_raises {A} (P : Held -> Prop) (r : PyExn + A) (e : PyExn)
      (Q : A -> Held -> Prop) (E : PyExn -> Prop) :
  r = inl e -> E e -> raises_only P (call r) Q E.
Proof. intros -> He h Hp. exact He. Qed.

Lemma log_lines_keep (P : Held -> Prop) (lines : list string) (h : Held) :
  (forall h' line, P h' -> P (append_log_held line h')) -> P h -> P (log_lines lines h).
Proof.
  intros Hlog. unfold log_lines. revert h.
  induction lines as [|l ls IH]; intros h Hp; simpl; [exact Hp|].
  apply IH, Hlog, Hp.
Qed.

Lemma x_stage {A} (P : Held -> Prop) (g : Stage A) (E : PyExn -> Prop) :
  (forall h line, P h -> P (append_log_held line h)) ->
  (exists a, outcome g = inr a) ->
  raises_only P (run_stage g) (fun _ => P) E.
Proof.
  intros Hlog (a & Ha) h Hp. unfold run_stage. rewrite Ha.
  apply log_lines_keep; assumption.
Qed.

(** A stage that returns [a]: the value is known from then on. *)
Lemma x_stage_as {A} (P : Held -> Prop) (g : Stage A) (a : A) (E : PyExn -> Prop) :
  outcome g = inr a -> raises_only P (run_stage g) (fun x _ => x = a) E.
Proof. intros Ha h Hp. unfold run_stage. rewrite Ha. reflexivity. Qed.

Lemma x_stage_raises {A} (P : Held -> Prop) (g : Stage A) (e : PyExn)
      (Q : A -> Held -> Prop) (E : PyExn -> Prop) :
  outcome g = inl e -> E e -> raises_only P (run_stage g) Q E.
Proof. intros Ha He h Hp. unfold run_stage. rewrite Ha. exact He. Qed.

(** Reading a key whose value is known. *)
Lemma x_read_known {A B} (P : Held -> Prop) (f : Job -> A) (a : A) (k : A -> Try B)
      (Q : B -> Held -> Prop) (E : PyExn -> Prop) :
  (forall h, P h -> f (j h) = a) ->
  raises_only P (k a) Q E ->
  raises_only P (bind (read f) k) Q E.
Proof. intros Hf Hk h Hp. unfold bind, read. rewrite (Hf h Hp). exact (Hk h Hp). Qed.

(** A stage that returns when [R] holds, and else raises as [E] allows. *)
Lemma x_stage_either {A} (P : Held -> Prop) (g : Stage A) (R : Prop) (E : PyExn -> Prop) :
  (forall h line, P h -> P (append_log_held line h)) ->
  match outcome g with inr _ => R | inl e => E e end ->
  raises_only P (run_stage g) (fun _ h => R /\ P h) E.
Proof.
  intros Hlog Hg h Hp. unfold run_stage.
  destruct (outcome g) as [e|a]; [exact Hg|].
  split; [exact Hg|]. apply log_lines_keep; assumption.
Qed.

(** What is known without the state can be taken out of the assertion. *)
Lemma x_known {A} (F : Prop) (m : Try A) (Q : A -> Held -> Prop) (E : PyExn -> Prop) :
  (F -> raises_only (fun _ => True) m Q E) -> raises_only (fun _ => F) m Q E.
Proof. intros H h Hf. exact (H Hf h I). Qed.

(** Nothing runs after a statement that does not return. *)
Lemma x_unreached {A} (m : Try A) (Q : A -> Held -> Prop) (E : PyExn -> Prop) :
  raises_only (fun _ => False) m Q E.
Proof. intros h []. Qed.

Lemma x_post {A} (P : Held -> Prop) (m : Try A) (Q Q' : A -> Held -> Prop)
      (E : PyExn -> Prop) :
  raises_only P m Q E -> (forall a h, Q a h -> Q' a h) -> raises_only P m Q' E.
Proof.
  intros Hm Hq h Hp. specialize (Hm h Hp).
  destruct (m h) as [[e|a] h']; [exact Hm|exact (Hq a h' Hm)].
Qed.

(** A statement that keeps the assertion [P]. *)
Ltac x_atom P :=
  lazymatch goal with
  | |- raises_only _ (read _) _ _ => apply (x_read P)
  | |- raises_only _ (ret _) _ _ => apply (x_ret P)
  | |- raises_only _ (act _) _ _ => apply (x_act P P); intros ? HP; exact HP
  | |- raises_only _ (call _) _ _ => apply (x_call P); auto
  | |- raises_only _ (run_stage _) _ _ =>
      apply (x_stage P); [intros ? ? HP; exact HP|auto]
  end.

Ltac x_step P :=
  cbv beta;
  lazymatch goal with
  | |- raises_only _ (bind (bind _ _) _) _ _ => eapply x_bind; [|intros]
  | |- raises_only _ (bind _ _) _ _ => eapply x_bind; [x_atom P|intros]
  | |- raises_only _ _ _ _ => x_atom P
  end.

(** The statements that are left once the summarizer has returned: they
    keep [P] and raise nothing when the title helper returns. *)
Ltac x_finish P :=
  repeat first
    [ x_step P
    | lazymatch goal with
      | |- raises_only _ (bind (if ?c then _ else _) _) _ _ => destruct c
      | |- raises_only _ (if ?c then _ else _) _ _ => destruct c
      end ].

(** The statements of the [try] of [run_job] up to the call of the
    transcriber, when the resolver and the download return. *)
Ltac x_start := do 12 (x_step (fun _ : Held => True)).

Lemma plain_stored (w : Services) (v : JSON) :
  plain w v -> plain w (if truthy_in w v then v else JStr "").
Proof.
  intros Hv. destruct (truthy_in w v) eqn:Et; [exact Hv|]. right. exists "". reflexivity.
Qed.

Lemma plain_truthy (w : Services) (v : JSON) :
  plain w v -> truthy_in w v = true -> exists t, v = JStr t.
Proof. intros [Hf|Ht] Hv; [congruence|exact Ht]. Qed.

(** With helpers that never raise and a transcriber that returns a plain
    value, the [try] of [run_job] comes to its end. *)
Lemma run_job_try_returns (w : Services) (job_id : string) :
  never_raises w ->
  raises_only (fun _ => True) (run_job_try w job_id) (fun _ _ => True) (fun _ => False).
Proof.
  intros (H1 & H2 & H3 & H4 & H5). unfold run_job_try.
  x_start.
  lazymatch goal with
  | |- raises_only _ (bind (run_stage (svc_transcribe _ _ ?p)) _) _ _ =>
      destruct (H3 job_id p) as (v & Hv & Hplain)
  end.
  eapply x_bind; [apply (x_stage_as _ _ v), Hv|intros text]. cbv beta.
  apply x_known. intros Hknown. rewrite Hknown.
  pose (kept := fun h : Held => plain w (transcript (j h))).
  eapply x_bind;
    [apply (x_act _ kept); intros h _; exact (plain_stored w v Hplain)|intros ?].
  x_step kept.
  eapply x_bind; [|intros ?].
  { destruct (truthy_in w v) eqn:Et.
    - destruct (plain_truthy w v Hplain Et) as (t & ->).
      eapply x_bind; [apply (x_call kept); eexists; reflexivity|intros n].
      x_step kept.
    - x_step kept. }
  x_step kept. x_step kept.
  eapply x_bind; [exact (x_read_as (plain w) transcript _)|intros tr]. cbv beta.
  apply x_known. intros Htr.
  x_step (fun _ : Held => True).
  eapply x_bind; [|intros summary].
  { destruct (truthy_in w tr) eqn:Et.
    - destruct (plain_truthy w tr Htr Et) as (t & ->).
      x_step (fun _ : Held => True).
    - x_step (fun _ : Held => True). }
  x_finish (fun _ : Held => True).
Qed.

(** A transcriber that returns a truthy value without length: [len] raises. *)
Lemma run_job_try_no_len (w : Services) (job_id : string) (v : JSON) (e : PyExn) :
  (forall i u, exists r, outcome (svc_resolve w i u) = inr r) ->
  (forall i u, exists r, outcome (svc_download w i u) = inr r) ->
  (forall i p, outcome (svc_transcribe w i p) = inr v) ->
  truthy_in w v = true -> py_len v = inl e ->
  raises_only (fun _ => True) (run_job_try w job_id) (fun _ _ => False) (fun e' => e' = e).
Proof.
  intros H1 H2 H3 Hv He. unfold run_job_try.
  x_start.
  eapply x_bind; [apply (x_stage_as _ _ v), H3|intros text]. cbv beta.
  apply x_known. intros Hknown. rewrite Hknown. rewrite Hv.
  x_step (fun _ : Held => True). x_step (fun _ : Held => True).
  eapply x_bind; [|intros; apply x_unreached].
  eapply x_bind; [apply (x_call_raises _ _ e); [exact He|reflexivity]|].
  intros; apply x_unreached.
Qed.

(** A transcriber that returns a truthy value with a length: the run
    goes on to the summarizer, which is handed that value. *)
Lemma run_job_try_handed (w : Services) (job_id : string) (v : JSON) (n : nat)
      (R : Prop) (E : PyExn -> Prop) :
  (forall i u, exists r, outcome (svc_resolve w i u) = inr r) ->
  (forall i u, exists r, outcome (svc_download w i u) = inr r) ->
  (forall i p, outcome (svc_transcribe w i p) = inr v) ->
  (forall t, exists r, svc_title w t = inr r) ->
  truthy_in w v = true -> py_len v = inr n ->
  (forall d, match outcome (svc_summarize w job_id v d) with
             | inr _ => R
             | inl e => E e
             end) ->
  raises_only (fun _ => True) (run_job_try w job_id)
              (fun _ h => R /\ transcript (j h) = v) E.
Proof.
  intros H1 H2 H3 H5 Hv Hn Hs. unfold run_job_try.
  x_start.
  eapply x_bind; [apply (x_stage_as _ _ v), H3|intros text]. cbv beta.
  apply x_known. intros Hknown. rewrite Hknown. rewrite Hv, Hn.
  pose (kept := fun h : Held => transcript (j h) = v).
  eapply x_bind; [apply (x_act _ kept); intros h _; reflexivity|intros ?].
  x_step kept.
  eapply x_bind; [|intros ?].
  { eapply x_bind; [apply (x_call kept); eexists; reflexivity|intros m]. x_step kept. }
  x_step kept. x_step kept.
  apply (x_read_known kept transcript v); [intros h Hh; exact Hh|]. rewrite Hv.
  eapply x_bind; [apply (x_read kept)|intros md]. cbv beta.
  eapply x_bind;
    [apply (x_stage_either kept _ R E); [intros ? ? HP; exact HP|apply Hs]|intros summary].
  cbv beta.
  x_finish (fun h : Held => R /\ kept h).
Qed.

(** [run_job] on a job that is found and not in a pipeline state, when the
    [try] returns in a state that satisfies [Q] or raises an exception that
    satisfies [E]: the job is completed and [Q] holds, or it is in error
    with the text of such an exception. *)
Lemma run_job_ends (w : Services) (job_id : string) (s : AppState) (x : Job)
      (Q : Held -> Prop) (E : PyExn -> Prop) :
  _get_job (jobs s) job_id = Some x ->
  is_active (status x) = false ->
  raises_only (fun _ => True) (run_job_try w job_id) (fun _ => Q) E ->
  exists hf,
    _get_job (jobs (run_job w job_id s)) job_id = Some (j hf)
    /\ ((status (j hf) = Completed /\ error (j hf) = error x
         /\ last_line (j hf) = Some "Pipeline done." /\ Q hf)
        \/ (exists e, E e /\ status (j hf) = Error
                      /\ error (j hf) = exn_type e ++ ": " ++ exn_msg e)).
Proof.
  intros Hget Hact Hx.
  destruct (hold_get _ _ _ Hget) as (h & Hh & <-).
  destruct (hold_some _ _ _ Hh) as (_ & Hid & Hpre & _).
  unfold run_job. rewrite Hh, Hact.
  set (h1 := append_log_held "Starting pipeline" (save_held (assign_status Running h))).
  assert (H1 : tidy h1 Running h1) by (split; [apply framed_refl|split; reflexivity]).
  pose proof (run_job_try_tidy w job_id h1 h1 H1) as Ht.
  pose proof (Hx h1 I) as Hr.
  unfold try_except.
  destruct (run_job_try w job_id h1) as [[e|u] h'].
  - destruct Ht as (st & (Hb & Ha & Hi & _) & _).
    exists (run_job_except e h'). split.
    + simpl. unfold h_jobs. simpl. rewrite Hb. apply get_found; [exact Hpre|].
      simpl. rewrite (identity_id _ _ Hi). exact Hid.
    + right. exists e. split; [exact Hr|]. split; reflexivity.
  - destruct Ht as (((Hb & Ha & Hi & _) & He & Hs) & (_ & l & Hl)).
    exists h'. split.
    + simpl. unfold h_jobs. rewrite Hb. apply get_found; [exact Hpre|].
      rewrite (identity_id _ _ Hi). exact Hid.
    + left. split; [exact Hs|]. split; [exact He|].
      split; [exact (last_line_snoc _ _ _ Hl)|exact Hr].
Qed.

Lemma resolve_returns (float_nonzero : string -> bool) (html_unescape : string -> string)
      (net : string -> PyExn + Page) (job_id url : string) :
  exists v, outcome (res_stage (resolve_plaud_audio_url float_nonzero html_unescape net job_id url))
            = inr v.
Proof.
  unfold resolve_plaud_audio_url.
  destruct (negb (Py.contains "plaud.ai" url)); [eexists; reflexivity|].
  destruct (share_token url) as [token|]; [|apply by_page_returns].
  destruct (Py.truthy token); [|apply by_page_returns].
  destruct (temp_api float_nonzero net token) as [l1 [v|]]; [eexists; reflexivity|].
  destruct (content_api float_nonzero net token) as [l2 [c|]]; [eexists; reflexivity|].
  apply by_page_returns.
Qed.

(** The summarizer returns on every text. *)
Lemma summarize_returns (float_nonzero : string -> bool) (py_repr : JSON -> string)
      (configured : bool) (post : PyExn + Sse) (job_id text meeting_date : string) :
  exists r, outcome (summarize_with_gpt float_nonzero py_repr configured post
                       job_id (JStr text) meeting_date) = inr r.
Proof.
  unfold summarize_with_gpt.
  destruct (negb configured); [eexists; reflexivity|].
  destruct post as [e|r]; [eexists; reflexivity|].
  destruct (Nat.leb 400 (status_code r)); [eexists; reflexivity|].
  destruct (sse_loop _ _ _ _ _) as [e|content]; [eexists; reflexivity|].
  destruct (negb (Py.truthy (Py.strip content))); eexists; reflexivity.
Qed.

(** Handed a value that is no text, it returns [None] when nothing is
    configured, and else raises. *)
Lemma summarize_no_text (float_nonzero : string -> bool) (py_repr : JSON -> string)
      (configured : bool) (post : PyExn + Sse) (job_id meeting_date : string) (v : JSON) :
  (forall t, v <> JStr t) ->
  outcome (summarize_with_gpt float_nonzero py_repr configured post job_id v meeting_date)
  = if configured then inl (concat_error v) else inr None.
Proof.
  intros Hv. unfold summarize_with_gpt.
  destruct configured; [|reflexivity]. cbn [negb].
  destruct v; try reflexivity. exfalso. exact (Hv s eq_refl).
Qed.

Lemma world_never_raises (W : World) :
  (forall i u, exists p,
      outcome (dl_stage (download_audio_file (format_pct W) (audio W u) i u)) = inr p) ->
  (exists v, outcome (transcribed W) = inr v /\ plain (services W) v) ->
  never_raises (services W).
Proof.
  intros Hdl Htr. unfold never_raises, services; simpl.
  split; [intros; apply resolve_returns|].
  split; [exact Hdl|].
  split; [intros; exact Htr|].
  split; [intros; apply summarize_returns|].
  intros t. eexists. reflexivity.
Qed.

(** X4.  With the helpers of the code, a job can fail in the download and
    on what the transcriber gives only.  When the download returns for
    every URL and the transcriber returns a value [v], [run_job] on a job
    that is found and not in a pipeline state ends as follows, whatever the
    link resolver, the summarization endpoint and the title endpoint
    answer.  If [v] is a text or falsy ([None] included), the job is
    completed and its error text is left as it was.  If [v] is truthy and
    has no length (a number, [True]), the job ends in error with the
    [TypeError] of [len].  If [v] is a non-empty list or object, the job is
    completed, with [v] as its transcript, when no summarization endpoint
    is configured, and ends in error with the [TypeError] of the
    concatenation when one is. *)
Theorem job_fails_in_download_or_transcription_only
        (W : World) (job_id : string) (s : AppState) (x : Job) (v : JSON) :
  _get_job (jobs s) job_id = Some x ->
  is_active (status x) = false ->
  (forall i u, exists p,
      outcome (dl_stage (download_audio_file (format_pct W) (audio W u) i u)) = inr p) ->
  outcome (transcribed W) = inr v ->
  exists x',
    _get_job (jobs (run_job (services W) job_id s)) job_id = Some x'
    /\ (json_truthy (float_nonzero W) v = false \/ (exists t, v = JStr t) ->
        status x' = Completed /\ error x' = error x
        /\ last_line x' = Some "Pipeline done.")
    /\ (json_truthy (float_nonzero W) v = true ->
        (forall n, py_len v <> inr n) ->
        status x' = Error
        /\ error x' = "TypeError: object of type '" ++ type_name v ++ "' has no len()")
    /\ (json_truthy (float_nonzero W) v = true ->
        (exists l, v = JList l) \/ (exists kv, v = JDict kv) ->
        if openai_configured W
        then status x' = Error
             /\ error x' = "TypeError: " ++ exn_msg (concat_error v)
        else status x' = Completed /\ error x' = error x /\ transcript x' = v).
Proof.
  intros Hget Hact Hdl Htr.
  assert (Hres : forall i u, exists r, outcome (svc_resolve (services W) i u) = inr r)
    by (intros; apply resolve_returns).
  assert (Hsame : forall (Q : Held -> Prop) (E : PyExn -> Prop) (x' : Job) (P : Job -> Prop),
             _get_job (jobs (run_job (services W) job_id s)) job_id = Some x' ->
             raises_only (fun _ => True) (run_job_try (services W) job_id) (fun _ => Q) E ->
             (forall hf,
                 (status (j hf) = Completed /\ error (j hf) = error x
                  /\ last_line (j hf) = Some "Pipeline done." /\ Q hf)
                 \/ (exists e, E e /\ status (j hf) = Error
                               /\ error (j hf) = exn_type e ++ ": " ++ exn_msg e) ->
                 P (j hf)) ->
             P x').
  { intros Q E x' P Hx' Hx HP.
    destruct (run_job_ends (services W) job_id s x Q E Hget Hact Hx) as (hf & Hf & Hcases).
    rewrite Hx' in Hf. inversion Hf; subst x'. exact (HP hf Hcases). }
  destruct (run_job_ends (services W) job_id s x (fun _ => True) (fun _ => True) Hget Hact)
    as (hf & Hf & _).
  { intros h _. destruct (run_job_try (services W) job_id h) as [[e|u] h']; exact I. }
  exists (j hf). split; [exact Hf|]. split; [|split].
  - intros Hplain.
    apply (Hsame (fun _ => True) (fun _ => False) (j hf)
             (fun x' => status x' = Completed /\ error x' = error x
                        /\ last_line x' = Some "Pipeline done.") Hf).
    + apply run_job_try_returns, world_never_raises; [exact Hdl|].
      exists v. split; [exact Htr|exact Hplain].
    + intros hf' [(Hs & He & Hl & _)|(e & [] & _)]. auto.
  - intros Hv Hlen.
    destruct (py_len v) as [e|n] eqn:He; [|exfalso; exact (Hlen n eq_refl)].
    apply (Hsame (fun _ => False) (fun e' => e' = e) (j hf)
             (fun x' => status x' = Error
                        /\ error x' = "TypeError: object of type '" ++ type_name v
                                      ++ "' has no len()") Hf).
    + apply (run_job_try_no_len (services W) job_id v e); auto.
    + intros hf' [(_ & _ & _ & [])|(e' & -> & Hs & Herr)].
      split; [exact Hs|]. rewrite Herr.
      destruct v; simpl in He; inversion He; reflexivity.
  - intros Hv Hshape.
    assert (Hlen : exists n, py_len v = inr n)
      by (destruct Hshape as [(l & ->)|(kv & ->)]; eexists; reflexivity).
    destruct Hlen as (n & Hlen).
    assert (Hno : forall t, v <> JStr t)
      by (intros t; destruct Hshape as [(l & ->)|(kv & ->)]; discriminate).
    destruct (openai_configured W) eqn:Hc.
    + apply (Hsame (fun h => False /\ transcript (j h) = v) (fun e' => e' = concat_error v)
               (j hf)
               (fun x' => status x' = Error
                          /\ error x' = "TypeError: " ++ exn_msg (concat_error v)) Hf).
      * apply (run_job_try_handed (services W) job_id v n False); auto.
        -- intros t. eexists. reflexivity.
        -- intros d. simpl. rewrite (summarize_no_text _ _ _ _ _ _ v Hno), Hc. reflexivity.
      * intros hf' [(_ & _ & _ & [] & _)|(e' & -> & Hs & Herr)].
        split; [exact Hs|exact Herr].
    + apply (Hsame (fun h => True /\ transcript (j h) = v) (fun _ => False) (j hf)
               (fun x' => status x' = Completed /\ error x' = error x /\ transcript x' = v)
               Hf).
      * apply (run_job_try_handed (services W) job_id v n True); auto.
        -- intros t. eexists. reflexivity.
        -- intros d. simpl. rewrite (summarize_no_text _ _ _ _ _ _ v Hno), Hc. exact I.
      * intros hf' [(Hs & He & _ & _ & Ht)|(e' & [] & _)]. auto.
Qed.

Lemma job_fails_in_download_or_transcription_only_witness :
  exists x',
    _get_job (jobs (run_job (services sample_world) "deadbeef" (sample_state Error))) "deadbeef"
    = Some x'
    /\ status x' = Completed.
Proof.
  destruct (job_fails_in_download_or_transcription_only sample_world "deadbeef"
              (sample_state Error) (sample_job "deadbeef" Error)
              (JStr "Topic: the quarterly budget. We agreed.") eq_refl eq_refl)
    as (x' & H1 & H2 & _).
  - intros i u. eexists. reflexivity.
  - reflexivity.
  - exists x'. split; [exact H1|]. apply H2. right. eexists. reflexivity.
Defined.

(** A transcription whose text is the number 5: the transcriber returns,
    and the job ends in error at the line that logs the length. *)
Example number_for_a_transcript :
  let W := mkWorld nonzero_all no_repr no_unescape no_pct net_down (audio sample_world)
             (mkStage ["transcribe: status=completed"] (inr (JInt 5))) true
             (inr (mkSse 200 hello_lines None)) (inl refused) in
  map (fun x => (status x, error x, transcript x, last_line x))
      (jobs (exec_all [SetAudioUrl "https://example.com/a.mp3";
                       AddJob (mkFresh "0a1b2c3d" 1700000000 "2023-11-14 22:13:20" "")
                              (services W)] initial_state))
  = [(Error, "TypeError: object of type 'int' has no len()", JInt 5,
      Some "ERROR: TypeError: object of type 'int' has no len()")].
Proof. vm_compute. reflexivity. Qed.

(** ** Regenerating a summary with the helpers of the code *)

Lemma truthy_nonempty (s : string) : s <> "" -> Py.truthy s = true.
Proof. destruct s; [congruence|reflexivity]. Qed.

(** X5.  With the helpers of the code, regenerating the summary of a job
    whose transcript is a non-empty text always leaves the job completed,
    whatever the summarization and title endpoints answer: on a text the
    summarizer and the title helper never raise.  The summary becomes what
    the summarizer returned, the empty text when it returned nothing (the
    former summary is not kept); the title is replaced only when a summary
    came back; the error text, the transcript, the resolved URL and the
    file path are as they were. *)
Theorem regenerate_always_completes (W : World) (job_id : string) (s : AppState) (x : Job)
        (t : string) :
  _get_job (jobs s) job_id = Some x ->
  transcript x = JStr t ->
  t <> "" ->
  exists x' r,
    _get_job (jobs (regenerate_summary_for (services W) job_id s)) job_id = Some x'
    /\ outcome (summarize_with_gpt (float_nonzero W) (py_repr W) (openai_configured W)
                  (responses W) job_id (JStr t) (meeting_date x)) = inr r
    /\ status x' = Completed
    /\ summary x' = Py.or_empty r
    /\ title x' = (if Py.truthy_opt r
                   then generate_title_from_summary (openai_configured W) (chat W) (Py.or_empty r)
                   else title x)
    /\ error x' = error x
    /\ inputs_of x' = inputs_of x.
Proof.
  intros Hget Htext Htr.
  destruct (hold_get _ _ _ Hget) as (h & Hh & <-).
  destruct (hold_some _ _ _ Hh) as (_ & Hid & Hpre & _).
  destruct (summarize_returns (float_nonzero W) (py_repr W) (openai_configured W) (responses W)
              job_id t (meeting_date (j h))) as (r & Hr).
  unfold regenerate_summary_for. rewrite Hh, Htext.
  unfold truthy_in. cbn [json_truthy]. rewrite (truthy_nonempty _ Htr). cbv iota. simpl negb.
  cbv iota.
  unfold try_except, regenerate_try, bind, read, run_stage, act, call, ret.
  cbn -[log_lines summarize_with_gpt generate_title_from_summary Py.truthy_opt Py.or_empty].
  rewrite Hr, log_lines_closed.
  destruct (Py.truthy_opt r) eqn:Et;
    cbn -[summarize_with_gpt generate_title_from_summary Py.or_empty];
    (eexists; exists r; split;
     [unfold h_jobs; cbn -[summarize_with_gpt generate_title_from_summary Py.or_empty];
      apply get_found; [exact Hpre|exact Hid]
     |rewrite Et; repeat split]).
Qed.

Lemma regenerate_always_completes_witness :
  exists x',
    _get_job (jobs (regenerate_summary_for (services sample_world) "deadbeef"
                      (sample_state Error))) "deadbeef" = Some x'
    /\ status x' = Completed.
Proof.
  destruct (regenerate_always_completes sample_world "deadbeef" (sample_state Error)
              (sample_job "deadbeef" Error) "hello there" eq_refl eq_refl)
    as (x' & r & H1 & _ & H2 & _).
  - discriminate.
  - exists x'. split; [exact H1|exact H2].
Defined.

(** ** Submitting a URL *)

(** X6.  [add_job] does nothing when the URL field is blank.  Otherwise
    the new job is put in front of the jobs, which are as before, and is
    selected; it carries the fresh id, the stripped URL, the clock reading
    and its label, the date found in the URL and the path [/job/<id>]; the
    pipeline has run on it: its log starts with ["Starting pipeline"], and
    it is completed with no error text or in error with one. *)
Theorem add_job_puts_first (f : Fresh) (w : Services) (s : AppState) :
  (Py.strip (audio_url s) = "" -> add_job f w s = s)
  /\ (Py.strip (audio_url s) <> "" ->
      exists x',
        jobs (add_job f w s) = x' :: jobs s
        /\ current_job_id (add_job f w s) = new_id f
        /\ current_job (add_job f w s) = Some x'
        /\ audio_url (add_job f w s) = audio_url s
        /\ identity_of x' =
           (new_id f, Py.strip (audio_url s), now f, now_label f, found_date f,
            "/job/" ++ new_id f)
        /\ (exists more, logs x' = "Starting pipeline" :: more)
        /\ ((status x' = Completed /\ error x' = "")
            \/ (status x' = Error /\ exists e, error x' = exn_type e ++ ": " ++ exn_msg e))).
Proof.
  unfold add_job. split.
  - intros ->. reflexivity.
  - intros Hu. rewrite (truthy_nonempty _ Hu). simpl negb. cbv iota.
    set (job := mkJob (new_id f) _ _ _ _ _ _ _ _ _ _ _ _ _).
    set (s1 := _save _).
    pose (h := mkHeld [] job (jobs s) (audio_url s) (new_id f) (job :: jobs s) (status_log s)).
    assert (Hh : hold s1 (new_id f) = Some h).
    { unfold hold, s1, _save; simpl. rewrite String.eqb_refl. reflexivity. }
    destruct (run_job_held w (new_id f) s1 h Hh eq_refl)
      as (hf & -> & (Hb & Ha & Hi & Hu' & Hc & _) & (more & Hl) & _ & Hfin).
    exists (j hf). unfold current_job, release, h_jobs. simpl. rewrite Hb, Ha, Hc, Hu'. simpl.
    split; [reflexivity|]. split; [reflexivity|].
    split; [rewrite (identity_id _ _ Hi); simpl; rewrite String.eqb_refl; reflexivity|].
    split; [reflexivity|]. split; [exact Hi|].
    split; [exists more; exact Hl|].
    destruct Hfin as [(Hs & He & _)|(Hs & He & _)]; [left|right]; split; assumption.
Qed.

Example add_job_on_sample :
  let s := add_job (mkFresh "0a1b2c3d" 1700000000 "2023-11-14 22:13:20" "2023-11-14")
                   (services sample_world)
                   (set_audio_url "  https://example.com/2023-11-14/a.mp3 " initial_state) in
  map (fun x => (identity_of x, status x)) (jobs s)
  = [(("0a1b2c3d", "https://example.com/2023-11-14/a.mp3", 1700000000%Z,
       "2023-11-14 22:13:20", "2023-11-14", "/job/0a1b2c3d"), Completed)]
  /\ current_status s = "completed"
  /\ add_job (mkFresh "0a1b2c3d" 1700000000 "2023-11-14 22:13:20" "") (services sample_world)
             (set_audio_url "   " initial_state)
     = set_audio_url "   " initial_state.
Proof. repeat split; vm_compute; reflexivity. Qed.

(** ** Deleting a job *)

Lemma get_filter_gone (js : list Job) (jid : string) :
  _get_job (filter (fun x => negb (String.eqb (id x) jid)) js) jid = None.
Proof.
  induction js as [|x js IH]; simpl; [reflexivity|].
  destruct (String.eqb (id x) jid) eqn:E; simpl; [exact IH|].
  rewrite E. exact IH.
Qed.

Lemma get_filter_other (js : list Job) (jid i : string) :
  i <> jid ->
  _get_job (filter (fun x => negb (String.eqb (id x) jid)) js) i = _get_job js i.
Proof.
  intros Hne. induction js as [|x js IH]; simpl; [reflexivity|].
  destruct (String.eqb_spec (id x) jid) as [Ej|Ej]; simpl.
  - destruct (String.eqb_spec (id x) i) as [Ei|_]; [congruence|exact IH].
  - destruct (String.eqb (id x) i); [reflexivity|exact IH].
Qed.

(** X7.  [delete_by_id] with a non-empty id removes every job that has the
    id and keeps the others in their order: no job is found under the id
    any more, every other id finds the job it found before, the first job
    left (if any) is selected, and the jobs file holds the jobs left.  With
    the empty id no job is removed and nothing is saved, but the selection
    is dropped. *)
Theorem delete_by_id_removes (job_id : string) (s : AppState) :
  let s' := delete_by_id job_id s in
  (job_id = "" -> s' = select_job "" s)
  /\ (job_id <> "" ->
      jobs s' = filter (fun x => negb (String.eqb (id x) job_id)) (jobs s)
      /\ _get_job (jobs s') job_id = None
      /\ (forall x, In x (jobs s') <-> In x (jobs s) /\ id x <> job_id)
      /\ (forall i, i <> job_id -> _get_job (jobs s') i = _get_job (jobs s) i)
      /\ current_job_id s' = match jobs s' with x :: _ => id x | [] => "" end
      /\ current_job s' = match jobs s' with x :: _ => Some x | [] => None end
      /\ jobs_file s' = jobs s').
Proof.
  intros s'. unfold s', delete_by_id, delete_current, current_job. simpl. split.
  - intros ->. reflexivity.
  - intros Hne. rewrite (truthy_nonempty _ Hne). simpl.
    split; [reflexivity|]. split; [apply get_filter_gone|].
    split.
    { intros x. rewrite filter_In. split; intros (Hin & Hx); split; try exact Hin.
      - intros E. rewrite E, String.eqb_refl in Hx. discriminate Hx.
      - destruct (String.eqb_spec (id x) job_id) as [E|_]; [congruence|reflexivity]. }
    split; [intros i Hi; apply get_filter_other; exact Hi|].
    split; [reflexivity|]. split; [|reflexivity].
    destruct (filter _ (jobs s)) as [|y ys]; [reflexivity|].
    simpl. rewrite String.eqb_refl. reflexivity.
Qed.

Example delete_on_sample :
  map id (jobs (delete_by_id "deadbeef" (sample_state Completed))) = ["0a1b2c3d"; "cafe0001"]
  /\ current_job_id (delete_by_id "deadbeef" (sample_state Completed)) = "0a1b2c3d"
  /\ map id (jobs (delete_by_id "" (sample_state Completed)))
     = ["0a1b2c3d"; "deadbeef"; "cafe0001"]
  /\ current_job (delete_by_id "" (sample_state Completed)) = None.
Proof. repeat split; vm_compute; reflexivity. Qed.

(** ** Retry that keeps the texts *)

(** X8.  [retry_job], before it starts the pipeline, makes the job found
    queued with no error text and no log lines, in place, and keeps
    everything else, in particular the transcript, the summary, the title
    and the file path (where [retry_current] empties transcript and
    summary); the other jobs are as before, and the state is saved. *)
Theorem retry_job_keeps_texts (job_id : string) (s : AppState) (x : Job) :
  _get_job (jobs s) job_id = Some x ->
  exists s',
    retry_job_reset job_id s = Some s'
    /\ (forall w, retry_job w job_id s = run_job w job_id s')
    /\ _get_job (jobs s') job_id = Some (reset_light x)
    /\ status (reset_light x) = Queued
    /\ error (reset_light x) = ""
    /\ logs (reset_light x) = []
    /\ transcript (reset_light x) = transcript x
    /\ summary (reset_light x) = summary x
    /\ title (reset_light x) = title x
    /\ inputs_of (reset_light x) = inputs_of x
    /\ identity_of (reset_light x) = identity_of x
    /\ jobs_file s' = jobs s'
    /\ exists pre post,
         jobs s = (pre ++ x :: post)%list /\ jobs s' = (pre ++ reset_light x :: post)%list.
Proof.
  intros Hget.
  destruct (hold_get _ _ _ Hget) as (h & Hh & <-).
  destruct (hold_some _ _ _ Hh) as (Hjobs & Hid & Hpre & _).
  unfold retry_job, retry_job_reset. rewrite Hh.
  eexists. split; [reflexivity|]. split; [reflexivity|].
  assert (E : (fun y => with_summary (summary y) y)
                (with_logs [] (with_error "" (with_status Queued (j h))))
              = reset_light (j h)) by reflexivity.
  split.
  { simpl. unfold h_jobs. simpl. apply get_found; [exact Hpre|exact Hid]. }
  repeat (split; [reflexivity|]).
  exists (before h), (after h). split; [exact Hjobs|reflexivity].
Qed.

Lemma retry_job_keeps_texts_witness :
  exists s',
    retry_job_reset "deadbeef" (sample_state Error) = Some s'
    /\ _get_job (jobs s') "deadbeef" = Some (reset_light (sample_job "deadbeef" Error))
    /\ transcript (reset_light (sample_job "deadbeef" Error)) = JStr "hello there".
Proof.
  destruct (retry_job_keeps_texts "deadbeef" (sample_state Error) (sample_job "deadbeef" Error)
              eq_refl) as (s' & H1 & _ & H3 & _).
  exists s'. split; [exact H1|]. split; [exact H3|reflexivity].
Defined.

(** ** Log lines *)

(** X24.  [_append_log] does nothing when no job has the id.  Otherwise it
    puts the line at the end of the log of the first job with the id,
    leaves every other key of that job and every other job as they were,
    the later jobs with the same id included, and saves. *)
Theorem append_log_appends (job_id line : string) (s : AppState) :
  let s' := _append_log job_id line s in
  (_get_job (jobs s) job_id = None -> s' = s)
  /\ (forall x, _get_job (jobs s) job_id = Some x ->
      exists pre post,
        jobs s = (pre ++ x :: post)%list
        /\ _get_job pre job_id = None
        /\ jobs s' = (pre ++ with_logs (logs x ++ [line]) x :: post)%list
        /\ _get_job (jobs s') job_id = Some (with_logs (logs x ++ [line]) x)
        /\ jobs_file s' = jobs s'
        /\ current_job_id s' = current_job_id s /\ audio_url s' = audio_url s
        /\ status_log s' = status_log s).
Proof.
  intros s'. unfold s', _append_log. split.
  - intros H. rewrite (hold_none _ _ H). reflexivity.
  - intros x Hget.
    destruct (hold_get _ _ _ Hget) as (h & Hh & <-). rewrite Hh.
    destruct (hold_some _ _ _ Hh) as (Hjobs & Hid & Hpre & _ & Hu & Hc & _ & Hl).
    exists (before h), (after h).
    split; [exact Hjobs|]. split; [exact Hpre|]. split; [reflexivity|].
    split; [simpl; unfold h_jobs; simpl; apply get_found; [exact Hpre|exact Hid]|].
    split; [reflexivity|]. simpl. auto.
Qed.

Example append_log_on_sample :
  map (fun x => (id x, logs x))
      (jobs (_append_log "cafe0001" "hello" (sample_state Completed)))
  = [("0a1b2c3d", ["Starting pipeline"; "Downloading audio ..."]);
     ("deadbeef", ["Starting pipeline"; "Downloading audio ..."]);
     ("cafe0001", ["Starting pipeline"; "Downloading audio ..."; "hello"])]
  /\ _append_log "nobody" "hello" (sample_state Completed) = sample_state Completed.
Proof. split; vm_compute; reflexivity. Qed.

(** * Further properties of the titles *)

Lemma chars_app (a b : string) :
  list_ascii_of_string (a ++ b) = (list_ascii_of_string a ++ list_ascii_of_string b)%list.
Proof. induction a as [|c a IH]; simpl; [reflexivity|]. rewrite IH. reflexivity. Qed.

Lemma chars_substring (c : ascii) (s : string) (m n : nat) :
  In c (list_ascii_of_string (String.substring m n s)) -> In c (list_ascii_of_string s).
Proof.
  revert m n. induction s as [|x s IH]; intros m n; simpl.
  - destruct m, n; simpl; tauto.
  - destruct m as [|m].
    + destruct n as [|n]; simpl; [tauto|]. intros [H|H]; [left; exact H|right; exact (IH 0 n H)].
    + intros H. right. exact (IH m n H).
Qed.

Lemma chars_lstrip (p : ascii -> bool) (c : ascii) (s : string) :
  In c (list_ascii_of_string (Py.lstrip_by p s)) -> In c (list_ascii_of_string s).
Proof.
  induction s as [|x s IH]; simpl; [tauto|].
  destruct (p x); simpl; [intros H; right; exact (IH H)|tauto].
Qed.

Lemma chars_rstrip (p : ascii -> bool) (c : ascii) (s : string) :
  In c (list_ascii_of_string (Py.rstrip_by p s)) -> In c (list_ascii_of_string s).
Proof.
  induction s as [|x s IH]; simpl; [tauto|].
  destruct (Py.rstrip_by p s) as [|y r].
  - destruct (p x); simpl; tauto.
  - simpl. intros [H|H]; [left; exact H|right; apply IH; exact H].
Qed.

Lemma chars_strip (p : ascii -> bool) (c : ascii) (s : string) :
  In c (list_ascii_of_string (Py.strip_by p s)) -> In c (list_ascii_of_string s).
Proof. intros H. apply (chars_lstrip p), (chars_rstrip p), H. Qed.

(** Deleting the matches of a one-character class leaves the characters
    outside the class. *)
Lemma delete_class_chars (p : ascii -> bool) (c : ascii) (fuel : nat) (prev : option ascii)
      (s : string) :
  String.length s < fuel ->
  In c (list_ascii_of_string (delete_from fuel (Chr p) prev s)) ->
  In c (list_ascii_of_string s) /\ p c = false.
Proof.
  revert prev s. induction fuel as [|fuel IH]; intros prev s Hlen; [lia|].
  destruct s as [|x s]; simpl; [tauto|].
  unfold match_at. simpl.
  destruct (p x) eqn:Ex; simpl.
  - destruct (Nat.ltb_spec (String.length s) (S (String.length s))) as [_|H]; [|lia].
    intros H. simpl in Hlen. destruct (IH (Some x) s ltac:(lia) H) as (H1 & H2). auto.
  - intros [<-|H]; [auto|]. simpl in Hlen.
    destruct (IH (Some x) s ltac:(lia) H) as (H1 & H2). auto.
Qed.

Lemma limit_chars (c : ascii) (t : string) :
  In c (list_ascii_of_string (limit t)) -> In c (list_ascii_of_string t) \/ c = "."%char.
Proof.
  unfold limit. destruct (Nat.ltb 50 (String.length t)); [|auto].
  rewrite chars_app, in_app_iff. intros [H|H].
  - left. exact (chars_substring _ _ _ _ H).
  - right. simpl in H. intuition congruence.
Qed.

(** A title cut from a text: none of its characters is a markup mark. *)
Lemma cut_clean (c : ascii) (t : string) :
  In c (list_ascii_of_string (limit (re_delete pat_markup t))) -> any_of "*_#" c = false.
Proof.
  intros H. destruct (limit_chars _ _ H) as [H1| ->]; [|reflexivity].
  unfold re_delete, pat_markup in H1.
  exact (proj2 (delete_class_chars _ _ _ _ _ (Nat.lt_succ_diag_r _) H1)).
Qed.

(** X9.  The title extracted from a summary holds none of the markup
    characters [*], [_] and [#], whatever the summary. *)
Theorem extracted_title_has_no_markup (summary : string) (c : ascii) :
  In c (list_ascii_of_string (extract_title_from_summary summary)) ->
  c <> "*"%char /\ c <> "_"%char /\ c <> "#"%char.
Proof.
  intros H.
  assert (Hc : any_of "*_#" c = false).
  { unfold extract_title_from_summary in H.
    destruct (negb (Py.truthy summary)); [destruct H|].
    simpl title_by_pattern in H.
    destruct (re_search pat_topic _); [exact (cut_clean _ _ H)|].
    destruct (re_search pat_sentence _); [exact (cut_clean _ _ H)|].
    rewrite title_by_line_find in H.
    destruct (find line_qualifies _); simpl option_map in H; cbv iota in H;
      [exact (cut_clean _ _ H)|].
    vm_compute in H. intuition (subst; reflexivity). }
  unfold any_of in Hc. simpl in Hc.
  repeat split; intros ->; discriminate Hc.
Qed.

Lemma extracted_title_has_no_markup_witness :
  In "B"%char (list_ascii_of_string
                 (extract_title_from_summary
                    ("## Summary" ++ nl ++ "Topic: **Budget_review** #3.")))
  /\ "B"%char <> "*"%char.
Proof.
  assert (H : In "B"%char (list_ascii_of_string
                             (extract_title_from_summary
                                ("## Summary" ++ nl ++ "Topic: **Budget_review** #3."))))
    by (vm_compute; left; reflexivity).
  split; [exact H|].
  exact (proj1 (extracted_title_has_no_markup _ _ H)).
Defined.

Example title_without_markup :
  extract_title_from_summary ("## Summary" ++ nl ++ "Topic: **Budget_review** #3.")
  = "Budgetreview 3"
  /\ extract_title_from_summary "* a list item that is long enough" =
     " a list item that is long enough".
Proof. split; vm_compute; reflexivity. Qed.

(** ** The title by the model *)

Lemma lstrip_head (p : ascii -> bool) (s : string) (c : ascii) (r : string) :
  Py.lstrip_by p s = String c r -> p c = false.
Proof.
  induction s as [|x s IH]; simpl; [discriminate|].
  destruct (p x) eqn:E; [exact IH|]. intros H. inversion H; subst. exact E.
Qed.

Lemma rstrip_head (p : ascii -> bool) (s : string) (c : ascii) (r : string) :
  Py.rstrip_by p s = String c r -> exists s', s = String c s'.
Proof.
  destruct s as [|x s]; simpl; [discriminate|].
  destruct (Py.rstrip_by p s).
  - destruct (p x); [discriminate|]. intros H. inversion H; subst. eexists; reflexivity.
  - intros H. inversion H; subst. eexists; reflexivity.
Qed.

Lemma rstrip_last (p : ascii -> bool) (s r : string) (d : ascii) :
  Py.rstrip_by p s = r ++ String d "" -> p d = false.
Proof.
  revert r. induction s as [|x s IH]; intros r; simpl.
  - destruct r; discriminate.
  - destruct (Py.rstrip_by p s) as [|y t] eqn:E.
    + destruct (p x) eqn:Ex; [destruct r; discriminate|].
      destruct r as [|a [|b r]]; simpl; intros H; inversion H; subst; exact Ex.
    + destruct r as [|a r]; simpl; intros H; inversion H as [[Ha Hr]].
      exact (IH r Hr).
Qed.

(** A stripped text neither starts nor ends with a stripped character. *)
Lemma strip_by_ends (p : ascii -> bool) (s : string) :
  (forall c r, Py.strip_by p s = String c r -> p c = false)
  /\ (forall r d, Py.strip_by p s = r ++ String d "" -> p d = false).
Proof.
  unfold Py.strip_by. split.
  - intros c r H. destruct (rstrip_head _ _ _ _ H) as (s' & Hs).
    exact (lstrip_head _ _ _ _ Hs).
  - intros r d H. exact (rstrip_last _ _ _ _ H).
Qed.




Example title_by_the_model :
  let answer := fun content =>
    inr (mkChat 200 (inr (JDict [("choices",
           JList [JDict [("message", JDict [("content", JStr content)])]])]))) in
  generate_title_from_summary true (answer (String dq "Budget review" ++ String dq ""))
                              "Topic: the budget."
  = "Budget review"
  /\ generate_title_from_summary true (answer "") "Topic: the budget." = "the budget"
  /\ generate_title_from_summary true (inl refused) "Topic: the budget." = "the budget"
  /\ generate_title_from_summary false (answer "Budget review") "Topic: the budget."
     = "the budget".
Proof. repeat split; vm_compute; reflexivity. Qed.

(** * Further properties of the downloader and of the link resolver *)

Lemma guess_ext_range (url ctype : string) :
  In (_guess_ext url ctype) [".mp3"; ".m4a"; ".wav"; ".bin"].
Proof.
  unfold _guess_ext.
  repeat match goal with
         | |- context [if ?c then _ else _] => destruct c
         end; simpl; auto 10.
Qed.

(** X11.  Whatever the server answers, [download_audio_file] first logs
    ["Downloading audio ..."].  When it returns, the path returned is
    [data/files/<job_id><ext>] with [ext] one of [.mp3], [.m4a], [.wav],
    [.bin], and the file at that path holds the body, chunk after chunk.
    When it leaves no file it has raised, logging nothing more: a request
    or HTTP error, a content-length that is no integer (even when the
    content is audio), or the content-type error.  When the stream breaks
    after some chunks, the error is raised and the file with the chunks
    received stays. *)
Theorem download_leaves_file (format_pct : nat -> Z -> string) (get : PyExn + Streamed)
        (job_id url : string) :
  let d := download_audio_file format_pct get job_id url in
  (exists more, emitted (dl_stage d) = "Downloading audio ..." :: more)
  /\ (forall p, outcome (dl_stage d) = inr p ->
      exists r ext,
        get = inr r /\ body_error r = None
        /\ p = "data/files/" ++ job_id ++ ext
        /\ In ext [".mp3"; ".m4a"; ".wav"; ".bin"]
        /\ dl_file d = Some (p, body_bytes (body r)))
  /\ (dl_file d = None ->
      emitted (dl_stage d) = ["Downloading audio ..."]
      /\ exists e, outcome (dl_stage d) = inl e)
  /\ (forall r v, get = inr r -> http_error r = None ->
      content_length r = Some v -> py_int v = None ->
      dl_file d = None
      /\ exists msg, outcome (dl_stage d) = inl (mkExn "ValueError" msg))
  /\ (forall r e, get = inr r -> dl_file d <> None -> body_error r = Some e ->
      outcome (dl_stage d) = inl e
      /\ exists p, dl_file d = Some (p, body_bytes (body r))).
Proof.
  intros d. unfold d, download_audio_file.
  destruct get as [e|r].
  { simpl. split; [eexists; reflexivity|]. split; [discriminate|].
    split; [intros _; split; [reflexivity|eexists; reflexivity]|].
    split; [discriminate|]. intros r e' _ H. congruence. }
  destruct (http_error r) as [e|] eqn:Eh.
  { simpl. split; [eexists; reflexivity|]. split; [discriminate|].
    split; [intros _; split; [reflexivity|eexists; reflexivity]|].
    split; [intros r' v H; inversion H; subst; congruence|].
    intros r' e' _ H. congruence. }
  destruct (match content_length r with Some v => py_int v | None => Some 0%Z end)
    as [total|] eqn:El.
  2:{ simpl. split; [eexists; reflexivity|]. split; [discriminate|].
      split; [intros _; split; [reflexivity|eexists; reflexivity]|].
      split; [intros; split; [reflexivity|eexists; reflexivity]|].
      intros r' e' _ H. congruence. }
  destruct (negb _) eqn:Ea.
  { simpl. split; [eexists; reflexivity|]. split; [discriminate|].
    split; [intros _; split; [reflexivity|eexists; reflexivity]|].
    split; [intros r' v H _ Hv Hn; inversion H; subst; rewrite Hv, Hn in El; discriminate El|].
    intros r' e' _ H. congruence. }
  assert (Hw : written (download_loop (body r)) = body_bytes (body r))
    by (unfold download_loop; rewrite download_fold_written; reflexivity).
  simpl. rewrite Hw.
  split; [eexists; reflexivity|].
  split.
  { intros p Hp. exists r, (_guess_ext url (Py.or_empty (content_type r))).
    destruct (body_error r); [discriminate Hp|]. inversion Hp; subst.
    split; [reflexivity|]. split; [reflexivity|]. split; [reflexivity|].
    split; [apply guess_ext_range|reflexivity]. }
  split; [discriminate|].
  split; [intros r' v H _ Hv Hn; inversion H; subst; rewrite Hv, Hn in El; discriminate El|].
  intros r' e H _ He. inversion H; subst. rewrite He.
  split; [reflexivity|eexists; reflexivity].
Qed.

Example download_edge_cases :
  let audio := fun len err => mkStreamed None len (Some "audio/mpeg")
                                [("abc", (1700000000 # 1)%Q)] err in
  download_audio_file no_pct (inr (audio (Some "12 kB") None)) "0a1b2c3d" "https://example.com/a"
  = mkDownloaded
      (mkStage ["Downloading audio ..."]
         (inl (mkExn "ValueError" "invalid literal for int() with base 10: '12 kB'")))
      None
  /\ download_audio_file no_pct (inr (audio None (Some refused))) "0a1b2c3d"
       "https://example.com/a"
     = mkDownloaded
         (mkStage ["Downloading audio ..."; "download: 3/? bytes (0.0%)"] (inl refused))
         (Some ("data/files/0a1b2c3d.mp3", "abc")).
Proof. split; vm_compute; reflexivity. Qed.

Section ResolverRequests.

Variable float_nonzero : string -> bool.
Variable html_unescape : string -> string.
Variable net : string -> PyExn + Page.

Lemma by_page_asks (lines asked : list string) (url : string) :
  res_requests (resolve_by_page html_unescape net lines asked url) = (asked ++ [url])%list
  /\ exists more,
       emitted (res_stage (resolve_by_page html_unescape net lines asked url))
       = (lines ++ more)%list.
Proof.
  unfold resolve_by_page.
  destruct (share_page html_unescape net url) as [e|[l [found|]]]; simpl;
    (split; [reflexivity|eexists; reflexivity]).
Qed.

(** X12.  [resolve_plaud_audio_url] asks nothing for a URL without
    [plaud.ai].  For the other URLs it first logs ["Resolving Plaud link
    ..."] and then asks, in this order and stopping at the first strategy
    that finds a link: the temp API and the content API of [api.plaud.ai],
    both only when the URL has a share token, and the URL itself.  So it
    makes three requests at most, and none to any other address. *)
Theorem resolve_asks_in_order (job_id url : string) :
  let r := resolve_plaud_audio_url float_nonzero html_unescape net job_id url in
  let api1 := fun t => "https://api.plaud.ai/file/share-file-temp/" ++ t in
  let api2 := fun t => "https://api.plaud.ai/file/share-content/" ++ t in
  (Py.contains "plaud.ai" url = false -> res_requests r = [] /\ emitted (res_stage r) = [])
  /\ (Py.contains "plaud.ai" url = true ->
      (exists more, emitted (res_stage r) = "Resolving Plaud link ..." :: more)
      /\ (share_token url = None -> res_requests r = [url])
      /\ (forall t, share_token url = Some t -> t <> "" ->
          (forall v, att_found (temp_api float_nonzero net t) = Some v ->
                     res_requests r = [api1 t] /\ outcome (res_stage r) = inr v)
          /\ (forall c, att_found (temp_api float_nonzero net t) = None ->
                        att_found (content_api float_nonzero net t) = Some c ->
                        res_requests r = [api1 t; api2 t] /\ outcome (res_stage r) = inr c)
          /\ (att_found (temp_api float_nonzero net t) = None ->
              att_found (content_api float_nonzero net t) = None ->
              res_requests r = [api1 t; api2 t; url])))
  /\ length (res_requests r) <= 3
  /\ Forall (fun u => u = url \/ Py.startswith "https://api.plaud.ai/file/share-" u = true)
            (res_requests r).
Proof.
  intros r api1 api2. unfold r, resolve_plaud_audio_url.
  destruct (Py.contains "plaud.ai" url); simpl negb; cbv iota.
  2:{ simpl. split; [auto|]. split; [discriminate|]. split; [lia|constructor]. }
  split; [discriminate|].
  destruct (share_token url) as [t|].
  2:{ destruct (by_page_asks ["Resolving Plaud link ..."] [] url) as (Ha & more & Hl).
      rewrite Ha. simpl. split; [|split; [lia|repeat constructor]].
      intros _. split; [exists more; exact Hl|]. split; [reflexivity|discriminate]. }
  destruct t as [|a t]; simpl Py.truthy; cbv iota.
  { destruct (by_page_asks ["Resolving Plaud link ..."] [] url) as (Ha & more & Hl).
    rewrite Ha. simpl. split; [|split; [lia|repeat constructor]].
    intros _. split; [exists more; exact Hl|]. split; [discriminate|].
    intros t H Hne. inversion H; subst. congruence. }
  set (t' := String a t).
  destruct (temp_api float_nonzero net t') as [l1 [v|]] eqn:E1.
  { simpl. split; [|split; [lia|repeat constructor; right; reflexivity]].
    intros _. split; [eexists; reflexivity|]. split; [discriminate|].
    intros t0 H _. inversion H; subst t0. fold t'. rewrite E1. simpl.
    split; [intros v' Hv; inversion Hv; subst; split; reflexivity|].
    split; discriminate. }
  destruct (content_api float_nonzero net t') as [l2 [c|]] eqn:E2.
  { simpl. split; [|split; [lia|repeat constructor; right; reflexivity]].
    intros _. split; [eexists; reflexivity|]. split; [discriminate|].
    intros t0 H _. inversion H; subst t0. fold t'. rewrite E1, E2. simpl.
    split; [discriminate|].
    split; [intros c' _ Hc; inversion Hc; subst; split; reflexivity|discriminate]. }
  destruct (by_page_asks (["Resolving Plaud link ..."] ++ l1 ++ l2)
              [api1 t'; api2 t'] url) as (Ha & more & Hl).
  fold (api1 t') (api2 t'). rewrite Ha. rewrite Hl. simpl.
  split; [|split; [lia|repeat constructor; right; reflexivity]].
  intros _. split; [eexists; reflexivity|]. split; [discriminate|].
  intros t0 H _. inversion H; subst t0. fold t'. rewrite E1, E2. simpl.
  split; [discriminate|]. split; [discriminate|reflexivity].
Qed.

End ResolverRequests.

(** * Properties of the transcriber *)

Lemma blocks_lines_cons (b : string * list string) (bs : list (string * list string)) :
  blocks_lines (b :: bs) = (block_lines b ++ tail_lines bs)%list.
Proof. destruct bs; simpl; [rewrite app_nil_r|]; reflexivity. Qed.

Lemma tail_lines_cons (b : string * list string) (bs : list (string * list string)) :
  tail_lines (b :: bs) = ("" :: block_lines b ++ tail_lines bs)%list.
Proof.
  change (tail_lines (b :: bs)) with ("" :: blocks_lines (b :: bs)).
  rewrite blocks_lines_cons. reflexivity.
Qed.

(** The lines added after a first utterance, read off the blocks. *)
Lemma render_blocks_from (sp : string) (vs : list (string * string)) :
  render (Some sp) true vs =
  match blocks vs with
  | (sp', texts) :: bs => if String.eqb sp' sp then (texts ++ tail_lines bs)%list
                          else tail_lines (blocks vs)
  | [] => []
  end.
Proof.
  revert sp. induction vs as [|[s1 t1] more IH]; intros sp; [reflexivity|].
  cbn [render blocks].
  destruct (String.eqb_spec s1 sp) as [E|E].
  - subst s1. rewrite (IH sp).
    destruct (blocks more) as [|[s2 texts] bs]; [rewrite String.eqb_refl; reflexivity|].
    rewrite (String.eqb_sym sp s2).
    destruct (String.eqb_spec s2 sp) as [E2|E2]; rewrite String.eqb_refl; [reflexivity|].
    rewrite tail_lines_cons. reflexivity.
  - rewrite (IH s1).
    destruct (blocks more) as [|[s2 texts] bs].
    + destruct (String.eqb_spec s1 sp) as [E'|_]; [congruence|]. reflexivity.
    + rewrite (String.eqb_sym s1 s2).
      destruct (String.eqb_spec s2 s1) as [E2|E2];
        (destruct (String.eqb_spec s1 sp) as [E'|_]; [congruence|]);
        rewrite !tail_lines_cons; reflexivity.
Qed.

Lemma render_blocks (vs : list (string * string)) :
  render None false vs = blocks_lines (blocks vs).
Proof.
  destruct vs as [|[s1 t1] more]; [reflexivity|].
  cbn [render blocks app]. rewrite render_blocks_from.
  destruct (blocks more) as [|[s2 texts] bs]; [reflexivity|].
  rewrite (String.eqb_sym s1 s2).
  destruct (String.eqb s2 s1); rewrite blocks_lines_cons; [reflexivity|].
  rewrite tail_lines_cons. reflexivity.
Qed.

Section TranscriberFacts.

Variable float_nonzero : string -> bool.
Variable py_repr : JSON -> string.
Variable fault : Fault -> JSON -> PyExn.

Lemma speak_views (utts : list JSON) (vs : list (string * string)) :
  views py_repr utts = Some vs ->
  forall current acc,
    (current <> None -> acc <> []) ->
    speak py_repr fault utts current acc
    = inr (acc ++ render current (match acc with [] => false | _ => true end) vs)%list.
Proof.
  revert vs. induction utts as [|utt more IH]; intros vs Hv current acc Hinv.
  - inversion Hv; subst. simpl. rewrite app_nil_r. reflexivity.
  - cbn [views] in Hv.
    destruct (view py_repr utt) as [[sp text]|] eqn:Eu; [|discriminate].
    destruct (views py_repr more) as [vs'|] eqn:Em; [|discriminate].
    inversion Hv; subst vs. clear Hv. specialize (IH vs' eq_refl).
    assert (Hstep : speak py_repr fault (utt :: more) current acc =
                    if match current with Some c => String.eqb sp c | None => false end
                    then speak py_repr fault more current (acc ++ [text])%list
                    else speak py_repr fault more (Some sp)
                           (((match acc with [] => acc | _ => (acc ++ [""])%list end)
                             ++ [header sp]) ++ [text])%list).
    { unfold view in Eu. destruct utt as [| | | | | |kv]; try discriminate.
      cbn [speak get_or].
      destruct (dict_get kv "text") as [[| | | |t| |]|]; try discriminate;
        inversion Eu; subst; reflexivity. }
    rewrite Hstep. cbn [render].
    destruct (match current with Some c => String.eqb sp c | None => false end) eqn:Ec.
    + assert (Hne : acc <> []) by (apply Hinv; destruct current; [discriminate|discriminate Ec]).
      rewrite IH by (intros _; destruct acc; discriminate).
      rewrite <- app_assoc. simpl.
      destruct acc as [|a acc]; [congruence|]. reflexivity.
    + rewrite IH by (intros _ E; apply app_eq_nil in E; destruct E; discriminate).
      destruct acc as [|a acc]; simpl; [reflexivity|].
      rewrite <- !app_assoc. simpl. reflexivity.
Qed.

Lemma speak_raises (utts : list JSON) :
  views py_repr utts = None ->
  forall current acc, exists e, speak py_repr fault utts current acc = inl e.
Proof.
  induction utts as [|utt more IH]; intros Hv current acc; [discriminate|].
  cbn [views] in Hv.
  destruct (view py_repr utt) as [[sp text]|] eqn:Eu.
  - destruct (views py_repr more) as [vs'|] eqn:Em; [discriminate|].
    unfold view in Eu. destruct utt as [| | | | | |kv]; try discriminate.
    cbn [speak get_or].
    destruct (dict_get kv "text") as [[| | | |t| |]|]; try discriminate;
      cbn [strip_of];
      destruct (match current with Some c => _ | None => false end); apply IH; reflexivity.
  - unfold view in Eu. destruct utt as [| | | | | |kv]; try (eexists; reflexivity).
    cbn [speak get_or].
    destruct (dict_get kv "text") as [[| | | |t| |]|]; try discriminate;
      eexists; reflexivity.
Qed.

Lemma points_lines (hs : list JSON) (acc : list string) :
  Forall (fun h => is_dict h = true) hs ->
  points py_repr fault hs acc = inr (acc ++ map (point_line py_repr) hs)%list.
Proof.
  revert acc. induction hs as [|h more IH]; intros acc Hd.
  - simpl. rewrite app_nil_r. reflexivity.
  - inversion Hd as [|? ? Hh Hm]; subst. destruct h as [| | | | | |kv]; try discriminate Hh.
    cbn [points get_or]. rewrite (IH _ Hm). rewrite <- app_assoc.
    cbn [map app]. unfold point_line. cbn [get].
    destruct (dict_get kv "text"); reflexivity.
Qed.

Lemma poll_pending (waiting : list (PyExn + Page)) (ls : list string) :
  pending_lines py_repr waiting = Some ls ->
  forall more lines,
    poll float_nonzero py_repr fault (waiting ++ more) lines
    = poll float_nonzero py_repr fault more (lines ++ ls)%list.
Proof.
  revert ls. induction waiting as [|p waiting IH]; intros ls Hp more lines.
  - inversion Hp; subst. simpl. rewrite app_nil_r. reflexivity.
  - cbn [pending_lines] in Hp.
    destruct (pending py_repr p) as [l|] eqn:E; [|discriminate].
    destruct (pending_lines py_repr waiting) as [ls'|]; [|discriminate].
    inversion Hp; subst ls. clear Hp.
    unfold pending in E. cbn [app poll].
    destruct (checked p) as [e|r]; [discriminate|].
    destruct (page_json r) as [e|[| | | | | |kv]]; try discriminate.
    cbn [get_or].
    set (status := match dict_get kv "status" with Some x => x | None => JStr "?" end) in *.
    destruct (is_text status "completed"); [discriminate|].
    destruct (is_text status "error"); [discriminate|].
    destruct (hashable status); [|discriminate].
    simpl in E. inversion E; subst l.
    rewrite (IH ls' eq_refl). rewrite <- app_assoc. reflexivity.
Qed.

(** X13.  The utterances of a completed transcription are rendered block
    by block: the consecutive utterances of one speaker form a block, a
    line [[Speaker X]:] followed by their stripped texts in order, and one
    empty line separates two blocks.  No block is empty, two neighbouring
    blocks have different speakers, and the texts of the blocks are the
    texts of the utterances, in order.  This holds when every utterance is
    an object whose text, if present, is a string; otherwise the loop
    raises. *)
Theorem utterances_render_in_blocks (utts : list JSON) :
  match views py_repr utts with
  | Some vs =>
      speak py_repr fault utts None [] = inr (blocks_lines (blocks vs))
      /\ flat_map snd (blocks vs) = map snd vs
      /\ Forall (fun b => snd b <> []) (blocks vs)
      /\ (forall pre b1 b2 post,
            blocks vs = (pre ++ b1 :: b2 :: post)%list -> fst b1 <> fst b2)
  | None => exists e, speak py_repr fault utts None [] = inl e
  end.
Proof.
  destruct (views py_repr utts) as [vs|] eqn:Ev; [|apply speak_raises; exact Ev].
  split.
  { rewrite (speak_views _ _ Ev None []) by congruence. simpl. rewrite render_blocks.
    reflexivity. }
  clear Ev. induction vs as [|[sp text] vs IH]; simpl.
  { split; [reflexivity|]. split; [constructor|].
    intros [|? ?] ? ? ? H; discriminate H. }
  destruct IH as (H1 & H2 & H3).
  destruct (blocks vs) as [|[sp' texts] bs] eqn:Eb.
  { simpl in *. rewrite <- H1. split; [reflexivity|].
    split; [constructor; [discriminate|constructor]|].
    intros [|? [|? ?]] ? ? ? H; discriminate H. }
  destruct (String.eqb_spec sp sp') as [E|E].
  - subst sp'. simpl in *. rewrite <- H1. split; [reflexivity|].
    split.
    { inversion H2; subst. constructor; [discriminate|assumption]. }
    intros pre b1 b2 post H.
    destruct pre as [|p0 pre]; simpl in H.
    + inversion H; subst. simpl. apply (H3 [] (sp, texts) b2 post). reflexivity.
    + inversion H; subst. apply (H3 ((sp, texts) :: pre) b1 b2 post). reflexivity.
  - simpl in *. rewrite <- H1. split; [reflexivity|].
    split; [constructor; [discriminate|assumption]|].
    intros pre b1 b2 post H.
    destruct pre as [|p0 pre]; simpl in H.
    + inversion H; subst. exact E.
    + inversion H as [[Hp Hrest]]. exact (H3 pre b1 b2 post Hrest).
Qed.

(** X14.  The text of a completed transcription.  Without utterances (the
    key absent, or its value empty or null) it is what the body holds
    under ["text"], the empty text when the key is absent.  With a list of
    well-formed utterances it is their blocks joined by newlines when the
    body has no ["auto_highlights_result"] or one without results; when
    ["auto_highlights_result"] is null (or anything but an object) the
    lookup of ["results"] fails and the transcriber raises, the utterances
    notwithstanding; when the results are a non-empty list of objects, the
    line of the key points and one line for each of the first five results
    follow the blocks, and no more. *)
Theorem completed_transcript (body : list (string * JSON)) :
  let text := completed_text float_nonzero py_repr fault (JDict body) in
  let utterances := match dict_get body "utterances" with Some u => u | None => JList [] end in
  (json_truthy float_nonzero utterances = false ->
   text = inr (match dict_get body "text" with Some t => t | None => JStr "" end))
  /\ (forall utts vs,
      utterances = JList utts -> utts <> [] -> views py_repr utts = Some vs ->
      let lines := blocks_lines (blocks vs) in
      (dict_get body "auto_highlights_result" = None -> text = inr (JStr (join nl lines)))
      /\ (forall v, dict_get body "auto_highlights_result" = Some v -> is_dict v = false ->
          text = inl (fault (NoAttribute "get") v))
      /\ (forall res, dict_get body "auto_highlights_result" = Some (JDict res) ->
          (dict_get res "results" = None \/ dict_get res "results" = Some (JList [])) ->
          text = inr (JStr (join nl lines)))
      /\ (forall res hs, dict_get body "auto_highlights_result" = Some (JDict res) ->
          dict_get res "results" = Some (JList hs) -> hs <> [] ->
          Forall (fun h => is_dict h = true) (firstn 5 hs) ->
          text = inr (JStr (join nl (lines ++ key_points
                                           :: map (point_line py_repr) (firstn 5 hs))))
          /\ length (map (point_line py_repr) (firstn 5 hs)) <= 5)).
Proof.
  intros text utterances. unfold text, completed_text. cbn [get_or]. fold utterances.
  split.
  { intros ->. reflexivity. }
  intros utts vs Hu Hne Hv. set (lines := blocks_lines (blocks vs)). rewrite Hu.
  assert (Ht : json_truthy float_nonzero (JList utts) = true)
    by (destruct utts; [congruence|reflexivity]).
  rewrite Ht. cbn [iterate].
  rewrite (speak_views _ _ Hv None []) by congruence.
  simpl app. rewrite render_blocks. fold lines.
  split; [intros ->; reflexivity|].
  split.
  { intros v -> Hd. destruct v; try reflexivity. discriminate Hd. }
  split.
  { intros res -> H. cbn [get_or]. destruct H as [->| ->]; reflexivity. }
  intros res hs -> Hr Hhs Hd.
  assert (Hth : json_truthy float_nonzero (JList hs) = true)
    by (destruct hs; [congruence|reflexivity]).
  cbn [get_or]. rewrite Hr, Hth. cbn [first_five].
  rewrite (points_lines _ _ Hd). rewrite <- app_assoc.
  split; [reflexivity|].
  rewrite length_map, length_firstn. apply Nat.le_min_l.
Qed.

(** X15.  Without the API key [transcribe_with_assemblyai] logs that it
    skips and returns [None], whatever the service would answer.  With the
    key, once the upload and the creation of the transcript have answered
    with their keys, it polls: every answer whose status is neither
    ["completed"] nor ["error"] logs one line and the polling goes on; the
    first answer with status ["completed"] ends it with the text of the
    transcript, the first one with status ["error"] ends it with a
    [RuntimeError] carrying the error of the body (["unknown error"] when
    absent); answers after that one are not read.  As long as no such
    answer comes the transcriber keeps polling. *)
Theorem transcriber_polls_to_the_end (api_key : option string)
        (upload create : PyExn + Page) (polls : list (PyExn + Page))
        (job_id file_path : string) :
  let run := transcribe_with_assemblyai float_nonzero py_repr fault api_key upload create
               polls job_id file_path in
  (Py.truthy_opt api_key = false ->
   run = Finished (mkStage ["ASSEMBLYAI_API_KEY not set " ++ arrow ++ " skipping transcription"]
                           (inr JNull)))
  /\ (forall r1 v1 url r2 v2 tid waiting ls,
      Py.truthy_opt api_key = true ->
      checked upload = inr r1 -> page_json r1 = inr v1 -> get v1 "upload_url" = Some url ->
      checked create = inr r2 -> page_json r2 = inr v2 -> get v2 "id" = Some tid ->
      pending_lines py_repr waiting = Some ls ->
      let started := ["Uploading to AssemblyAI ...";
                      "Create transcript job with speaker diarization ...";
                      "Transcript id=" ++ py_str py_repr tid ++ "; polling ..."] in
      (polls = waiting -> run = Polling (started ++ ls)%list)
      /\ (forall p r body rest,
          polls = (waiting ++ p :: rest)%list ->
          checked p = inr r -> page_json r = inr (JDict body) ->
          (dict_get body "status" = Some (JStr "completed") ->
           run = Finished
                   (mkStage (started ++ ls ++ ["transcribe: status=completed"])%list
                            (completed_text float_nonzero py_repr fault (JDict body))))
          /\ (dict_get body "status" = Some (JStr "error") ->
              run = Finished
                      (mkStage (started ++ ls ++ ["transcribe: status=error"])%list
                         (inl (transcription_failed py_repr
                                 (match dict_get body "error" with
                                  | Some err => err
                                  | None => JStr "unknown error"
                                  end))))))).
Proof.
  intros run. unfold run, transcribe_with_assemblyai. split.
  { intros ->. reflexivity. }
  intros r1 v1 url r2 v2 tid waiting ls Hk Hu Hj1 Hi1 Hc Hj2 Hi2 Hp. cbv zeta.
  rewrite Hk, Hu, Hj1, Hc, Hj2. unfold item. rewrite Hi1, Hi2. cbn [negb app].
  split.
  { intros ->. rewrite <- (app_nil_r waiting), (poll_pending _ _ Hp). reflexivity. }
  intros p r body rest -> Hcp Hjp.
  rewrite (poll_pending _ _ Hp). cbn [poll]. rewrite Hcp, Hjp. cbn [get_or].
  rewrite <- app_assoc.
  split; intros ->; reflexivity.
Qed.

End TranscriberFacts.

Lemma completed_transcript_witness :
  completed_text nonzero_all no_repr no_fault
    (JDict [("status", JStr "completed");
            ("utterances", JList [utterance "A" " hi "; utterance "B" "bye"]);
            ("auto_highlights_result", JNull)])
  = inl (no_fault (NoAttribute "get") JNull).
Proof.
  destruct (completed_transcript nonzero_all no_repr no_fault
              [("status", JStr "completed");
               ("utterances", JList [utterance "A" " hi "; utterance "B" "bye"]);
               ("auto_highlights_result", JNull)]) as (_ & H).
  destruct (H [utterance "A" " hi "; utterance "B" "bye"]
              [("Speaker A", "hi"); ("Speaker B", "bye")] eq_refl) as (_ & H2 & _).
  - discriminate.
  - reflexivity.
  - exact (H2 JNull eq_refl eq_refl).
Defined.

Lemma transcriber_polls_to_the_end_witness :
  transcribe_with_assemblyai nonzero_all no_repr no_fault (Some "key") uploaded created
    [answer "{'status': 'queued'}"; answer "{'status': 'processing'}"; answer two_speakers;
     answer "{'status': 'error'}"]
    "0a1b2c3d" "data/files/0a1b2c3d.mp3"
  = Finished
      (mkStage ["Uploading to AssemblyAI ...";
                "Create transcript job with speaker diarization ...";
                "Transcript id=tr_1; polling ...";
                "transcribe: status=queued"; "transcribe: status=processing";
                "transcribe: status=completed"]
         (inr (JStr (join nl ["[Speaker A]:"; "hi"; "there"; ""; "[Speaker B]:"; "bye";
                              key_points; bullet ++ " greeting"])))).
Proof.
  pose proof (transcriber_polls_to_the_end nonzero_all no_repr no_fault (Some "key")
                uploaded created
                [answer "{'status': 'queued'}"; answer "{'status': 'processing'}";
                 answer two_speakers; answer "{'status': 'error'}"]
                "0a1b2c3d" "data/files/0a1b2c3d.mp3") as H.
  destruct H as (_ & H).
  destruct (H _ _ _ _ _ _ [answer "{'status': 'queued'}"; answer "{'status': 'processing'}"]
              _ eq_refl eq_refl eq_refl eq_refl eq_refl eq_refl eq_refl eq_refl) as (_ & H2).
  destruct (H2 (answer two_speakers) _ _ [answer "{'status': 'error'}"]
              eq_refl eq_refl eq_refl) as (H3 & _).
  rewrite (H3 eq_refl). vm_compute. reflexivity.
Defined.

Lemma utterances_render_in_blocks_witness :
  speak no_repr no_fault
        [utterance "A" " hi "; utterance "A" "there"; utterance "B" "bye"] None []
  = inr ["[Speaker A]:"; "hi"; "there"; ""; "[Speaker B]:"; "bye"].
Proof.
  exact (proj1 (utterances_render_in_blocks no_repr no_fault
                  [utterance "A" " hi "; utterance "A" "there"; utterance "B" "bye"])).
Defined.

(** * Properties of the environment file *)

Lemma env_get_app (env added : Env) (k v : string) :
  env_get env k = Some v -> env_get (env ++ added)%list k = Some v.
Proof.
  induction env as [|[k' v'] env IH]; simpl; [discriminate|].
  destruct (String.eqb k' k); [intros H; exact H|exact IH].
Qed.

Lemma env_get_last (env : Env) (k v : string) :
  env_get env k = None -> env_get (env ++ [(k, v)])%list k = Some v.
Proof.
  induction env as [|[k' v'] env IH]; simpl.
  - rewrite String.eqb_refl. reflexivity.
  - destruct (String.eqb k' k); [discriminate|exact IH].
Qed.

(** What [setdefault] returns, when it returns: the environment itself when
    the variable was set, else the environment with the variable added. *)
Lemma setdefault_some (env env' : Env) (k v : string) :
  setdefault env k v = Some env' ->
  (env' = env /\ env_get env k <> None)
  \/ (env' = (env ++ [(k, v)])%list /\ env_get env k = None /\ k <> ""
      /\ Py.contains "=" k = false).
Proof.
  unfold setdefault. destruct (env_get env k) as [v0|] eqn:E.
  - intros H. inversion H; subst. left. split; [reflexivity|discriminate].
  - destruct (negb (Py.truthy k)) eqn:E1; [discriminate|].
    destruct (Py.contains "=" k) eqn:E2; [discriminate|].
    destruct (has_nul k); [discriminate|].
    destruct (has_nul v); [discriminate|].
    simpl. intros H. inversion H; subst. right.
    split; [reflexivity|]. split; [reflexivity|]. split; [|reflexivity].
    intros ->. simpl in E1. discriminate E1.
Qed.

Lemma setdefault_set (env : Env) (k v v0 : string) :
  env_get env k = Some v0 -> setdefault env k v = Some env.
Proof. unfold setdefault. intros ->. reflexivity. Qed.

Lemma load_line_some (env env' : Env) (raw : string) :
  load_line env raw = Some env' ->
  (exists added, env' = (env ++ added)%list)
  /\ (forall k v, env_get env k = Some v -> env_get env' k = Some v)
  /\ (forall env'', (exists added, env'' = (env' ++ added)%list) ->
                    load_line env'' raw = Some env'').
Proof.
  unfold load_line.
  destruct (negb (Py.truthy (Py.strip raw)) || Py.startswith "#" (Py.strip raw)).
  { intros H. inversion H; subst. split; [exists []; rewrite app_nil_r; reflexivity|].
    split; [auto|reflexivity]. }
  destruct (split_once "=" (Py.strip raw)) as [[k v]|].
  2:{ intros H. inversion H; subst. split; [exists []; rewrite app_nil_r; reflexivity|].
      split; [auto|reflexivity]. }
  intros H. destruct (setdefault_some _ _ _ _ H) as [(-> & Hk)|(-> & Hk & _)].
  - split; [exists []; rewrite app_nil_r; reflexivity|]. split; [auto|].
    intros env'' (added & ->).
    destruct (env_get env (Py.strip k)) as [v0|] eqn:E; [|congruence].
    exact (setdefault_set _ _ _ _ (env_get_app _ added _ _ E)).
  - split; [eexists; reflexivity|].
    split; [intros k0 v0 H0; exact (env_get_app _ _ _ _ H0)|].
    intros env'' (added & ->).
    exact (setdefault_set _ _ _ _ (env_get_app _ added _ _ (env_get_last _ _ _ Hk))).
Qed.

Lemma load_lines_grows (lines : list string) (env : Env) :
  (exists added, load_lines env lines = (env ++ added)%list)
  /\ (forall k v, env_get env k = Some v -> env_get (load_lines env lines) k = Some v).
Proof.
  revert env. induction lines as [|raw more IH]; intros env; simpl.
  { split; [exists []; rewrite app_nil_r; reflexivity|auto]. }
  destruct (load_line env raw) as [env'|] eqn:E.
  - destruct (load_line_some _ _ _ E) as ((a1 & ->) & H2 & _).
    destruct (IH (env ++ a1)%list) as ((a2 & ->) & H4).
    split; [exists (a1 ++ a2)%list; rewrite app_assoc; reflexivity|].
    intros k v Hk. apply H4, H2, Hk.
  - split; [exists []; rewrite app_nil_r; reflexivity|auto].
Qed.

Lemma load_lines_again (lines : list string) (env : Env) :
  load_lines (load_lines env lines) lines = load_lines env lines.
Proof.
  revert env. induction lines as [|raw more IH]; intros env; [reflexivity|].
  cbn [load_lines]. destruct (load_line env raw) as [env'|] eqn:E.
  - destruct (load_line_some _ _ _ E) as (_ & _ & H3).
    cbn [load_lines]. rewrite (H3 _ (proj1 (load_lines_grows more env'))). apply IH.
  - cbn [load_lines]. rewrite E. reflexivity.
Qed.

Lemma env_get_either (env added : Env) (k : string) :
  env_get (env ++ added)%list k =
  match env_get env k with Some v => Some v | None => env_get added k end.
Proof.
  induction env as [|[k' v'] env IH]; simpl; [reflexivity|].
  destruct (String.eqb k' k); [reflexivity|exact IH].
Qed.

Lemma load_line_defined (env : Env) (raw : string) :
  load_line env raw =
  match defined_by raw with
  | None => Some env
  | Some (k, v) => setdefault env k v
  end.
Proof.
  unfold load_line, defined_by.
  destruct (negb (Py.truthy (Py.strip raw)) || Py.startswith "#" (Py.strip raw));
    [reflexivity|].
  destruct (split_once "=" (Py.strip raw)) as [[k v]|]; reflexivity.
Qed.

Lemma setdefault_settable (env : Env) (k v : string) :
  settable (k, v) = true ->
  setdefault env k v =
  Some (match env_get env k with Some _ => env | None => (env ++ [(k, v)])%list end).
Proof.
  unfold settable, setdefault. simpl. intros H.
  apply andb_prop in H. destruct H as (H & H4).
  apply andb_prop in H. destruct H as (H & H3).
  apply andb_prop in H. destruct H as (H1 & H2).
  destruct (env_get env k); [reflexivity|].
  rewrite H1. apply negb_true_iff in H2. apply negb_true_iff in H3.
  apply negb_true_iff in H4. rewrite H2, H3, H4. reflexivity.
Qed.

Lemma load_lines_app (pre rest : list string) (env : Env) :
  Forall (fun kv => settable kv = true) (definitions pre) ->
  load_lines env (pre ++ rest)%list = load_lines (load_lines env pre) rest.
Proof.
  revert env. induction pre as [|raw pre IH]; intros env Hok; [reflexivity|].
  unfold definitions in Hok. simpl in Hok. apply Forall_app in Hok. destruct Hok as (H1 & H2).
  simpl. rewrite load_line_defined.
  destruct (defined_by raw) as [[k v]|]; [|apply IH, H2].
  inversion H1; subst. rewrite (setdefault_settable env k v) by assumption.
  apply IH, H2.
Qed.

(** When every definition of the file can be set, each variable ends with
    the value it had, or, unset before, with its first definition. *)
Lemma load_lines_first (lines : list string) (env : Env) (k : string) :
  Forall (fun kv => settable kv = true) (definitions lines) ->
  env_get (load_lines env lines) k =
  match env_get env k with Some v => Some v | None => env_get (definitions lines) k end.
Proof.
  revert env. induction lines as [|raw more IH]; intros env Hok.
  { simpl. destruct (env_get env k); reflexivity. }
  unfold definitions in Hok. simpl in Hok. apply Forall_app in Hok. destruct Hok as (H1 & H2).
  cbn [load_lines]. rewrite load_line_defined.
  unfold definitions. cbn [flat_map]. fold (definitions more).
  destruct (defined_by raw) as [[k0 v0]|]; [|exact (IH env H2)].
  inversion H1; subst. rewrite (setdefault_settable env k0 v0) by assumption.
  rewrite IH by exact H2. simpl.
  destruct (env_get env k0) as [w0|] eqn:E0.
  - destruct (env_get env k) as [v|] eqn:Ek; [reflexivity|].
    destruct (String.eqb_spec k0 k) as [->|_]; [congruence|reflexivity].
  - rewrite env_get_either. simpl.
    destruct (env_get env k) as [v|]; [reflexivity|].
    destruct (String.eqb k0 k); reflexivity.
Qed.

(** X16.  Loading the environment file never changes a variable that is
    set: the environment after the load is the one before it followed by
    the variables added.  Loading the same file a second time changes
    nothing, and a file that does not exist leaves the environment as it
    is.  The first definition of a variable wins: in a file all of whose
    definitions can be set, every variable ends with the value it had in
    the environment, or, if it had none, with the value of the first line
    of the file that defines it, and with none when no line does; and
    whatever the later lines are, a variable that was not set and that a
    first part of the file without a bad line defines ends with its first
    definition there. *)
Theorem dotenv_keeps_what_is_set (dotenv : option (list string)) (env : Env) :
  let env' := _load_env_from_dotenv dotenv env in
  (exists added, env' = (env ++ added)%list)
  /\ (forall k v, env_get env k = Some v -> env_get env' k = Some v)
  /\ _load_env_from_dotenv dotenv env' = env'
  /\ _load_env_from_dotenv None env = env
  /\ (forall lines k,
        dotenv = Some lines ->
        Forall (fun kv => settable kv = true) (definitions lines) ->
        env_get env' k =
        match env_get env k with
        | Some v => Some v
        | None => env_get (definitions lines) k
        end)
  /\ (forall pre rest k v,
        dotenv = Some (pre ++ rest)%list ->
        Forall (fun kv => settable kv = true) (definitions pre) ->
        env_get env k = None ->
        env_get (definitions pre) k = Some v ->
        env_get env' k = Some v).
Proof.
  intros env'. unfold env'. destruct dotenv as [lines|]; simpl.
  - destruct (load_lines_grows lines env) as (H1 & H2).
    split; [exact H1|]. split; [exact H2|]. split; [apply load_lines_again|].
    split; [reflexivity|]. split.
    + intros lines' k E Hok. inversion E; subst lines'. apply load_lines_first, Hok.
    + intros pre rest k v E Hok Hk Hv. inversion E; subst lines.
      rewrite (load_lines_app pre rest env Hok).
      apply (proj2 (load_lines_grows rest (load_lines env pre))).
      rewrite (load_lines_first pre env k Hok), Hk. exact Hv.
  - split; [exists []; rewrite app_nil_r; reflexivity|].
    split; [auto|]. split; [reflexivity|]. split; [reflexivity|].
    split; intros; discriminate.
Qed.

(** Two definitions of one variable in a file: the first is kept, and a
    variable of the environment keeps its value. *)
Example dotenv_first_wins :
  _load_env_from_dotenv (Some ["A=1" ++ nl; "B = x" ++ nl; "A=2" ++ nl; "HOME=/tmp" ++ nl])
                        [("HOME", "/root")]
  = [("HOME", "/root"); ("A", "1"); ("B", "x")].
Proof. vm_compute. reflexivity. Qed.

Lemma load_lines_stop (pre : list string) (env : Env) (raw : string) (rest : list string) :
  load_line (load_lines env pre) raw = None ->
  load_lines env (pre ++ raw :: rest)%list = load_lines env pre.
Proof.
  revert env. induction pre as [|l pre IH]; intros env; simpl.
  - intros ->. reflexivity.
  - destruct (load_line env l) as [env'|]; [apply IH|reflexivity].
Qed.

(** X17.  A line whose variable cannot be set ends the load: the lines
    after it are not read.  This is the case of a line that starts with
    [=] (an empty name), and of a line whose name or value holds a null
    character, when the variable is not set already. *)
Theorem dotenv_stops_at_a_bad_line (env : Env) (pre rest : list string) (raw k v : string) :
  split_once "=" (Py.strip raw) = Some (k, v) ->
  Py.startswith "#" (Py.strip raw) = false ->
  env_get (load_lines env pre) (Py.strip k) = None ->
  Py.strip k = "" \/ has_nul (Py.strip k) = true \/ has_nul (env_value v) = true ->
  _load_env_from_dotenv (Some (pre ++ raw :: rest)%list) env
  = _load_env_from_dotenv (Some pre) env.
Proof.
  intros Hs Hc Hk Hbad. simpl. apply load_lines_stop.
  unfold load_line. rewrite Hc, Hs.
  destruct (Py.strip raw) as [|c line] eqn:E; [discriminate Hs|]. simpl.
  unfold setdefault. rewrite Hk.
  destruct Hbad as [->|[->| ->]]; simpl; try reflexivity.
  - destruct (negb (Py.truthy (Py.strip k))); [reflexivity|].
    destruct (Py.contains "=" (Py.strip k)); reflexivity.
  - destruct (negb (Py.truthy (Py.strip k))); [reflexivity|].
    destruct (Py.contains "=" (Py.strip k)); [reflexivity|].
    simpl. rewrite orb_true_r. reflexivity.
Qed.

Lemma dotenv_stops_at_a_bad_line_witness :
  _load_env_from_dotenv (Some sample_dotenv) sample_env
  = [("HOME", "/root"); ("OPENAI_MODEL", "gpt-4o"); ("OPENAI_API_KEY", "sk-1");
     ("OPENAI_BASE_URL", "https://api.example.com/")].
Proof.
  exact (eq_trans
           (dotenv_stops_at_a_bad_line sample_env (firstn 6 sample_dotenv)
              ["ASSEMBLYAI_API_KEY=abc" ++ nl] ("=oops" ++ nl) "" "oops"
              eq_refl eq_refl eq_refl (or_introl eq_refl))
           eq_refl).
Defined.

(** * Properties of the age of a job *)

(** X18.  [_relative_time] prints the age in the largest of the units
    second, minute, hour and day that it reaches, rounded down: seconds
    below 60, minutes from 1 to 59, hours from 1 to 23, days from 1 on.  A
    time stamp in the future gives a negative number of seconds; a time
    stamp that is no number gives ["just now"]. *)
Theorem relative_time_rounds_down (now ts : Z) :
  let delta := (now - ts)%Z in
  exists n unit name,
    _relative_time now (Some ts) = str_int n ++ name ++ " ago"
    /\ In (unit, name) [(1, "s"); (60, "m"); (3600, "h"); (86400, "d")]%Z
    /\ (n * unit <= delta < (n + 1) * unit)%Z
    /\ (name = "s" -> n < 60)%Z
    /\ (name = "m" -> 1 <= n < 60)%Z
    /\ (name = "h" -> 1 <= n < 24)%Z
    /\ (name = "d" -> 1 <= n)%Z
    /\ (delta < 0 -> name = "s" /\ n = delta)%Z
    /\ _relative_time now None = "just now".
Proof.
  intros delta. unfold _relative_time. fold delta.
  destruct (Z.ltb_spec delta 60) as [H1|H1].
  { exists delta, 1%Z, "s". split; [reflexivity|]. split; [simpl; auto|].
    repeat split; try lia; try discriminate. }
  destruct (Z.ltb_spec delta 3600) as [H2|H2].
  { exists (delta / 60)%Z, 60%Z, "m". split; [reflexivity|]. split; [simpl; auto|].
    pose proof (Z.div_mod delta 60 ltac:(lia)). pose proof (Z.mod_pos_bound delta 60 ltac:(lia)).
    repeat split; try lia; try discriminate. }
  destruct (Z.ltb_spec delta 86400) as [H3|H3].
  { exists (delta / 3600)%Z, 3600%Z, "h". split; [reflexivity|]. split; [simpl; auto|].
    pose proof (Z.div_mod delta 3600 ltac:(lia)).
    pose proof (Z.mod_pos_bound delta 3600 ltac:(lia)).
    repeat split; try lia; try discriminate. }
  exists (delta / 86400)%Z, 86400%Z, "d". split; [reflexivity|]. split; [simpl; auto 10|].
  pose proof (Z.div_mod delta 86400 ltac:(lia)).
  pose proof (Z.mod_pos_bound delta 86400 ltac:(lia)).
  repeat split; try lia; try discriminate.
Qed.

Example relative_time_samples :
  _relative_time 1700000000 (Some 1699999941%Z) = "59s ago"
  /\ _relative_time 1700000000 (Some 1699999940%Z) = "1m ago"
  /\ _relative_time 1700000000 (Some 1699996401%Z) = "59m ago"
  /\ _relative_time 1700000000 (Some 1699913601%Z) = "23h ago"
  /\ _relative_time 1700000000 (Some 1699800000%Z) = "2d ago"
  /\ _relative_time 1700000000 (Some 1700000005%Z) = "-5s ago"
  /\ _relative_time 1700000000 None = "just now".
Proof. repeat split; vm_compute; reflexivity. Qed.

(** * The colour of a status *)

(** X25.  [_status_color], applied to the text of a status, gives blue
    exactly for the four statuses at which [run_job] refuses to start a job
    (running, downloading, transcribing, summarizing), green exactly for
    completed, red exactly for error and gray for queued; a text that is no
    status of the pipeline gets gray as well. *)
Theorem status_color_follows_activity (st : Status) (other : string) :
  (_status_color (status_str st) = "blue" <-> is_active st = true)
  /\ (_status_color (status_str st) = "green" <-> st = Completed)
  /\ (_status_color (status_str st) = "red" <-> st = Error)
  /\ (_status_color (status_str st) = "gray" <-> st = Queued)
  /\ In (_status_color other) ["gray"; "blue"; "green"; "red"]
  /\ ((forall st', other <> status_str st') -> _status_color other = "gray").
Proof.
  split; [destruct st; simpl; split; intros H; try reflexivity; discriminate H|].
  split; [destruct st; simpl; split; intros H; try reflexivity; discriminate H|].
  split; [destruct st; simpl; split; intros H; try reflexivity; discriminate H|].
  split; [destruct st; simpl; split; intros H; try reflexivity; discriminate H|].
  unfold _status_color. split.
  - repeat match goal with
           | |- context [if ?c then _ else _] => destruct c
           end; simpl; auto 10.
  - intros H.
    destruct (String.eqb_spec other "queued") as [E|_]; [reflexivity|].
    destruct (String.eqb_spec other "running") as [E|_]; [elim (H Running E)|].
    destruct (String.eqb_spec other "downloading") as [E|_]; [elim (H Downloading E)|].
    destruct (String.eqb_spec other "transcribing") as [E|_]; [elim (H Transcribing E)|].
    destruct (String.eqb_spec other "summarizing") as [E|_]; [elim (H Summarizing E)|].
    destruct (String.eqb_spec other "completed") as [E|_]; [elim (H Completed E)|].
    destruct (String.eqb_spec other "error") as [E|_]; [elim (H Error E)|].
    reflexivity.
Qed.

(** * Properties of the loaders *)

Section LoaderFacts.

Variable label_of : Z -> option string.

Lemma with_created_label_same (x : Job) : with_created_label (created_label x) x = x.
Proof. destruct x; reflexivity. Qed.

Lemma falsy_empty (s : string) : negb (Py.truthy s) = true -> s = "".
Proof. destruct s; [reflexivity|discriminate]. Qed.

(** What the backfill does to one job. *)
Lemma backfill_job_spec (x : Job) :
  let x' := fst (backfill_job label_of x) in
  payload_of x' = payload_of x
  /\ (created_label x <> "" -> created_label x' = created_label x)
  /\ (created_label x = "" ->
      created_label x' = match label_of (created_at x) with Some l => l | None => "" end)
  /\ (path x <> "" -> path x' = path x)
  /\ (path x = "" -> path x' = if Py.truthy (id x) then "/job/" ++ id x else "")
  /\ (snd (backfill_job label_of x) = false -> x' = x)
  /\ fst (backfill_job label_of x') = x'.
Proof.
  destruct x as [i u st ca cl md ti pa er fp tr su lo ru].
  unfold backfill_job. simpl.
  destruct cl as [|c cl]; simpl.
  - destruct (label_of ca) as [l|] eqn:El; simpl.
    + destruct i as [|a i]; simpl.
      * rewrite El. destruct l; simpl; repeat split; try congruence; discriminate.
      * destruct pa as [|b pa]; simpl; rewrite ?El; simpl;
          destruct l; simpl; repeat split; try congruence; try discriminate;
          rewrite ?El; reflexivity.
    + destruct i as [|a i]; simpl.
      * rewrite El. repeat split; try congruence.
      * destruct pa as [|b pa]; simpl; rewrite ?El; simpl; repeat split; try congruence;
          discriminate.
  - destruct i as [|a i]; simpl.
    + repeat split; try congruence.
    + destruct pa as [|b pa]; simpl; repeat split; try congruence; discriminate.
Qed.

Lemma backfill_unchanged (js : list Job) :
  snd (backfill label_of js) = false -> fst (backfill label_of js) = js.
Proof.
  unfold backfill. simpl. induction js as [|x js IH]; simpl; [reflexivity|].
  intros H. apply orb_false_iff in H. destruct H as (H1 & H2).
  rewrite (IH H2). f_equal.
  exact (proj1 (proj2 (proj2 (proj2 (proj2 (proj2 (backfill_job_spec x)))))) H1).
Qed.

Lemma backfill_again (js : list Job) :
  fst (backfill label_of (fst (backfill label_of js))) = fst (backfill label_of js).
Proof.
  unfold backfill. simpl. rewrite map_map. apply map_ext. intros x.
  exact (proj2 (proj2 (proj2 (proj2 (proj2 (proj2 (backfill_job_spec x))))))).
Qed.

Lemma reload_jobs (st : FileStatus) (s : AppState) :
  jobs (reload label_of st s) = fst (backfill label_of (loaded st s))
  /\ current_job_id (reload label_of st s) = current_job_id s
  /\ audio_url (reload label_of st s) = audio_url s
  /\ jobs_file (reload label_of st s) =
     if snd (backfill label_of (loaded st s)) then fst (backfill label_of (loaded st s))
     else jobs_file s.
Proof.
  unfold reload. destruct (backfill label_of (loaded st s)) as [js changed].
  destruct changed; simpl; auto.
Qed.

Lemma hydrate_jobs (st : FileStatus) (s : AppState) :
  jobs (hydrate label_of st s) = jobs (reload label_of st s)
  /\ jobs_file (hydrate label_of st s) = jobs_file (reload label_of st s)
  /\ current_job_id (hydrate label_of st s) =
     match jobs (reload label_of st s) with
     | x :: _ => if negb (Py.truthy (current_job_id s)) then id x else current_job_id s
     | [] => current_job_id s
     end.
Proof.
  unfold hydrate. destruct (reload_jobs st s) as (_ & Hc & _). rewrite Hc.
  destruct (jobs (reload label_of st s)) as [|x js] eqn:E; [rewrite Hc; auto|].
  destruct (negb (Py.truthy (current_job_id s))); simpl; rewrite ?E, ?Hc; auto.
Qed.

(** A state whose file holds its jobs, already backfilled, with the first
    job selected if none was, is left as it is by a load from the file. *)
Lemma hydrate_fixed (t : AppState) :
  jobs_file t = jobs t ->
  fst (backfill label_of (jobs t)) = jobs t ->
  (current_job_id t = "" -> match jobs t with x :: _ => id x = "" | [] => True end) ->
  hydrate label_of Readable t = t.
Proof.
  intros Hf Hb Hc. unfold hydrate, reload. simpl loaded. rewrite Hf.
  destruct (backfill label_of (jobs t)) as [js ch] eqn:Eb. simpl in Hb. subst js.
  assert (Hs : (if ch
                then _save (mkApp (audio_url t) (jobs t) (current_job_id t) (jobs t)
                              (status_log t))
                else mkApp (audio_url t) (jobs t) (current_job_id t) (jobs t) (status_log t))
               = t).
  { destruct t as [u js c f l]. simpl in *. subst f. destruct ch; reflexivity. }
  rewrite Hs.
  destruct (jobs t) as [|x js] eqn:Ej; [reflexivity|].
  destruct (current_job_id t) as [|a c] eqn:Ec; simpl; [|reflexivity].
  rewrite (Hc eq_refl). unfold select_job.
  destruct t as [u js' c f l]. simpl in *. subst. reflexivity.
Qed.

(** X19.  [hydrate] takes the jobs from the jobs file when there is one
    (from memory when there is none, and no job at all when the file cannot
    be read, in which case nothing is saved).  It changes no key of a job
    but the label and the path: a job without label gets the label of its
    creation time (none when the time cannot be formatted), a job with an
    id and without path gets [/job/<id>], so that afterwards every job with
    an id has a path.  A selection is kept; without one the first job is
    selected.  After a load from the file the jobs file holds the jobs of
    the state, and a second load changes nothing. *)
Theorem hydrate_backfills (st : FileStatus) (s : AppState) :
  let s' := hydrate label_of st s in
  Forall2 (fun x x' =>
             payload_of x' = payload_of x
             /\ (created_label x <> "" -> created_label x' = created_label x)
             /\ (created_label x = "" ->
                 created_label x' =
                 match label_of (created_at x) with Some l => l | None => "" end)
             /\ (path x <> "" -> path x' = path x)
             /\ (path x = "" -> id x <> "" -> path x' = "/job/" ++ id x))
          (loaded st s) (jobs s')
  /\ Forall (fun x' => id x' <> "" -> path x' <> "") (jobs s')
  /\ (st = Corrupt -> jobs s' = [] /\ jobs_file s' = jobs_file s)
  /\ (current_job_id s <> "" -> current_job_id s' = current_job_id s)
  /\ (current_job_id s = "" ->
      current_job_id s' = match jobs s' with x :: _ => id x | [] => "" end)
  /\ (st = Readable -> jobs_file s' = jobs s' /\ hydrate label_of Readable s' = s').
Proof.
  intros s'. unfold s'.
  destruct (hydrate_jobs st s) as (Hj & Hf & Hc).
  destruct (reload_jobs st s) as (Hrj & _ & _ & Hrf).
  rewrite Hj, Hf, Hc, Hrj, Hrf.
  split.
  { unfold backfill. simpl. generalize (loaded st s) as js.
    induction js as [|x js IH]; simpl; constructor; [|exact IH].
    destruct (backfill_job_spec x) as (H1 & H2 & H3 & H4 & H5 & _).
    split; [exact H1|]. split; [exact H2|]. split; [exact H3|]. split; [exact H4|].
    intros Hp Hi. rewrite (H5 Hp). destruct (id x); [congruence|reflexivity]. }
  split.
  { unfold backfill. simpl. apply Forall_forall. intros x' Hin.
    apply in_map_iff in Hin. destruct Hin as (x & <- & _).
    destruct (backfill_job_spec x) as (H1 & _ & _ & H4 & H5 & _).
    assert (Hid : id (fst (backfill_job label_of x)) = id x).
    { unfold payload_of in H1. inversion H1. reflexivity. }
    rewrite Hid. intros Hi.
    destruct (path x) as [|c p] eqn:Ep.
    - rewrite (H5 eq_refl). destruct (id x); [congruence|discriminate].
    - rewrite H4 by discriminate. discriminate. }
  split; [intros ->; simpl; auto|].
  split.
  { intros Hne. destruct (current_job_id s); [congruence|].
    destruct (fst (backfill label_of (loaded st s))); reflexivity. }
  split.
  { intros ->. destruct (fst (backfill label_of (loaded st s))); reflexivity. }
  intros ->. simpl loaded.
  assert (Hst : (if snd (backfill label_of (jobs_file s))
                 then fst (backfill label_of (jobs_file s)) else jobs_file s)
                = fst (backfill label_of (jobs_file s))).
  { destruct (snd (backfill label_of (jobs_file s))) eqn:E; [reflexivity|].
    symmetry. exact (backfill_unchanged _ E). }
  split; [exact Hst|].
  apply hydrate_fixed.
  - rewrite Hf, Hj, Hrj, Hrf. simpl loaded. exact Hst.
  - rewrite Hj, Hrj. apply backfill_again.
  - rewrite Hj, Hc, Hrj. simpl loaded.
    destruct (fst (backfill label_of (jobs_file s))) as [|x js]; [exact (fun _ => I)|].
    destruct (current_job_id s) as [|a c]; simpl; [intros H; exact H|discriminate].
Qed.

(** X20.  [init_job_view] and [load_job] select the id of the route
    stripped of white space and then of slashes, so the id selected neither
    starts nor ends with a slash; when that id is empty (no id, or nothing
    but blanks and slashes) [init_job_view] drops the selection and
    [load_job] keeps the one there was.  Both load the jobs only when the
    state has none, and the same way: they end with the same jobs. *)
Theorem job_view_selects_normalized (st : FileStatus) (job_id : option string) (s : AppState) :
  let jid := normalized job_id in
  current_job_id (init_job_view label_of st job_id s) = jid
  /\ current_job_id (load_job label_of st job_id s) =
     (if Py.truthy jid then jid else current_job_id s)
  /\ jobs (init_job_view label_of st job_id s) = jobs (load_job label_of st job_id s)
  /\ (jobs s <> [] -> jobs (init_job_view label_of st job_id s) = jobs s
                      /\ jobs_file (init_job_view label_of st job_id s) = jobs_file s)
  /\ (jobs s = [] -> jobs (init_job_view label_of st job_id s) = jobs (reload label_of st s))
  /\ (forall c r, jid = String c r -> c <> "/"%char)
  /\ (forall r d, jid = r ++ String d "" -> d <> "/"%char)
  /\ normalized None = "".
Proof.
  intros jid. unfold init_job_view, load_job. fold jid.
  split; [reflexivity|].
  split.
  { destruct (Py.truthy jid); [reflexivity|].
    destruct (jobs s); [exact (proj1 (proj2 (reload_jobs st s)))|reflexivity]. }
  split; [destruct (Py.truthy jid); reflexivity|].
  split; [intros H; destruct (jobs s) eqn:E; [congruence|split; [exact E|reflexivity]]|].
  split; [intros ->; reflexivity|].
  assert (Hq : forall c, any_of "/" c = false -> c <> "/"%char)
    by (intros c Hc ->; discriminate Hc).
  destruct (strip_by_ends (any_of "/") (Py.strip (Py.or_empty job_id))) as (H1 & H2).
  split; [intros c r H; exact (Hq _ (H1 _ _ H))|].
  split; [intros r d H; exact (Hq _ (H2 _ _ H))|reflexivity].
Qed.

End LoaderFacts.

Example job_view_on_samples :
  current_job_id (init_job_view no_label Missing (Some " /deadbeef/ ") (sample_state Completed))
  = "deadbeef"
  /\ current_job_id (init_job_view no_label Missing (Some "//") (sample_state Completed)) = ""
  /\ current_job_id (load_job no_label Missing (Some "//") (sample_state Completed)) = "deadbeef"
  /\ current_job_id (load_job no_label Missing None (sample_state Completed)) = "deadbeef"
  /\ normalized (Some "/ a /") = " a ".
Proof. repeat split; vm_compute; reflexivity. Qed.

Example hydrate_on_samples :
  let old := mkJob "0a1b2c3d" "https://example.com/a.mp3" Completed 1700000000 "" ""
                   "" "" "" "" (JStr "") "" [] None in
  let s := mkApp "" [] "" [old] [] in
  map (fun x => (id x, created_label x, path x)) (jobs (hydrate fixed_label Readable s))
  = [("0a1b2c3d", "2023-11-14 22:13:20", "/job/0a1b2c3d")]
  /\ current_job_id (hydrate fixed_label Readable s) = "0a1b2c3d"
  /\ jobs_file (hydrate fixed_label Readable s) = jobs (hydrate fixed_label Readable s)
  /\ jobs (hydrate fixed_label Corrupt (sample_state Completed)) = []
  /\ current_job_id (hydrate fixed_label Corrupt (sample_state Completed)) = "deadbeef"
  /\ jobs (hydrate fixed_label Missing (sample_state Completed))
     = jobs (sample_state Completed).
Proof. repeat split; vm_compute; reflexivity. Qed.

(** * The identity of a job *)

Lemma framed_identities (h hf : Held) :
  framed h hf -> map identity_of (h_jobs hf) = map identity_of (h_jobs h).
Proof.
  intros (Hb & Ha & Hi & _). unfold h_jobs. rewrite Hb, Ha, !map_app. simpl.
  rewrite Hi. reflexivity.
Qed.

Lemma run_job_identities (w : Services) (job_id : string) (s : AppState) :
  map identity_of (jobs (run_job w job_id s)) = map identity_of (jobs s).
Proof.
  destruct (hold s job_id) as [h|] eqn:Hh.
  - destruct (is_active (status (j h))) eqn:Hact.
    + unfold run_job. rewrite Hh, Hact. reflexivity.
    + destruct (run_job_held w job_id s h Hh Hact) as (hf & -> & Hfr & _).
      destruct (hold_some _ _ _ Hh) as (-> & _). exact (framed_identities _ _ Hfr).
  - unfold run_job. rewrite Hh. reflexivity.
Qed.

Lemma regenerate_for_identities (w : Services) (job_id : string) (s : AppState) :
  map identity_of (jobs (regenerate_summary_for w job_id s)) = map identity_of (jobs s).
Proof.
  unfold regenerate_summary_for.
  destruct (hold s job_id) as [h|] eqn:Hh; [|reflexivity].
  destruct (hold_some _ _ _ Hh) as (-> & _).
  destruct (negb (truthy_in w (transcript (j h)))).
  { apply framed_identities, framed_log, framed_refl. }
  set (h1 := append_log_held _ _).
  assert (H01 : framed h h1).
  { unfold h1. apply framed_log, framed_save, framed_status.
    apply framed_assign; [intros; split; reflexivity|apply framed_refl]. }
  apply framed_identities. apply (framed_trans _ _ _ H01).
  apply (hoare_try (tidy h1 Summarizing) (framed h1) (tidy_any h1)).
  - apply (hoare_post _ _ _ _ _ (regenerate_try_tidy w job_id _ h1)).
    intros _ hf ((Hfr & _) & _). exact Hfr.
  - intros e h' (st & Hfr & _). unfold regenerate_except.
    apply framed_log, framed_save, framed_status, Hfr.
  - split; [apply framed_refl|split; reflexivity].
Qed.

Lemma reset_identities (s : AppState) (job_id : string) (h : Held) (f : Job -> Job) :
  hold s job_id = Some h ->
  (forall x, identity_of (f x) = identity_of x) ->
  map identity_of (jobs (_save (release (assign f (assign_status Queued h)))))
  = map identity_of (jobs s).
Proof.
  intros Hh Hf. destruct (hold_some _ _ _ Hh) as (-> & _).
  unfold _save, release, assign, assign_status, h_jobs. cbn [jobs before j after].
  rewrite !map_app. cbn [map]. rewrite Hf. reflexivity.
Qed.

Lemma retry_current_identities (w : Services) (s : AppState) :
  map identity_of (jobs (retry_current w s)) = map identity_of (jobs s).
Proof.
  unfold retry_current, retry_current_reset.
  destruct (negb (Py.truthy (current_job_id s))); [reflexivity|].
  destruct (hold s (current_job_id s)) as [h|] eqn:Hh; [|reflexivity].
  rewrite run_job_identities.
  apply (reset_identities s _ h
           (fun x => with_summary "" (with_transcript (JStr "") (with_logs [] (with_error "" x))))
           Hh).
  reflexivity.
Qed.

Lemma retry_job_identities (w : Services) (job_id : string) (s : AppState) :
  map identity_of (jobs (retry_job w job_id s)) = map identity_of (jobs s).
Proof.
  unfold retry_job, retry_job_reset.
  destruct (hold s job_id) as [h|] eqn:Hh; [|reflexivity].
  rewrite run_job_identities.
  apply (reset_identities s _ h
           (fun x => (fun y => with_summary (summary y) y) (with_logs [] (with_error "" x)))
           Hh).
  reflexivity.
Qed.

Lemma regenerate_identities (w : Services) (s : AppState) :
  map identity_of (jobs (regenerate_summary w s)) = map identity_of (jobs s).
Proof.
  unfold regenerate_summary.
  destruct (negb (Py.truthy (current_job_id s))); [reflexivity|].
  apply regenerate_for_identities.
Qed.

(** X21.  Running, retrying, regenerating and clearing a selected job
    leave the id, the URL, the creation time and its label, the meeting
    date and the path of every job as they were, in the order of the list,
    whatever the helpers answer. *)
Theorem identities_are_kept (w : Services) (job_id : string) (s : AppState) :
  map identity_of (jobs (run_job w job_id s)) = map identity_of (jobs s)
  /\ map identity_of (jobs (retry_current w s)) = map identity_of (jobs s)
  /\ map identity_of (jobs (retry_job w job_id s)) = map identity_of (jobs s)
  /\ map identity_of (jobs (regenerate_summary_for w job_id s)) = map identity_of (jobs s)
  /\ map identity_of (jobs (regenerate_summary w s)) = map identity_of (jobs s)
  /\ (current_job_id s <> "" -> map identity_of (jobs (clear s)) = map identity_of (jobs s)).
Proof.
  split; [apply run_job_identities|].
  split; [apply retry_current_identities|].
  split; [apply retry_job_identities|].
  split; [apply regenerate_for_identities|].
  split; [apply regenerate_identities|].
  intros Hc. unfold clear. rewrite (truthy_nonempty _ Hc).
  destruct (hold s (current_job_id s)) as [h|] eqn:Hh; [|reflexivity].
  destruct (hold_some _ _ _ Hh) as (-> & _).
  unfold _save, release, assign, assign_status, h_jobs. cbn [jobs before j after].
  rewrite !map_app. reflexivity.
Qed.

(** * Reloading after operations *)

Lemma well_kept_identity (x y : Job) :
  identity_of x = identity_of y -> well_kept y -> well_kept x.
Proof.
  unfold identity_of, well_kept. intros H (Hp & Hl). inversion H. split; congruence.
Qed.

Lemma well_kept_map (js js' : list Job) :
  map identity_of js' = map identity_of js -> Forall well_kept js -> Forall well_kept js'.
Proof.
  revert js'. induction js as [|x js IH]; intros [|y js'] H Hf; try discriminate H;
    [constructor|].
  cbn [map] in H. injection H as Hi Hu Hc Hl Hm Hp Hmap.
  inversion Hf as [|? ? (Hxp & Hxl) Hjs]; subst.
  constructor; [split; congruence|exact (IH _ Hmap Hjs)].
Qed.

Lemma exec_well_kept (o : Op) (s : AppState) :
  op_ok o -> Forall well_kept (jobs s) -> Forall well_kept (jobs (exec o s)).
Proof.
  intros Ho Hs. destruct o; simpl.
  - exact Hs.
  - unfold add_job.
    destruct (negb (Py.truthy (Py.strip (audio_url s)))); [exact Hs|].
    eapply well_kept_map; [apply run_job_identities|].
    simpl. constructor; [split; [reflexivity|exact Ho]|exact Hs].
  - exact Hs.
  - exact (well_kept_map _ _ (run_job_identities w job_id s) Hs).
  - exact (well_kept_map _ _ (retry_current_identities w s) Hs).
  - exact (well_kept_map _ _ (retry_job_identities w job_id s) Hs).
  - exact (well_kept_map _ _ (regenerate_identities w s) Hs).
  - exact (well_kept_map _ _ (regenerate_for_identities w job_id s) Hs).
  - unfold delete_current.
    destruct (negb (Py.truthy (current_job_id s))); [exact Hs|].
    simpl. rewrite Forall_forall in *. intros x Hx. apply filter_In in Hx. apply Hs. tauto.
  - unfold delete_by_id, delete_current. simpl.
    destruct (negb (Py.truthy job_id)); [exact Hs|].
    simpl. rewrite Forall_forall in *. intros x Hx. apply filter_In in Hx. apply Hs. tauto.
Qed.

Lemma exec_all_well_kept (ops : list Op) (s : AppState) :
  Forall op_ok ops -> Forall well_kept (jobs s) ->
  Forall well_kept (jobs (exec_all ops s)).
Proof.
  unfold exec_all. revert s.
  induction ops as [|o ops IH]; intros s Ho Hs; simpl; [exact Hs|].
  inversion Ho; subst. apply IH; [assumption|]. apply exec_well_kept; assumption.
Qed.

Lemma backfill_well_kept (label_of : Z -> option string) (js : list Job) :
  Forall well_kept js -> backfill label_of js = (js, false).
Proof.
  intros H. unfold backfill.
  assert (Hx : forall x, well_kept x -> backfill_job label_of x = (x, false)).
  { intros x (Hp & Hl). unfold backfill_job.
    destruct (created_label x) as [|c l]; [congruence|]. simpl.
    rewrite Hp. destruct (id x); reflexivity. }
  induction H as [|x js Hk Hjs IH]; [reflexivity|].
  injection IH as H1 H2. cbn [map existsb]. rewrite (Hx x Hk), H1, H2. reflexivity.
Qed.

(** X22.  After any sequence of operations from the empty store, every
    job has the path [/job/<id>]; when moreover the clock gave a label at
    each [add_job], a load from the jobs file ([hydrate]) gives back the
    jobs of the state, unchanged and in their order, and writes nothing. *)
Theorem reload_gives_the_jobs_back (label_of : Z -> option string) (ops : list Op) :
  Forall op_ok ops ->
  let s := exec_all ops initial_state in
  Forall (fun x => path x = "/job/" ++ id x) (jobs s)
  /\ jobs (hydrate label_of Readable s) = jobs s
  /\ jobs_file (hydrate label_of Readable s) = jobs_file s
  /\ (current_job_id s <> "" -> hydrate label_of Readable s = s).
Proof.
  intros Ho s.
  assert (Hk : Forall well_kept (jobs s))
    by (apply exec_all_well_kept; [exact Ho|constructor]).
  assert (Hst : jobs_file s = jobs s) by (apply exec_all_stored; reflexivity).
  split; [eapply Forall_impl; [|exact Hk]; intros x (Hp & _); exact Hp|].
  destruct (hydrate_jobs label_of Readable s) as (Hj & Hf & Hc).
  destruct (reload_jobs label_of Readable s) as (Hrj & _ & _ & Hrf).
  simpl loaded in *. rewrite Hst, (backfill_well_kept label_of _ Hk) in Hrj, Hrf.
  simpl in Hrj, Hrf.
  split; [rewrite Hj; exact Hrj|]. split; [rewrite Hf, Hrf; symmetry; exact Hst|].
  intros Hne. apply hydrate_fixed; [exact Hst| |intros E; congruence].
  rewrite (backfill_well_kept label_of _ Hk). reflexivity.
Qed.

Lemma reload_gives_the_jobs_back_witness :
  jobs (hydrate no_label Readable (exec_all sample_ops initial_state))
  = jobs (exec_all sample_ops initial_state).
Proof.
  refine (proj1 (proj2 (reload_gives_the_jobs_back no_label sample_ops _))).
  repeat constructor. discriminate.
Defined.

(** * Properties of the meeting date *)

Section DateFacts.

Variable small_year : Z -> string.

Lemma strptime_valid (fmt : Re) (s : string) (y m d : Z) :
  strptime fmt s = Some (y, m, d) -> valid_date y m d = true.
Proof.
  unfold strptime. destruct (re_match fmt s) as [mt|]; [|discriminate].
  destruct (Py.truthy (rest (m_end mt))); [discriminate|].
  destruct (py_int (group 1 mt)) as [y'|]; [|discriminate].
  destruct (py_int (group 2 mt)) as [m'|]; [|discriminate].
  destruct (py_int (group 3 mt)) as [d'|]; [|discriminate].
  destruct (valid_date y' m' d') eqn:E; [|discriminate].
  intros H. inversion H; subst. exact E.
Qed.

Lemma first_format_valid (fmts : list Re) (s text : string) :
  first_format small_year fmts s = Some text ->
  exists y m d, valid_date y m d = true /\ text = date_text small_year (y, m, d).
Proof.
  induction fmts as [|fmt more IH]; simpl; [discriminate|].
  destruct (strptime fmt s) as [[[y m] d]|] eqn:E; [|exact IH].
  intros H. inversion H; subst. exists y, m, d.
  split; [exact (strptime_valid _ _ _ _ _ E)|reflexivity].
Qed.

Lemma first_pattern_valid (patterns : list Re) (url text : string) :
  first_pattern small_year patterns url = Some text ->
  exists y m d, valid_date y m d = true /\ text = date_text small_year (y, m, d).
Proof.
  induction patterns as [|p more IH]; cbn [first_pattern]; [discriminate|].
  destruct (re_search p url) as [mt|]; [|exact IH].
  destruct (first_format small_year [fmt_ymd; fmt_compact; fmt_mdy; fmt_dmy]
              (dashed (group 1 mt))) as [t|] eqn:E; [|exact IH].
  intros H. inversion H; subst. exact (first_format_valid _ _ _ E).
Qed.

(** X23.  The meeting date found for a URL is empty, or the date read on
    the share page, or a date of the calendar printed as year, month and
    day.  It is read on the share page, as it stands there and unchecked,
    only for a URL with [plaud.ai] whose page answers with status 200 and
    shows a date followed by a time; for any other URL the page is not
    asked.  A date-like part of the URL that is no date of the calendar is
    passed over, and the later patterns are tried. *)
Theorem meeting_date_is_a_date (page : PyExn + nat * string) (url : string) :
  let found := _extract_date_from_url small_year page url in
  (found = ""
   \/ (Py.contains "plaud.ai" url = true /\ page_date page = Some found)
   \/ exists y m d, valid_date y m d = true /\ found = date_text small_year (y, m, d))
  /\ (Py.contains "plaud.ai" url = false ->
      forall page', _extract_date_from_url small_year page' url = found)
  /\ (Py.contains "plaud.ai" url = false -> found <> "" ->
      exists y m d, valid_date y m d = true /\ found = date_text small_year (y, m, d))
  /\ (forall text, Py.contains "plaud.ai" url = true -> page_date page = Some text ->
      found = text)
  /\ (forall y m d, valid_date y m d = true ->
      (1 <= m <= 12 /\ 1 <= d <= 31 /\ 1 <= y <= 9999)%Z
      /\ (m = 2 -> d <= 29)%Z
      /\ (m = 2 -> d = 29 -> (y mod 4 = 0)%Z)%Z).
Proof.
  intros found. unfold found, _extract_date_from_url.
  assert (Hurl : forall t,
             match first_pattern small_year [pat_iso; pat_compact; pat_year_last; pat_loose] url
             with Some text => text | None => "" end = t ->
             t = "" \/ exists y m d, valid_date y m d = true
                                     /\ t = date_text small_year (y, m, d)).
  { intros t <-.
    destruct (first_pattern small_year _ url) as [text|] eqn:E; [right|left; reflexivity].
    exact (first_pattern_valid _ _ _ E). }
  split.
  { destruct (Py.contains "plaud.ai" url).
    - destruct (page_date page) as [text|]; [right; left; auto|].
      destruct (Hurl _ eq_refl) as [H|H]; [left; exact H|right; right; exact H].
    - destruct (Hurl _ eq_refl) as [H|H]; [left; exact H|right; right; exact H]. }
  split; [intros -> page'; reflexivity|].
  split.
  { intros -> Hne. destruct (Hurl _ eq_refl) as [H|H]; [congruence|exact H]. }
  split; [intros text -> ->; reflexivity|].
  intros y m d Hv. unfold valid_date in Hv.
  repeat (apply andb_prop in Hv; destruct Hv as (Hv & ?)).
  repeat match goal with
         | H : _ = true |- _ => apply Z.leb_le in H
         end.
  assert (Hd : (days_in_month y m <= 31)%Z).
  { unfold days_in_month. destruct m as [|[[[[]|[]|]|[[]|[]|]|]|[[[]|[]|]|[[]|[]|]|]|]|];
      try lia; destruct (is_leap y); lia. }
  split; [lia|]. split.
  - intros ->. unfold days_in_month in *. destruct (is_leap y); lia.
  - intros -> ->. unfold days_in_month, is_leap in *.
    destruct (Z.eqb_spec (y mod 4) 0) as [E|E]; [exact E|]. simpl in *. lia.
Qed.

End DateFacts.

Example meeting_dates :
  let find := _extract_date_from_url unpadded (inl refused) in
  find "https://example.com/rec_2025-09-28.mp3" = "2025-09-28"
  /\ find "https://example.com/20250928_standup.mp3" = "2025-09-28"
  /\ find "https://example.com/09_28_2025/a.mp3" = "2025-09-28"
  /\ find "https://example.com/2025/9/8/a.mp3" = "2025-09-08"
  /\ find "https://example.com/2025-13-45/20250928.mp3" = "2025-09-28"
  /\ find "https://example.com/2023-02-29.mp3" = ""
  /\ find "https://example.com/a.mp3" = ""
  /\ find "https://web.plaud.ai/share/abc123" = ""
  /\ _extract_date_from_url unpadded (inr (200, "<title>2025-99-99 10:20:30</title>"))
       "https://web.plaud.ai/share/abc123" = "2025-99-99"
  /\ _extract_date_from_url unpadded (inr (404, "<title>2025-09-28 10:20:30</title>"))
       "https://web.plaud.ai/share/2024-01-31" = "2024-01-31".
Proof. repeat split; vm_compute; reflexivity. Qed.

Example dated_job :
  map (fun x => (id x, url x, meeting_date x))
      (jobs (add_job_dated unpadded (inl refused) "0a1b2c3d" 1700000000 "2023-11-14 22:13:20"
               (services sample_world)
               (set_audio_url " https://example.com/2023-11-14/a.mp3 " initial_state)))
  = [("0a1b2c3d", "https://example.com/2023-11-14/a.mp3", "2023-11-14")].
Proof. vm_compute. reflexivity. Qed.

(** ** What the summarizer returns *)

Section SummarizerFacts.

Variable float_nonzero : string -> bool.
Variable py_repr : JSON -> string.


End SummarizerFacts.

